(** * Rani voice pipeline: STT normalizer, VAD segmentation, PCM16 transport
      and the ask-turn orchestrator

    A shallow embedding of

    - [src/features/ask/stt/askSttService.js]  (class [AskSttService]),
    - the [AskAudioCapture] class with Speex VAD and voice level tracking,
    - [src/ui/ask/askAudioCapture.js]          (PCM16 / base64 helpers),
    - [src/features/ask/askService.js]         (class [AskService]),

    together with the properties the design document states about them. *)

From Stdlib Require Import ZArith QArith List String Ascii Bool Lia Lqa.
From Stdlib Require Floats.PrimFloat Floats.FloatAxioms Numbers.Cyclic.Int63.Uint63.

#[global] Set Warnings "-inexact-float".
Import ListNotations.

Local Open Scope string_scope.
Local Open Scope list_scope.

(* ===================================================================== *)
(** * JavaScript string primitives                                        *)
(* ===================================================================== *)

(** Strings are sequences of code units below 256 (Rocq's [string]); the
    primitives below are those of [String.prototype] restricted to that
    range. *)
Module JsString.

(** White space of [String.prototype.trim] in the range of one byte:
    TAB, LF, VT, FF, CR, SPACE and NBSP. *)
Definition isWhiteSpace (c : ascii) : bool :=
  let n := nat_of_ascii c in
  ((9 <=? n) && (n <=? 13) || (n =? 32) || (n =? 160))%nat.

Fixpoint trimStart (s : string) : string :=
  match s with
  | EmptyString => EmptyString
  | String c r => if isWhiteSpace c then trimStart r else s
  end.

Fixpoint trimEnd (s : string) : string :=
  match s with
  | EmptyString => EmptyString
  | String c r =>
      match trimEnd r with
      | EmptyString => if isWhiteSpace c then EmptyString else String c EmptyString
      | r' => String c r'
      end
  end.

Definition trim (s : string) : string := trimEnd (trimStart s).

(** [s.startsWith(p)] *)
Definition startsWith (s p : string) : bool := String.prefix p s.

(** [s.includes(p)]: [p] occurs in [s] as a contiguous substring. *)
Fixpoint includes (s p : string) : bool :=
  String.prefix p s ||
  match s with
  | EmptyString => false
  | String _ r => includes r p
  end.

(** [s.substring(n)] for [n] within the string or beyond it. *)
Fixpoint substringFrom (n : nat) (s : string) : string :=
  match n, s with
  | O, _ => s
  | S k, String _ r => substringFrom k r
  | S _, EmptyString => EmptyString
  end.

(** [s.toLowerCase()]: the letters A-Z, and the Latin-1 capitals. *)
Definition lowerChar (c : ascii) : ascii :=
  let n := nat_of_ascii c in
  if ((65 <=? n) && (n <=? 90))%nat then ascii_of_nat (n + 32)
  else if ((192 <=? n) && (n <=? 222) && negb (n =? 215))%nat then ascii_of_nat (n + 32)
  else c.

Fixpoint toLowerCase (s : string) : string :=
  match s with
  | EmptyString => EmptyString
  | String c r => String (lowerChar c) (toLowerCase r)
  end.

(** [s.split('\n')] *)
Fixpoint splitLines (s : string) : list string :=
  match s with
  | EmptyString => [EmptyString]
  | String c r =>
      if Ascii.eqb c "010"%char then EmptyString :: splitLines r
      else match splitLines r with
           | [] => [String c EmptyString]
           | l :: ls => String c l :: ls
           end
  end.

(** Truthiness of a string value: non-empty. *)
Definition truthy (s : string) : bool := negb (String.eqb s "").

(** Truthiness of a possibly undefined string. *)
Definition truthyOpt (o : option string) : bool :=
  match o with Some s => truthy s | None => false end.

(** [a || b] on possibly undefined strings. *)
Definition orElse (a b : option string) : option string :=
  if truthyOpt a then a else b.

End JsString.

(* ===================================================================== *)
(** * AskSttService: the normalizer of STT provider messages              *)
(* ===================================================================== *)

Module AskSttService.
Import JsString.

(** The four callbacks of the service, as the canonical event stream. *)
Inductive event : Type :=
| TranscriptionUpdate (text : string) (isFinal : bool)
| TranscriptionComplete (text : string)
| StatusUpdate (status : string)
| Error (cause : string).

(** What [sendAudioData] hands to [sttSession.sendRealtimeInput]. *)
Inductive payload : Type :=
| GeminiAudio (data mimeType : string)
| DecodedBuffer (base64 : string)
| RawData (data : string).

(** Observable effects of one operation, in program order: a registered
    callback invoked, or a call on the provider adapter. *)
Inductive effect : Type :=
| Emit (e : event)
| SessionClose
| SessionSend (p : payload).

(** How an [async] method settles. *)
Inductive completion : Type :=
| Returned
| Thrown (msg : string).

Record ModelInfo : Type := mkModelInfo {
  provider : string;
  apiKey : string;
  model : string
}.

(** The provider adapter is a collaborator: all the service needs from it is
    whether [close()] and [sendRealtimeInput()] reject. *)
Record session : Type := mkSession {
  closeRejects : bool;
  sendRejects : bool
}.

(** Which callbacks are registered ([null] otherwise). *)
Record callbacks : Type := mkCallbacks {
  onTranscriptionUpdate : bool;
  onTranscriptionComplete : bool;
  onStatusUpdate : bool;
  onError : bool
}.

Record service : Type := mkService {
  sttSession : option session;
  isListening : bool;
  currentTranscription : string;
  modelInfo : option ModelInfo;
  cbs : callbacks
}.

(** The constructor. *)
Definition init : service :=
  mkService None false "" None (mkCallbacks false false false false).

(** The fields of a raw provider message that [handleMessage] reads. A field
    that is absent, or reached through an absent object ([?.]), is [None]. *)
Record message : Type := mkMessage {
  text : option string;                    (* message.text *)
  channelTranscript : option string;       (* message.channel?.alternatives?.[0]?.transcript *)
  is_final : bool;                         (* message.is_final *)
  turnComplete : bool;                     (* message.serverContent?.turnComplete *)
  inputTranscriptionText : option string;  (* message.serverContent?.inputTranscription.text *)
  type : option string;                    (* message.type *)
  transcript : option string;              (* message.transcript *)
  delta : option string;                   (* message.delta *)
  alternativesTranscript : option string;  (* message.alternatives && message.alternatives[0]?.transcript *)
  error : option string                    (* message.error *)
}.

Definition setCallbacks (cb : callbacks) (s : service) : service :=
  mkService (sttSession s) (isListening s) (currentTranscription s) (modelInfo s) cb.

Definition withTranscription (t : string) (s : service) : service :=
  mkService (sttSession s) (isListening s) t (modelInfo s) (cbs s).

Definition withListening (b : bool) (s : service) : service :=
  mkService (sttSession s) b (currentTranscription s) (modelInfo s) (cbs s).

(** [if (this.onX) this.onX(...)] *)
Definition emitIf (registered : bool) (e : event) : list effect :=
  if registered then [Emit e] else [].

Definition noisePatterns : list string :=
  [ "[BLANK_AUDIO]"; "[INAUDIBLE]"; "[MUSIC]"; "[SOUND]"; "[NOISE]";
    "(BLANK_AUDIO)"; "(INAUDIBLE)"; "(MUSIC)"; "(SOUND)"; "(NOISE)" ].

(** [noisePatterns.some(pattern => finalText.includes(pattern) || finalText === pattern)] *)
Definition isNoise (finalText : string) : bool :=
  existsb (fun pattern => includes finalText pattern || String.eqb finalText pattern)
          noisePatterns.

(** The result of a provider arm: the new state, the effects, and whether
    control falls through to the [message.error] check ([false] after a
    [return]). *)
Definition arm : Type := (service * list effect * bool)%type.

Definition whisperArm (s : service) (m : message) : arm :=
  match text m with
  | Some t =>
      if truthy t && truthy (trim t) then
        let finalText := trim t in
        if negb (isNoise finalText) && (2 <? String.length finalText)%nat then
          (withTranscription finalText s,
           emitIf (onTranscriptionUpdate (cbs s)) (TranscriptionUpdate finalText true)
           ++ emitIf (onTranscriptionComplete (cbs s)) (TranscriptionComplete finalText),
           true)
        else (s, [], true)
      else (s, [], true)
  | None => (s, [], true)
  end.

Definition deepgramArm (s : service) (m : message) : arm :=
  match channelTranscript m with
  | Some t =>
      if negb (truthy t) || (String.length (trim t) =? 0)%nat then (s, [], false)
      else if is_final m then
        (withTranscription t s,
         emitIf (onTranscriptionUpdate (cbs s)) (TranscriptionUpdate t true)
         ++ emitIf (onTranscriptionComplete (cbs s)) (TranscriptionComplete t),
         true)
      else (s, emitIf (onTranscriptionUpdate (cbs s)) (TranscriptionUpdate t false), true)
  | None => (s, [], false)
  end.

Definition geminiArm (s : service) (m : message) : arm :=
  if turnComplete m then
    (s,
     if truthy (currentTranscription s)
     then emitIf (onTranscriptionComplete (cbs s)) (TranscriptionComplete (currentTranscription s))
     else [],
     false)
  else
    match inputTranscriptionText m with
    | Some textChunk =>
        if negb (truthy textChunk) then (s, [], false)
        else if negb (truthy (trim textChunk)) || String.eqb (trim textChunk) "<noise>"
        then (s, [], false)
        else
          let acc := (currentTranscription s ++ textChunk)%string in
          (withTranscription acc s,
           emitIf (onTranscriptionUpdate (cbs s)) (TranscriptionUpdate acc false),
           true)
    | None => (s, [], false)
    end.

Definition deltaType : string := "conversation.item.input_audio_transcription.delta".
Definition completedType : string := "conversation.item.input_audio_transcription.completed".

(** OpenAI and other providers. *)
Definition otherArm (s : service) (m : message) : arm :=
  let txt :=
    match orElse (orElse (orElse (transcript m) (delta m)) (alternativesTranscript m)) (Some "") with
    | Some t => t
    | None => ""
    end in
  match type m with
  | Some ty =>
      if String.eqb ty deltaType then
        let acc := (currentTranscription s ++ txt)%string in
        (withTranscription acc s,
         if truthy txt && negb (includes txt "vq_lbr_audio_")
         then emitIf (onTranscriptionUpdate (cbs s)) (TranscriptionUpdate acc false)
         else [],
         true)
      else if String.eqb ty completedType then
        if truthy txt && truthy (trim txt) then
          let final := trim txt in
          (withTranscription final s,
           emitIf (onTranscriptionUpdate (cbs s)) (TranscriptionUpdate final true)
           ++ emitIf (onTranscriptionComplete (cbs s)) (TranscriptionComplete final),
           true)
        else (s, [], true)
      else (s, [], true)
  | None => (s, [], true)
  end.

(** The [onmessage] callback registered by [initializeSession]. *)
Definition handleMessage (s : service) (m : message) : service * list effect :=
  match modelInfo s with
  | None => (s, [])
  | Some info =>
      let '(s', out, fallsThrough) :=
        if String.eqb (provider info) "whisper" then whisperArm s m
        else if String.eqb (provider info) "deepgram" then deepgramArm s m
        else if String.eqb (provider info) "gemini" then geminiArm s m
        else otherArm s m in
      if fallsThrough then
        match error m with
        | Some e => if truthy e then (s', out ++ emitIf (onError (cbs s')) (Error e))
                    else (s', out)
        | None => (s', out)
        end
      else (s', out)
  end.

(** The adapter's [onerror] callback. *)
Definition onAdapterError (s : service) (msg : string) : service * list effect :=
  (s, emitIf (onError (cbs s)) (Error msg)).

(** The adapter's [onclose] callback. *)
Definition onAdapterClose (s : service) : service * list effect :=
  (withListening false s, emitIf (onStatusUpdate (cbs s)) (StatusUpdate "disconnected")).

(** [initializeSession]: [info] is what [getCurrentModelInfo('stt')] resolves
    to, [created] what [createSTT] settles to. The [bool] is the return value.
    This is the call with nothing else running while it waits; its pieces
    on either side of [await createSTT(...)] are in [AskSttServiceAwaits]. *)
Definition initializeSession (info : option ModelInfo) (created : string + session)
    (s : service) : service * list effect * bool :=
  match info with
  | Some mi =>
      if truthy (apiKey mi) then
        let s1 := mkService (sttSession s) (isListening s) (currentTranscription s) (Some mi) (cbs s) in
        match created with
        | inr sess =>
            (mkService (Some sess) (isListening s1) (currentTranscription s1) (modelInfo s1) (cbs s1),
             emitIf (onStatusUpdate (cbs s)) (StatusUpdate "ready"), true)
        | inl msg => (s1, emitIf (onError (cbs s)) (Error msg), false)
        end
      else (s, emitIf (onError (cbs s)) (Error "STT model or API key is not configured."), false)
  | None => (s, emitIf (onError (cbs s)) (Error "STT model or API key is not configured."), false)
  end.

Definition startListening (s : service) : service * list effect * completion :=
  match sttSession s with
  | None => (s, [], Thrown "STT session not initialized")
  | Some _ =>
      if isListening s then (s, [], Returned)
      else
        (mkService (sttSession s) true "" (modelInfo s) (cbs s),
         emitIf (onStatusUpdate (cbs s)) (StatusUpdate "listening"),
         Returned)
  end.

Definition stopListening (s : service) : service * list effect * completion :=
  if negb (isListening s) then (s, [], Returned)
  else (withListening false s,
        emitIf (onStatusUpdate (cbs s)) (StatusUpdate "stopped"),
        Returned).

(** [sendAudioData]: [fetched] is what the on-the-fly
    [getCurrentModelInfo('stt')] resolves to when [this.modelInfo] is unset. *)
Definition sendAudioData (data : string) (mimeType : option string)
    (fetched : option ModelInfo) (s : service) : service * list effect * completion :=
  match sttSession s with
  | None => (s, [], Thrown "STT session not active")
  | Some sess =>
      if negb (isListening s) then (s, [], Thrown "Not currently listening")
      else
        match (match modelInfo s with Some mi => Some mi | None => fetched end) with
        | None => (s, [], Thrown "STT model info could not be retrieved.")
        | Some mi =>
            let p :=
              if String.eqb (provider mi) "gemini" then
                GeminiAudio data (match orElse mimeType (Some "audio/pcm;rate=24000") with
                                  | Some mt => mt | None => "" end)
              else if String.eqb (provider mi) "deepgram" then DecodedBuffer data
              else RawData data in
            (s, [SessionSend p],
             if sendRejects sess then Thrown "sendRealtimeInput rejected" else Returned)
        end
  end.

Definition isActive (s : service) : bool :=
  match sttSession s with Some _ => isListening s | None => false end.

(** [closeSession], with nothing else running while it waits for
    [close()]; its pieces are in [AskSttServiceAwaits]. *)
Definition closeSession (s : service) : service * list effect * completion :=
  let closing := match sttSession s with Some _ => [SessionClose] | None => [] end in
  (mkService None false "" None (cbs s),
   closing ++ emitIf (onStatusUpdate (cbs s)) (StatusUpdate "disconnected"),
   Returned).

(** Every entry point of the service, with the outcomes of the collaborators
    it consults. *)
Inductive op : Type :=
| OpSetCallbacks (cb : callbacks)
| OpInitializeSession (info : option ModelInfo) (created : string + session)
| OpMessage (m : message)
| OpAdapterError (msg : string)
| OpAdapterClose
| OpStartListening
| OpStopListening
| OpSendAudioData (data : string) (mimeType : option string) (fetched : option ModelInfo)
| OpIsActive
| OpCloseSession.

Definition step (o : op) (s : service) : service * list effect :=
  match o with
  | OpSetCallbacks cb => (setCallbacks cb s, [])
  | OpInitializeSession info created =>
      let '(s', out, _) := initializeSession info created s in (s', out)
  | OpMessage m => handleMessage s m
  | OpAdapterError msg => onAdapterError s msg
  | OpAdapterClose => onAdapterClose s
  | OpStartListening => let '(s', out, _) := startListening s in (s', out)
  | OpStopListening => let '(s', out, _) := stopListening s in (s', out)
  | OpSendAudioData d mt f => let '(s', out, _) := sendAudioData d mt f s in (s', out)
  | OpIsActive => (s, [])
  | OpCloseSession => let '(s', out, _) := closeSession s in (s', out)
  end.

(** A [Final] transcription event: [onTranscriptionComplete], or
    [onTranscriptionUpdate] with its final flag set. *)
Definition isFinalEvent (e : effect) : bool :=
  match e with
  | Emit (TranscriptionComplete _) => true
  | Emit (TranscriptionUpdate _ true) => true
  | _ => false
  end.

Definition raisesFinal (out : list effect) : bool := existsb isFinalEvent out.

Definition isDisconnected (e : effect) : bool :=
  match e with
  | Emit (StatusUpdate st) => String.eqb st "disconnected"
  | _ => false
  end.

Definition disconnectedCount (out : list effect) : nat :=
  List.length (filter isDisconnected out).

(** A message of the batch-transcript provider: only [text] is set. *)
Definition textMessage (t : string) : message :=
  mkMessage (Some t) None false false None None None None None None.

(** A service with an open session of the given provider and every callback
    registered. *)
Definition openService (p : string) : service :=
  mkService (Some (mkSession false false)) true ""
            (Some (mkModelInfo p "key" "model"))
            (mkCallbacks true true true true).

(** A sequence of operations on one service instance, with every effect in
    program order. *)
Fixpoint run (ops : list op) (s : service) : service * list effect :=
  match ops with
  | [] => (s, [])
  | o :: rest =>
      let '(s1, out1) := step o s in
      let '(s2, out2) := run rest s1 in
      (s2, out1 ++ out2)
  end.

(** One dictated utterance on the batch-transcript provider, up to the point
    where listening is switched off again. *)
Definition oneUtterance : list op :=
  [ OpSetCallbacks (mkCallbacks true true true true);
    OpInitializeSession (Some (mkModelInfo "whisper" "key" "model")) (inr (mkSession false false));
    OpStartListening;
    OpMessage (textMessage "hello");
    OpStopListening ].

End AskSttService.

(* ===================================================================== *)
(** * AskAudioCapture: voice level meter and VAD segmentation             *)
(* ===================================================================== *)

Module AskAudioCapture.

(** Samples and voice levels are JavaScript numbers: IEEE 754 binary64
    ([PrimFloat.float]). *)
Import PrimFloat.

(** [Math.max] and [Math.min] of two numbers: NaN when either is NaN, and
    [+0] above [-0]. *)
Definition mathMax (a b : float) : float :=
  if PrimFloat.is_nan a || PrimFloat.is_nan b then PrimFloat.nan
  else if (a <? b)%float then b
  else if (b <? a)%float then a
  else if PrimFloat.is_zero a && PrimFloat.get_sign a then b else a.

Definition mathMin (a b : float) : float :=
  if PrimFloat.is_nan a || PrimFloat.is_nan b then PrimFloat.nan
  else if (a <? b)%float then a
  else if (b <? a)%float then b
  else if PrimFloat.is_zero a && negb (PrimFloat.get_sign a) then b else a.

(** An array length as a number. *)
Definition numberOfLength {A : Type} (l : list A) : float :=
  PrimFloat.of_uint63 (Uint63.of_Z (Z.of_nat (List.length l))).

(** The constants set by the constructor. *)
Definition SAMPLE_RATE : Q := 24000.
Definition VOICE_LEVEL_HISTORY_SIZE : nat := 10.
Definition VOICE_LEVEL_SMOOTHING : float := 0.3%float.
Definition SILENCE_THRESHOLD_FRAMES : nat := 5.
Definition VOICE_THRESHOLD_FRAMES : nat := 2.
Definition MAX_SEGMENT_DURATION : Q := 30.
Definition MIN_SEGMENT_DURATION : Q := 1 # 2.
Definition VOICE_LEVEL_MIN : float := 0.005%float.
Definition VOICE_LEVEL_MAX : float := 0.1%float.

(** The fields of the instance that the level meter and the segmentation
    read and write. *)
Record capture : Type := mkCapture {
  isCapturing : bool;
  currentSegment : list float;
  isCurrentlyVoice : bool;
  silenceFrameCount : nat;
  voiceFrameCount : nat;
  currentVoiceLevel : float;
  smoothedVoiceLevel : float;
  voiceLevelHistory : list float
}.

(** The constructor. *)
Definition init : capture :=
  mkCapture false [] false 0 0 0%float 0%float [].

(** What leaves the instance: the voice activity shown in the ask view, and
    a segment handed to [sendVoiceSegmentToSTT]. *)
Inductive effect : Type :=
| UpdateVoiceActivityUI (hasVoice : bool) (voiceLevel : float)
| SendVoiceSegmentToSTT (segment : list float).

(** [for (...) sumOfSquares += audioData[i] * audioData[i]] *)
Definition sumOfSquares (audioData : list float) : float :=
  fold_left (fun acc x => (acc + x * x)%float) audioData 0%float.

Definition rms (audioData : list float) : float :=
  PrimFloat.sqrt (sumOfSquares audioData / numberOfLength audioData)%float.

Definition updateSmoothedVoiceLevel (s : capture) : capture :=
  let avgLevel :=
    match voiceLevelHistory s with
    | [] => 0%float
    | h => (fold_left (fun a b => (a + b)%float) h 0 / numberOfLength h)%float
    end in
  mkCapture (isCapturing s) (currentSegment s) (isCurrentlyVoice s)
            (silenceFrameCount s) (voiceFrameCount s) (currentVoiceLevel s)
            (smoothedVoiceLevel s * (1 - VOICE_LEVEL_SMOOTHING)
             + avgLevel * VOICE_LEVEL_SMOOTHING)%float
            (voiceLevelHistory s).

Definition withLevel (lvl : float) (history : list float) (s : capture) : capture :=
  mkCapture (isCapturing s) (currentSegment s) (isCurrentlyVoice s)
            (silenceFrameCount s) (voiceFrameCount s) lvl
            (smoothedVoiceLevel s) history.

(** [calculateVoiceLevel(audioData)]; an absent frame ([null] or
    [undefined]) is [None]. Returns the level and the updated instance. *)
Definition calculateVoiceLevel (audioData : option (list float)) (s : capture)
    : float * capture :=
  match audioData with
  | None | Some [] =>
      (0%float, updateSmoothedVoiceLevel (withLevel 0%float (voiceLevelHistory s) s))
  | Some data =>
      let lvl :=
        mathMin 1 (mathMax 0 ((rms data - VOICE_LEVEL_MIN)
                              / (VOICE_LEVEL_MAX - VOICE_LEVEL_MIN)))%float in
      let pushed := voiceLevelHistory s ++ [lvl] in
      let history :=
        if (VOICE_LEVEL_HISTORY_SIZE <? List.length pushed)%nat then tl pushed else pushed in
      let s' := updateSmoothedVoiceLevel (withLevel lvl history s) in
      (smoothedVoiceLevel s', s')
  end.

(** The RMS fallback of [processVAD]. *)
Definition isVoiceActive (audioData : option (list float)) (threshold : float) : bool :=
  match audioData with
  | None | Some [] => false
  | Some data => (threshold <? rms data)%float
  end.

(** [currentSegment.length / SAMPLE_RATE], in seconds. The quotient is kept
    exact: against the thresholds 30 and 0.5 at 24000 samples per second
    the rounded quotient compares the same way, the nearest lengths being
    a whole sample away from the boundary. *)
Definition segmentDuration (segment : list float) : Q :=
  inject_Z (Z.of_nat (List.length segment)) / SAMPLE_RATE.

Definition endVoiceSegment (s : capture) : capture * list effect :=
  if negb (isCurrentlyVoice s) then (s, [])
  else
    (mkCapture (isCapturing s) [] false 0 0
               (currentVoiceLevel s) (smoothedVoiceLevel s) (voiceLevelHistory s),
     if Qle_bool MIN_SEGMENT_DURATION (segmentDuration (currentSegment s))
     then [SendVoiceSegmentToSTT (currentSegment s)]
     else []).

Definition withSegmentation (seg : list float) (voice : bool) (silence voiceFrames : nat)
    (s : capture) : capture :=
  mkCapture (isCapturing s) seg voice silence voiceFrames
            (currentVoiceLevel s) (smoothedVoiceLevel s) (voiceLevelHistory s).

Definition handleVoiceSegment (audioChunk : list float) (hasVoice : bool)
    (voiceLevel : float) (s : capture) : capture * list effect :=
  let seg := currentSegment s ++ audioChunk in
  let ui := [UpdateVoiceActivityUI hasVoice voiceLevel] in
  let '(s1, out1) :=
    if hasVoice then
      let vfc := S (voiceFrameCount s) in
      (withSegmentation seg
         (if negb (isCurrentlyVoice s) && (VOICE_THRESHOLD_FRAMES <=? vfc)%nat
          then true else isCurrentlyVoice s)
         0 vfc s, [])
    else
      let sfc := S (silenceFrameCount s) in
      let s' := withSegmentation seg (isCurrentlyVoice s) sfc 0 s in
      if isCurrentlyVoice s && (SILENCE_THRESHOLD_FRAMES <=? sfc)%nat
      then endVoiceSegment s' else (s', []) in
  let '(s2, out2) :=
    if Qle_bool MAX_SEGMENT_DURATION (segmentDuration (currentSegment s1))
    then endVoiceSegment s1 else (s1, []) in
  (s2, ui ++ out1 ++ out2).

(** [cleanup()], as far as these fields go. *)
Definition cleanup (s : capture) : capture :=
  mkCapture (isCapturing s) [] false 0 0 0%float 0%float [].

Definition stopCapture (s : capture) : capture * list effect :=
  if negb (isCapturing s) then (s, [])
  else
    let '(s1, out1) := if isCurrentlyVoice s then endVoiceSegment s else (s, []) in
    let s2 := cleanup s1 in
    (mkCapture false (currentSegment s2) (isCurrentlyVoice s2) (silenceFrameCount s2)
               (voiceFrameCount s2) (currentVoiceLevel s2) (smoothedVoiceLevel s2)
               (voiceLevelHistory s2),
     out1 ++ [UpdateVoiceActivityUI false 0%float]).

(** One chunk as the capture callback hands it to the segmentation: the
    samples, the decision of the VAD and the level of the meter. *)
Record frame : Type := mkFrame {
  chunk : list float;
  hasVoice : bool;
  voiceLevel : float
}.

Definition handleFrame (f : frame) (s : capture) : capture * list effect :=
  handleVoiceSegment (chunk f) (hasVoice f) (voiceLevel f) s.

(** The states the engine goes through on a sequence of frames (the state
    after each frame), and everything it emits. *)
Fixpoint feed (frames : list frame) (s : capture) : list capture * list effect :=
  match frames with
  | [] => ([], [])
  | f :: rest =>
      let '(s1, out1) := handleFrame f s in
      let '(states, out2) := feed rest s1 in
      (s1 :: states, out1 ++ out2)
  end.

(** The state after the last frame. *)
Definition lastState (s : capture) (states : list capture) : capture :=
  List.last states s.

(** A capture session: frames, then [stopCapture]. *)
Definition session (frames : list frame) (s : capture) : list effect :=
  let '(states, out) := feed frames s in
  out ++ snd (stopCapture (lastState s states)).

(** The segments sent to STT among the effects. *)
Fixpoint sentSegments (out : list effect) : list (list float) :=
  match out with
  | [] => []
  | SendVoiceSegmentToSTT seg :: rest => seg :: sentSegments rest
  | _ :: rest => sentSegments rest
  end.

(** One chunk of 100 ms (2400 samples) of a constant signal. *)
Definition constantChunk (x : float) : list float := repeat x 2400.

Definition voiced (x : float) : frame := mkFrame (constantChunk x) true 1%float.
Definition silent : frame := mkFrame (constantChunk 0%float) false 0%float.

(** A capture that has just been started. *)
Definition started : capture := mkCapture true [] false 0 0 0%float 0%float [].

(** An engine in active speech whose buffer is one chunk short of the
    30 s cap (299 chunks). *)
Definition nearCap : capture :=
  mkCapture true (repeat 0.5%float (Z.to_nat 717600)) true 0 299 1%float 1%float [1%float].

(** Half a second of voice followed by half a second of silence. *)
Definition utterance : list frame := repeat (voiced 0.5%float) 5 ++ repeat silent 5.

End AskAudioCapture.

(* ===================================================================== *)
(** * PCM16 encoding and base64 transport                                 *)
(* ===================================================================== *)

Module Pcm16.
Local Open Scope Z_scope.

(** A sample is a [Float32Array] element. On such values every operation of
    [convertFloat32ToInt16] is exact in binary64 (a 24-bit significand times
    a 15- or 16-bit integer), so the samples are taken as exact rationals. *)
Definition Qltb (a b : Q) : bool := negb (Qle_bool b a).

(** [Math.max(-1, Math.min(1, x))] *)
Definition clamp (x : Q) : Q :=
  let m := if Qltb x 1 then x else 1%Q in
  if Qltb (-1) m then m else (-1)%Q.

(** Truncation towards zero, the first step of storing a number in an
    [Int16Array]. *)
Definition truncate (x : Q) : Z := Z.quot (Qnum x) (Zpos (Qden x)).

(** Wrap-around to 16 bits, two's complement. *)
Definition wrap16 (z : Z) : Z := (z + 32768) mod 65536 - 32768.

(** [int16Array[i] = v] *)
Definition toInt16 (v : Q) : Z := wrap16 (truncate v).

(** [s < 0 ? s * 0x8000 : s * 0x7fff] on the clamped sample. *)
Definition quantize (x : Q) : Z :=
  let s := clamp x in
  toInt16 (if Qltb s 0 then s * 32768 else s * 32767)%Q.

Definition convertFloat32ToInt16 (float32Array : list Q) : list Z :=
  map quantize float32Array.

(** [int16Array.buffer] seen through [new Uint8Array(buffer)]: two bytes per
    element, low byte first. *)
Definition bytesOfInt16 (z : Z) : list Z :=
  let u := z mod 65536 in [u mod 256; u / 256].

Definition bufferOf (int16Array : list Z) : list Z :=
  flat_map bytesOfInt16 int16Array.

(** [String.fromCharCode(b)] for a byte. *)
Definition fromCharCode (b : Z) : ascii := ascii_of_N (Z.to_N b).

(** [c.charCodeAt(0)] *)
Definition charCode (c : ascii) : Z := Z.of_N (N_of_ascii c).

Definition base64Alphabet : string :=
  "ABCDEFGHIJKLMNOPQRSTUVWXYZabcdefghijklmnopqrstuvwxyz0123456789+/".

Definition encodeSextet (n : Z) : ascii :=
  match String.get (Z.to_nat n) base64Alphabet with
  | Some c => c
  | None => "="%char
  end.

(** [btoa(binary)]: three bytes to four characters, padded with [=]. *)
Fixpoint btoa (binary : string) : string :=
  match binary with
  | EmptyString => EmptyString
  | String a EmptyString =>
      let a := charCode a in
      String (encodeSextet (a / 4))
        (String (encodeSextet ((a mod 4) * 16)) "==")
  | String a (String b EmptyString) =>
      let a := charCode a in
      let b := charCode b in
      String (encodeSextet (a / 4))
        (String (encodeSextet ((a mod 4) * 16 + b / 16))
           (String (encodeSextet ((b mod 16) * 4)) "="))
  | String a (String b (String c rest)) =>
      let a := charCode a in
      let b := charCode b in
      let c := charCode c in
      String (encodeSextet (a / 4))
        (String (encodeSextet ((a mod 4) * 16 + b / 16))
           (String (encodeSextet ((b mod 16) * 4 + c / 64))
              (String (encodeSextet (c mod 64)) (btoa rest))))
  end.

Fixpoint binaryOf (bytes : list Z) : string :=
  match bytes with
  | [] => EmptyString
  | b :: rest => String (fromCharCode b) (binaryOf rest)
  end.

(** [arrayBufferToBase64(buffer)] *)
Definition arrayBufferToBase64 (buffer : list Z) : string :=
  btoa (binaryOf buffer).

(** The transport payload of a sample sequence, as [sendVoiceSegmentToSTT]
    builds it. *)
Definition encode (samples : list Q) : string :=
  arrayBufferToBase64 (bufferOf (convertFloat32ToInt16 samples)).

Fixpoint indexOf (c : ascii) (s : string) (i : Z) : option Z :=
  match s with
  | EmptyString => None
  | String d r => if Ascii.eqb c d then Some i else indexOf c r (i + 1)
  end.

Definition decodeSextet (c : ascii) : option Z := indexOf c base64Alphabet 0.

(** Modelled from the spec: the decoder of the round trip is not part of
    the sources (the payload is decoded by the STT provider); [atob] is the
    inverse of [btoa] on padded base64 text. *)
Fixpoint atob (text : string) : option string :=
  match text with
  | EmptyString => Some EmptyString
  | String c0 (String c1 (String c2 (String c3 rest))) =>
      match decodeSextet c0, decodeSextet c1 with
      | Some s0, Some s1 =>
          let b0 := fromCharCode (s0 * 4 + s1 / 16) in
          if Ascii.eqb c2 "="%char then
            if Ascii.eqb c3 "="%char && String.eqb rest "" then Some (String b0 "")
            else None
          else
            match decodeSextet c2 with
            | Some s2 =>
                let b1 := fromCharCode ((s1 mod 16) * 16 + s2 / 4) in
                if Ascii.eqb c3 "="%char then
                  if String.eqb rest "" then Some (String b0 (String b1 ""))
                  else None
                else
                  match decodeSextet c3, atob rest with
                  | Some s3, Some tail =>
                      Some (String b0 (String b1
                              (String (fromCharCode ((s2 mod 4) * 64 + s3)) tail)))
                  | _, _ => None
                  end
            | None => None
            end
      | _, _ => None
      end
  | _ => None
  end.

(** Modelled from the spec: a decoded buffer read back as 16-bit signed
    little-endian integers ([new Int16Array(buffer)]). *)
Fixpoint int16sOfBinary (binary : string) : option (list Z) :=
  match binary with
  | EmptyString => Some []
  | String lo (String hi rest) =>
      match int16sOfBinary rest with
      | Some tail =>
          let u := charCode lo + 256 * charCode hi in
          Some ((if u <? 32768 then u else u - 65536) :: tail)
      | None => None
      end
  | _ => None
  end.

(** Modelled from the spec: an integer level back to a sample value, with
    the scale [convertFloat32ToInt16] used for its sign. *)
Definition dequantize (z : Z) : Q :=
  if z <? 0 then (inject_Z z / 32768)%Q else (inject_Z z / 32767)%Q.

(** Modelled from the spec: base64 text back to sample values. *)
Definition decode (text : string) : option (list Q) :=
  match atob text with
  | Some binary =>
      match int16sOfBinary binary with
      | Some ints => Some (map dequantize ints)
      | None => None
      end
  | None => None
  end.

(** One quantization step of the 16-bit scale. *)
Definition quantizationStep : Q := (1 # 32767)%Q.

Definition withinOneStep (original decoded : Q) : Prop :=
  (original - quantizationStep <= decoded /\ decoded <= original + quantizationStep)%Q.

End Pcm16.

(* ===================================================================== *)
(** * AskService: the conversational-turn orchestrator                    *)
(* ===================================================================== *)

Module AskService.
Import JsString.

(** A thrown value, as far as the service looks at it: [error.message]. *)
Record error : Type := mkError { message : option string }.

Record ModelInfo : Type := mkModelInfo {
  provider : string;
  apiKey : string;
  model : string
}.

Inductive contentPart : Type :=
| TextPart (text : string)
| ImageUrlPart (url : string).

Inductive content : Type :=
| Plain (text : string)
| Parts (parts : list contentPart).

Record chatMessage : Type := mkChatMessage {
  role : string;
  body : content
}.

(** What a stream reader delivers: its chunks in order, after which
    [read()] either reports the end of the stream or rejects. *)
Record reader : Type := mkReader {
  chunks : list string;
  failure : option error
}.

Record askState : Type := mkState {
  isVisible : bool;
  isLoading : bool;
  isStreaming : bool;
  currentQuestion : string;
  currentResponse : string;
  conversationalResponse : string;
  showTextInput : bool;
  isListening : bool;
  sttTranscription : string
}.

Record service : Type := mkService {
  abortController : bool;   (* an AbortController is installed *)
  state : askState
}.

(** The constructor. *)
Definition init : service :=
  mkService false (mkState false false false "" "" "" true false "").

(** What [sendMessage] resolves to. *)
Record result : Type := mkResult {
  success : bool;
  errorText : option string
}.

(** Calls on the collaborators, in program order. *)
Inductive effect : Type :=
| RequestVisibility (visible : bool)
| BroadcastState (s : askState)
| AbortPrevious (reason : string)
| AddAiMessage (messageRole messageContent : string)
| StreamChat (messages : list chatMessage)
| ConversationalStreamChat (messages : list chatMessage)
| ReaderCancel
| SendConversationalResponse (text originalResponse : string)
| SendStreamError (errorMessage : option string).

(** The collaborators of one turn: what each of them answers. *)
Record turnEnv : Type := mkEnv {
  sessionError : option error;        (* getOrCreateActive('ask') rejects *)
  saveUserError : option error;       (* addAiMessage of the user prompt rejects *)
  llmModel : option ModelInfo;        (* getCurrentModelInfo('llm') *)
  screenshot : option string;         (* success ? base64 : null *)
  streamChat : list chatMessage -> error + reader;
  conversationalStreamChat : list chatMessage -> error + reader;
  windowAtStream : bool;              (* ask window usable once the stream opens *)
  windowAtConversational : bool;      (* ... when the spoken response is ready *)
  windowAtFallback : bool;            (* ... once the retried stream opens *)
  windowAtError : bool;               (* ... in the outer catch *)
  windowAtStreamError : bool;         (* ... when a read rejects *)
  aborted : bool                      (* signal.aborted when a read rejects *)
}.

Definition fallbackConversationalResponse : string := "I'll help you with that.".

Definition _isMultimodalError (e : error) : bool :=
  let errorMessage :=
    match message e with
    | Some m => toLowerCase m
    | None => ""
    end in
  includes errorMessage "vision" ||
  includes errorMessage "image" ||
  includes errorMessage "multimodal" ||
  includes errorMessage "unsupported" ||
  includes errorMessage "image_url" ||
  includes errorMessage "400" ||
  includes errorMessage "invalid" ||
  includes errorMessage "not supported".

(** [conversationTexts.slice(-30).join('\n')] *)
Definition _formatConversationForPrompt (conversationTexts : list string) : string :=
  match conversationTexts with
  | [] => "No conversation history available."
  | _ => String.concat (String "010"%char "")
           (skipn (List.length conversationTexts - 30) conversationTexts)
  end.

(** [chunk.split('\n').filter(line => line.trim() !== '')] *)
Definition nonBlankLines (chunk : string) : list string :=
  filter (fun line => negb (String.eqb (trim line) "")) (splitLines chunk).

Definition imageUrl (base64 : string) : string :=
  ("data:image/jpeg;base64," ++ base64)%string.

Definition imagePart (screenshotBase64 : option string) : list contentPart :=
  match screenshotBase64 with
  | Some b => if truthy b then [ImageUrlPart (imageUrl b)] else []
  | None => []
  end.

Definition withStreaming (loading streaming : bool) (s : askState) : askState :=
  mkState (isVisible s) loading streaming (currentQuestion s) (currentResponse s)
          (conversationalResponse s) (showTextInput s) (isListening s) (sttTranscription s).

Definition withResponse (response : string) (s : askState) : askState :=
  mkState (isVisible s) (isLoading s) (isStreaming s) (currentQuestion s) response
          (conversationalResponse s) (showTextInput s) (isListening s) (sttTranscription s).

Definition withConversational (response : string) (s : askState) : askState :=
  mkState (isVisible s) (isLoading s) (isStreaming s) (currentQuestion s) (currentResponse s)
          response (showTextInput s) (isListening s) (sttTranscription s).

Section Orchestrator.

(** [JSON.parse(data).choices[0]?.delta?.content || ''], and [''] when the
    frame does not parse. *)
Variable parseToken : string -> string.

(** [getSystemPrompt('pickle_glass_analysis', conversationHistory, false)] *)
Variable getSystemPrompt : string -> string.

(** The spoken-style prompt, a text constant with the user's question
    spliced in. *)
Variable conversationalPrompt : string -> string.

Definition systemMessage (history : list string) : chatMessage :=
  mkChatMessage "system" (Plain (getSystemPrompt (_formatConversationForPrompt history))).

Definition userRequest (userPrompt : string) : string :=
  ("User Request: " ++ trim userPrompt)%string.

(** The message list of the first call: system and user, the user content
    carrying the screenshot when there is one. *)
Definition primaryMessages (userPrompt : string) (history : list string)
    (screenshotBase64 : option string) : list chatMessage :=
  [ systemMessage history;
    mkChatMessage "user" (Parts (TextPart (userRequest userPrompt) :: imagePart screenshotBase64)) ].

(** The message list of the retry. *)
Definition textOnlyMessages (userPrompt : string) (history : list string) : list chatMessage :=
  [ systemMessage history;
    mkChatMessage "user" (Plain (userRequest userPrompt)) ].

(** The lines of one chunk in [_processStream]; the [bool] tells that the
    [[DONE]] frame was met. Every token is appended to the response and
    published. *)
Fixpoint processLines (lines : list string) (fullResponse : string) (s : askState)
    : string * askState * list effect * bool :=
  match lines with
  | [] => (fullResponse, s, [], false)
  | line :: rest =>
      if startsWith line "data: " then
        let data := substringFrom 6 line in
        if String.eqb data "[DONE]" then (fullResponse, s, [], true)
        else
          let token := parseToken data in
          if truthy token then
            let full := (fullResponse ++ token)%string in
            let s' := withResponse full s in
            let '(f, s'', out, done) := processLines rest full s' in
            (f, s'', BroadcastState s' :: out, done)
          else processLines rest fullResponse s
      else processLines rest fullResponse s
  end.

Fixpoint readChunks (cs : list string) (fullResponse : string) (s : askState)
    : string * askState * list effect * bool :=
  match cs with
  | [] => (fullResponse, s, [], false)
  | c :: rest =>
      let '(f, s', out, done) := processLines (nonBlankLines c) fullResponse s in
      if done then (f, s', out, true)
      else
        let '(f', s'', out', done') := readChunks rest f s' in
        (f', s'', out ++ out', done')
  end.

Definition _processStream (env : turnEnv) (windowAlive : bool) (r : reader) (s : askState)
    : askState * list effect :=
  let s0 := withStreaming false true s in
  let '(full, s1, out, done) := readChunks (chunks r) "" s0 in
  let reported :=
    if done then []
    else match failure r with
         | Some e =>
             if aborted env then []
             else if windowAlive then [SendStreamError (message e)] else []
         | None => []
         end in
  let s2 := withResponse full (withStreaming (isLoading s1) false s1) in
  (s2,
   BroadcastState s0 :: out ++ reported ++ BroadcastState s2
   :: (if truthy full then [AddAiMessage "assistant" full] else [])).

(** The lines of one chunk in the parallel generation: [[DONE]] only leaves
    the loop over the lines of this chunk. *)
Fixpoint conversationalLines (lines : list string) (acc : string) : string :=
  match lines with
  | [] => acc
  | line :: rest =>
      if startsWith line "data: " then
        let data := substringFrom 6 line in
        if String.eqb data "[DONE]" then acc
        else
          let token := parseToken data in
          conversationalLines rest (if truthy token then (acc ++ token)%string else acc)
      else conversationalLines rest acc
  end.

Definition conversationalMessages (userPrompt : string) (screenshotBase64 : option string)
    : list chatMessage :=
  [ mkChatMessage "user"
      (Parts (TextPart (conversationalPrompt userPrompt) :: imagePart screenshotBase64)) ].

(** The [try] block of [_generateConversationalResponseInParallel]: the
    text it returns, or the error it throws. *)
Definition conversationalAttempt (env : turnEnv) (userPrompt : string)
    (screenshotBase64 : option string) : error + string :=
  match conversationalStreamChat env (conversationalMessages userPrompt screenshotBase64) with
  | inl e => inl e
  | inr r =>
      match failure r with
      | Some e => inl e
      | None =>
          inr (trim (fold_left (fun acc c => conversationalLines (nonBlankLines c) acc)
                               (chunks r) ""))
      end
  end.

(** The whole function, with its [catch]. *)
Definition _generateConversationalResponseInParallel (env : turnEnv) (userPrompt : string)
    (screenshotBase64 : option string) : string :=
  match conversationalAttempt env userPrompt screenshotBase64 with
  | inr response => response
  | inl _ => fallbackConversationalResponse
  end.

(** What [sendMessage] does with the settled spoken response. *)
Definition mergeConversational (windowAlive : bool) (conversational : string) (s : askState)
    : askState * list effect :=
  if truthy conversational then
    let s' := withConversational conversational s in
    (s', BroadcastState s'
         :: (if windowAlive
             then [SendConversationalResponse conversational (currentResponse s')]
             else []))
  else (s, []).

(** The inner [try] of [sendMessage] and its [catch]: the stream, and the
    retry without the image. [inr e] is an error thrown on to the outer
    [catch]. *)
Definition streamTurn (env : turnEnv) (userPrompt : string) (history : list string)
    (voiceMode : bool) (s : askState) : askState * list effect * (result + error) :=
  let messages := primaryMessages userPrompt history (screenshot env) in
  match streamChat env messages with
  | inr r =>
      if negb (windowAtStream env) then
        (s, [StreamChat messages; ReaderCancel],
         inl (mkResult false (Some "Ask window is not available.")))
      else
        let '(s1, out1) := _processStream env (windowAtStreamError env) r s in
        let '(s2, out2) :=
          if voiceMode then
            mergeConversational (windowAtConversational env)
              (_generateConversationalResponseInParallel env userPrompt (screenshot env)) s1
          else (s1, []) in
        (s2, StreamChat messages :: out1 ++ out2, inl (mkResult true None))
  | inl multimodalError =>
      if truthyOpt (screenshot env) && _isMultimodalError multimodalError then
        let retry := textOnlyMessages userPrompt history in
        match streamChat env retry with
        | inr r =>
            if negb (windowAtFallback env) then
              (s, [StreamChat messages; StreamChat retry; ReaderCancel],
               inl (mkResult false (Some "Ask window is not available.")))
            else
              let '(s1, out1) := _processStream env (windowAtStreamError env) r s in
              (s1, StreamChat messages :: StreamChat retry :: out1,
               inl (mkResult true None))
        | inl e => (s, [StreamChat messages; StreamChat retry], inr e)
        end
      else (s, [StreamChat messages], inr multimodalError)
  end.

Definition notConfigured : error := mkError (Some "AI model or API key not configured.").

(** The outer [try]: persistence of the prompt, model lookup, screenshot,
    start of the parallel generation, then the stream. *)
Definition turnBody (env : turnEnv) (userPrompt : string) (history : list string)
    (voiceMode : bool) (s : askState) : askState * list effect * (result + error) :=
  match sessionError env with
  | Some e => (s, [], inr e)
  | None =>
      let saved := [AddAiMessage "user" (trim userPrompt)] in
      match saveUserError env with
      | Some e => (s, saved, inr e)
      | None =>
          match llmModel env with
          | None => (s, saved, inr notConfigured)
          | Some mi =>
              if negb (truthy (apiKey mi)) then (s, saved, inr notConfigured)
              else
                let parallel :=
                  if voiceMode
                  then [ConversationalStreamChat
                          (conversationalMessages userPrompt (screenshot env))]
                  else [] in
                let '(s', out, r) := streamTurn env userPrompt history voiceMode s in
                (s', saved ++ parallel ++ out, r)
          end
      end
  end.

Definition sendMessage (env : turnEnv) (userPrompt : string) (history : list string)
    (sv : service) : service * list effect * result :=
  let s0 :=
    mkState (isVisible (state sv)) true false userPrompt ""
            (conversationalResponse (state sv)) false
            (isListening (state sv)) (sttTranscription (state sv)) in
  let opening :=
    RequestVisibility true :: BroadcastState s0
    :: (if abortController sv then [AbortPrevious "New request received."] else []) in
  let voiceMode := isListening s0 || truthy (sttTranscription s0) in
  let '(s1, out, r) := turnBody env userPrompt history voiceMode s0 in
  match r with
  | inl res => (mkService true s1, opening ++ out, res)
  | inr e =>
      let s2 :=
        mkState (isVisible s1) false false (currentQuestion s1) (currentResponse s1)
                (conversationalResponse s1) true (isListening s1) (sttTranscription s1) in
      (mkService true s2,
       opening ++ out ++ BroadcastState s2
       :: (if windowAtError env
           then [SendStreamError
                   (Some (match message e with
                          | Some m => if truthy m then m else "Unknown error occurred"
                          | None => "Unknown error occurred"
                          end))]
           else []),
       mkResult false (message e))
  end.

End Orchestrator.

(** The calls of the primary stream among the effects. *)
Fixpoint streamChatCalls (out : list effect) : list (list chatMessage) :=
  match out with
  | [] => []
  | StreamChat ms :: rest => ms :: streamChatCalls rest
  | _ :: rest => streamChatCalls rest
  end.

Definition isImagePart (p : contentPart) : bool :=
  match p with ImageUrlPart _ => true | TextPart _ => false end.

(** Whether a message list carries an image. *)
Definition hasImage (messages : list chatMessage) : bool :=
  existsb (fun m => match body m with
                    | Parts ps => existsb isImagePart ps
                    | Plain _ => false
                    end) messages.

(** The system prompt of a message list. *)
Definition systemPromptOf (messages : list chatMessage) : option content :=
  match messages with
  | m :: _ => if String.eqb (role m) "system" then Some (body m) else None
  | [] => None
  end.


(** A provider that rejects image input and streams a short answer
    otherwise, with a spoken-style stream that fails. *)
Definition textOnlyProvider : turnEnv :=
  mkEnv None None (Some (mkModelInfo "openai" "key" "gpt")) (Some "aGVsbG8=")
        (fun ms => if hasImage ms
                   then inl (mkError (Some "This model does not support image input"))
                   else inr (mkReader ["data: Hello"; "data: there"; "data: [DONE]"] None))
        (fun _ => inl (mkError (Some "socket hang up")))
        true true true true true false.

(** A provider that accepts the image. *)
Definition visionProvider : turnEnv :=
  mkEnv None None (Some (mkModelInfo "openai" "key" "gpt")) (Some "aGVsbG8=")
        (fun _ => inr (mkReader ["data: Hello"; "data: there"; "data: [DONE]"] None))
        (fun _ => inl (mkError (Some "socket hang up")))
        true true true true true false.

(** A service in voice mode. *)
Definition listening : service :=
  mkService false (mkState true false false "" "" "" true true "").

(** A turn reaches the stream call when the prompt is persisted and a model
    with a key is configured. *)
Definition reachesStream (env : turnEnv) : bool :=
  match sessionError env, saveUserError env, llmModel env with
  | None, None, Some mi => truthy (apiKey mi)
  | _, _, _ => false
  end.

End AskService.

(* ===================================================================== *)
(** * Predicates on the states of the services                            *)
(* ===================================================================== *)

Module SttStates.
Import JsString AskSttService.

(** Every callback registered, as [AskService] does. *)
Definition registered : callbacks := mkCallbacks true true true true.

(** The accumulated text is kept: the accumulator afterwards is the one
    before, possibly followed by more. *)
Definition keeps (before after : service) : bool :=
  String.prefix (currentTranscription before) (currentTranscription after).

(** A message on which the normalizer raises a Final event, as a listener
    with every callback registered sees it. *)
Definition isFinal (s : service) (m : message) : bool :=
  raisesFinal (snd (handleMessage (setCallbacks registered s) m)).

(** What a provider arm does to the accumulated text: it keeps it (the new
    value starts with the old one), or it replaces it and raises a Final
    event to the registered callbacks. *)
Definition keepsOrFinal (f : service -> message -> arm) (s : service) (m : message) : Prop :=
  keeps s (fst (fst (f s m))) = true \/
  (raisesFinal (snd (fst (f (setCallbacks registered s) m))) = true /\
   (onTranscriptionComplete (cbs s) = true -> raisesFinal (snd (fst (f s m))) = true)).

(** A provider arm only ever touches the accumulator. *)
Definition sameSession (s s' : service) : Prop :=
  sttSession s' = sttSession s /\ isListening s' = isListening s /\
  modelInfo s' = modelInfo s /\ cbs s' = cbs s.

(** The provider arm [handleMessage] dispatches to. *)
Definition armOf (info : ModelInfo) (s : service) (m : message) : arm :=
  if String.eqb (provider info) "whisper" then whisperArm s m
  else if String.eqb (provider info) "deepgram" then deepgramArm s m
  else if String.eqb (provider info) "gemini" then geminiArm s m
  else otherArm s m.

(** A turn-based provider message carrying one transcription chunk, and the
    one that signals the end of the turn. *)
Definition geminiChunk (c : string) : message :=
  mkMessage None None false false (Some c) None None None None None.

Definition geminiTurnComplete : message :=
  mkMessage None None false true None None None None None None.

(** The chunks the turn-based arm appends: non-blank and not the no-speech
    token. *)
Definition appendedChunk (c : string) : bool :=
  truthy c && truthy (trim c) && negb (String.eqb (trim c) "<noise>").

(** The [message.error] check after the arm, reached when the arm did not
    return. *)
Definition errorPart (s' : service) (fallsThrough : bool) (m : message) : list effect :=
  if fallsThrough then
    match error m with
    | Some e => if truthy e then emitIf (onError (cbs s')) (Error e) else []
    | None => []
    end
  else [].

(** What a provider arm emits: at most a transcription update followed by
    at most a completion; a completion carries a non-empty text, which is
    then the accumulator, and the update before it is the final one for the
    same text. *)
Definition armShape (a : arm) : Prop :=
  exists bu u f bc c,
    snd (fst a) = emitIf bu (TranscriptionUpdate u f) ++ emitIf bc (TranscriptionComplete c) /\
    (bc = true ->
       truthy c = true /\ currentTranscription (fst (fst a)) = c /\
       (bu = true -> u = c /\ f = true)).

End SttStates.

(* ===================================================================== *)
(** * AskSttService between its awaits                                    *)
(* ===================================================================== *)

(** [initializeSession] and [closeSession] each write fields on both sides
    of an [await]: the model information before [await createSTT(...)] and
    the session after it; nothing before [await this.sttSession.close()]
    and every field after it. While a call waits, any other entry point or
    adapter callback may run. The segments below are the pieces that run to
    completion, and [across] schedules them one by one. *)
Module AskSttServiceAwaits.
Import JsString AskSttService.

(** [initializeSession] from the resolution of [getCurrentModelInfo('stt')]
    to [await createSTT(...)]; the [bool] tells whether the call goes on to
    wait for the adapter ([false]: the [catch] ran and the call returned
    [false]). *)
Definition initializeSession_resolved (info : option ModelInfo) (s : service)
    : service * list effect * bool :=
  match info with
  | Some mi =>
      if truthy (apiKey mi) then
        (mkService (sttSession s) (isListening s) (currentTranscription s) (Some mi) (cbs s),
         [], true)
      else (s, emitIf (onError (cbs s)) (Error "STT model or API key is not configured."), false)
  | None => (s, emitIf (onError (cbs s)) (Error "STT model or API key is not configured."), false)
  end.

(** [initializeSession] from the settling of [createSTT] to its [return];
    the [bool] is the return value. *)
Definition initializeSession_created (created : string + session) (s : service)
    : service * list effect * bool :=
  match created with
  | inr sess =>
      (mkService (Some sess) (isListening s) (currentTranscription s) (modelInfo s) (cbs s),
       emitIf (onStatusUpdate (cbs s)) (StatusUpdate "ready"), true)
  | inl msg => (s, emitIf (onError (cbs s)) (Error msg), false)
  end.

(** [closeSession] after [close()] has settled (a rejection is only
    logged), and the whole of it when there is no session to close. *)
Definition closeSession_settled (s : service) : service * list effect :=
  (mkService None false "" None (cbs s),
   emitIf (onStatusUpdate (cbs s)) (StatusUpdate "disconnected")).

(** [closeSession] up to [await this.sttSession.close()]; the [bool] tells
    whether the call waits there. *)
Definition closeSession_called (s : service) : service * list effect * bool :=
  match sttSession s with
  | Some _ => (s, [SessionClose], true)
  | None => let '(s', out) := closeSession_settled s in (s', out, false)
  end.

(** What the event loop runs next. [Whole] is an entry point or callback
    run without anything in between: every one of them apart from
    [initializeSession] and [closeSession] writes no field after an
    [await] ([sendAudioData] writes none at all). *)
Inductive segment : Type :=
| Whole (o : op)
| ModelInfoResolved (info : option ModelInfo)
| SttCreated (created : string + session)
| CloseCalled
| CloseSettled.

(** The service with the calls that wait: [initializing] calls of
    [initializeSession] at [await createSTT(...)], [closing] calls of
    [closeSession] at [await close()]. *)
Record waiting : Type := mkWaiting {
  svc : service;
  initializing : nat;
  closing : nat
}.

Definition start : waiting := mkWaiting init 0 0.

(** One segment. A continuation with no call waiting for it does not
    run. *)
Definition resume (g : segment) (w : waiting) : waiting :=
  match g with
  | Whole o => mkWaiting (fst (step o (svc w))) (initializing w) (closing w)
  | ModelInfoResolved info =>
      let '(s', _, waits) := initializeSession_resolved info (svc w) in
      mkWaiting s' (if waits then S (initializing w) else initializing w) (closing w)
  | SttCreated created =>
      match initializing w with
      | O => w
      | S n => mkWaiting (fst (fst (initializeSession_created created (svc w)))) n (closing w)
      end
  | CloseCalled =>
      let '(s', _, waits) := closeSession_called (svc w) in
      mkWaiting s' (initializing w) (if waits then S (closing w) else closing w)
  | CloseSettled =>
      match closing w with
      | O => w
      | S n => mkWaiting (fst (closeSession_settled (svc w))) (initializing w) n
      end
  end.

Fixpoint across (gs : list segment) (w : waiting) : waiting :=
  match gs with
  | [] => w
  | g :: rest => across rest (resume g w)
  end.

(** The segment completes a [closeSession]: it resets the fields. *)
Definition completesClose (g : segment) (w : waiting) : bool :=
  match g with
  | Whole OpCloseSession => true
  | CloseCalled => match sttSession (svc w) with Some _ => false | None => true end
  | CloseSettled => negb (closing w =? 0)%nat
  | _ => false
  end.

(** No [closeSession] completes while an [initializeSession] waits for the
    adapter. *)
Fixpoint closesOutsideInitialization (gs : list segment) (w : waiting) : bool :=
  match gs with
  | [] => true
  | g :: rest =>
      (negb (completesClose g w) || (initializing w =? 0)%nat)
      && closesOutsideInitialization rest (resume g w)
  end.

(** The service listens only while it holds a session. *)
Definition listensWithSession (s : service) : Prop :=
  isListening s = true -> sttSession s <> None.

(** The model information is there whenever a session is held or awaited. *)
Definition knowsModel (w : waiting) : Prop :=
  (0 < initializing w)%nat \/ sttSession (svc w) <> None -> modelInfo (svc w) <> None.

(** A [closeSession] that runs while [initializeSession] waits for the
    adapter, followed by [startListening]. *)
Definition closedWhileInitializing : list segment :=
  [ Whole (OpSetCallbacks (mkCallbacks true true true true));
    ModelInfoResolved (Some (mkModelInfo "whisper" "key" "model"));
    CloseCalled;
    SttCreated (inr (mkSession false false));
    Whole OpStartListening ].

End AskSttServiceAwaits.


(* ===================================================================== *)
(** * Runs of the capture: samples fed, levels observed                   *)
(* ===================================================================== *)

Module AskAudioCaptureRuns.
Import PrimFloat AskAudioCapture.

(** All the samples of a sequence of frames, in order. *)
Definition samplesOf (frames : list frame) : list float :=
  List.concat (map chunk frames).

(** What every state after a frame satisfies, whatever the state before. *)
Definition settled (st : capture) : Prop :=
  (isCurrentlyVoice st = true ->
   ~ (MAX_SEGMENT_DURATION <= segmentDuration (currentSegment st))%Q) /\
  (voiceFrameCount st = 0%nat \/ silenceFrameCount st = 0%nat) /\
  (isCurrentlyVoice st = false -> (voiceFrameCount st < VOICE_THRESHOLD_FRAMES)%nat).

(** The level [calculateVoiceLevel] gives a non-empty frame before
    smoothing. *)
Definition frameLevel (data : list float) : float :=
  mathMin 1 (mathMax 0 ((rms data - VOICE_LEVEL_MIN)
                        / (VOICE_LEVEL_MAX - VOICE_LEVEL_MIN)))%float.

(** The meter over a sequence of frames. *)
Fixpoint observeAll (frames : list (option (list float))) (s : capture) : capture :=
  match frames with
  | [] => s
  | f :: rest => observeAll rest (snd (calculateVoiceLevel f s))
  end.

(** The frames that carry samples. *)
Fixpoint nonEmptyFrames (frames : list (option (list float))) : list (list float) :=
  match frames with
  | [] => []
  | Some (x :: data) :: rest => (x :: data) :: nonEmptyFrames rest
  | _ :: rest => nonEmptyFrames rest
  end.

(** The last [n] elements of a list. *)
Definition lastN {A : Type} (n : nat) (l : list A) : list A :=
  skipn (List.length l - n) l.

(** An engine in active speech after two voiced chunks. *)
Definition speaking : capture :=
  lastState started (fst (feed [voiced 0.5%float; voiced 0.5%float] started)).

End AskAudioCaptureRuns.

(* ===================================================================== *)
(** * Predicates on the levels of the meter                               *)
(* ===================================================================== *)

Module VoiceLevels.
Import PrimFloat AskAudioCapture.

(** A level of the unit range, or NaN ([Math.min] and [Math.max] return NaN
    when given one). *)
Definition unitOrNaN (x : float) : bool :=
  PrimFloat.is_nan x || ((0 <=? x)%float && (x <=? 1)%float).

(** A number that is not NaN and not below zero ([-0] and [Infinity]
    included). *)
Definition nonNegative (x : float) : bool := (0 <=? x)%float.

(** A frame whose samples are all numbers other than NaN. Typed arrays hold
    fewer than 2^53 elements; an absent frame has no sample. *)
Definition numeric (audioData : option (list float)) : Prop :=
  match audioData with
  | None => True
  | Some data =>
      Forall (fun v => PrimFloat.is_nan v = false) data /\
      (Z.of_nat (List.length data) < 2 ^ 53)%Z
  end.

(** A meter that holds no NaN: the smoothed level and the levels of the
    history are numbers not below zero, and the history is within its size.
    The constructor's state is one. *)
Definition holdsNumbers (s : capture) : Prop :=
  nonNegative (smoothedVoiceLevel s) = true /\
  Forall (fun x => nonNegative x = true) (voiceLevelHistory s) /\
  (List.length (voiceLevelHistory s) <= VOICE_LEVEL_HISTORY_SIZE)%nat.

(** The same on the binary64 values behind the numbers: a zero of either
    sign, a positive finite value or [+Infinity]. *)
Definition nonneg (f : SpecFloat.spec_float) : Prop :=
  match f with
  | SpecFloat.S754_zero _ => True
  | SpecFloat.S754_infinity s | SpecFloat.S754_finite s _ _ => s = false
  | SpecFloat.S754_nan => False
  end.

Definition positiveFinite (f : SpecFloat.spec_float) : Prop :=
  match f with SpecFloat.S754_finite false _ _ => True | _ => False end.

Definition finiteValue (f : SpecFloat.spec_float) : Prop :=
  match f with SpecFloat.S754_finite _ _ _ => True | _ => False end.

End VoiceLevels.


(* ===================================================================== *)
(** * AskAudioCapture: the capture callback                               *)
(* ===================================================================== *)

Module AskAudioCaptureLoop.
Import PrimFloat AskAudioCapture.

Definition AUDIO_CHUNK_DURATION : float := 0.1%float.

Section Recorder.

(** The Speex preprocessor is a collaborator: its state, and the decision
    of [processVAD] on one chunk together with the state it leaves. When
    the VAD is not initialized [processVAD] is the RMS test, a decision of
    the chunk alone. *)
Variable vadState : Type.
Variable processVAD : vadState -> list float -> vadState * bool.

(** The constant [samplesPerChunk] that the callback closes over. *)
Variable samplesPerChunk : nat.

Record recorder : Type := mkRecorder {
  audioBuffer : list float;
  vad : vadState;
  engine : capture
}.

Definition withBuffer (buffer : list float) (r : recorder) : recorder :=
  mkRecorder buffer (vad r) (engine r).

(** The body of the loop on one chunk. *)
Definition processChunk (chunk : list float) (r : recorder) : recorder * list effect :=
  let '(voiceLevel, e1) := calculateVoiceLevel (Some chunk) (engine r) in
  let '(v1, hasVoice) := processVAD (vad r) chunk in
  let '(e2, out) := handleVoiceSegment chunk hasVoice voiceLevel e1 in
  (mkRecorder (audioBuffer r) v1 e2, out).

(** [while (this.audioBuffer.length >= samplesPerChunk)] with
    [splice(0, samplesPerChunk)]; [fuel] bounds the number of iterations. *)
Fixpoint drain (fuel : nat) (r : recorder) : recorder * list effect :=
  match fuel with
  | O => (r, [])
  | S fuel' =>
      if (samplesPerChunk <=? List.length (audioBuffer r))%nat then
        let chunk := firstn samplesPerChunk (audioBuffer r) in
        let '(r1, out1) :=
          processChunk chunk (withBuffer (skipn samplesPerChunk (audioBuffer r)) r) in
        let '(r2, out2) := drain fuel' r1 in
        (r2, out1 ++ out2)
      else (r, [])
  end.

(** The [onaudioprocess] callback. Every iteration removes
    [samplesPerChunk] samples, so with a positive chunk size the length of
    the buffer is fuel enough: the loop is proved to stop with less than a
    chunk left. *)
Definition onaudioprocess (inputData : list float) (r : recorder) : recorder * list effect :=
  let r0 := withBuffer (audioBuffer r ++ inputData) r in
  drain (List.length (audioBuffer r0)) r0.

(** A sequence of callbacks. *)
Fixpoint deliver (inputs : list (list float)) (r : recorder) : recorder * list effect :=
  match inputs with
  | [] => (r, [])
  | inputData :: rest =>
      let '(r1, out1) := onaudioprocess inputData r in
      let '(r2, out2) := deliver rest r1 in
      (r2, out1 ++ out2)
  end.

End Recorder.

Arguments audioBuffer {vadState} _.
Arguments vad {vadState} _.
Arguments engine {vadState} _.
Arguments mkRecorder {vadState} _ _ _.
Arguments withBuffer {vadState} _ _.

(** [startCapture] installs the callback with
    [samplesPerChunk = this.SAMPLE_RATE * this.AUDIO_CHUNK_DURATION]: the
    product [24000 * 0.1] is the number 2400 in binary64 (see
    [chunk_size_is_the_product]). *)
Definition installedChunkSize : nat := 2400.

(** The updates of the voice indicator among the effects: one per chunk. *)
Definition uiUpdates (out : list effect) : nat :=
  List.length (filter (fun e => match e with
                                | UpdateVoiceActivityUI _ _ => true
                                | SendVoiceSegmentToSTT _ => false
                                end) out).

(** A VAD that decides by the RMS fallback and keeps no state. *)
Definition rmsVad (st : unit) (chunk : list float) : unit * bool :=
  (st, isVoiceActive (Some chunk) 0.01%float).

End AskAudioCaptureLoop.


(* ===================================================================== *)
(** * What a turn leaves behind                                           *)
(* ===================================================================== *)

Module AskTurns.
Import JsString AskService.

(** The contents handed to [addAiMessage] under one role, in order. *)
Fixpoint savedMessages (forRole : string) (out : list effect) : list string :=
  match out with
  | [] => []
  | AddAiMessage r c :: rest =>
      if String.eqb r forRole then c :: savedMessages forRole rest
      else savedMessages forRole rest
  | _ :: rest => savedMessages forRole rest
  end.

(** The calls of the spoken-style stream. *)
Fixpoint conversationalCalls (out : list effect) : list (list chatMessage) :=
  match out with
  | [] => []
  | ConversationalStreamChat ms :: rest => ms :: conversationalCalls rest
  | _ :: rest => conversationalCalls rest
  end.

(** The spoken responses handed to the ask window. *)
Fixpoint spokenResponses (out : list effect) : list (string * string) :=
  match out with
  | [] => []
  | SendConversationalResponse t o :: rest => (t, o) :: spokenResponses rest
  | _ :: rest => spokenResponses rest
  end.

(** The stream errors reported to the ask window. *)
Fixpoint streamErrors (out : list effect) : list (option string) :=
  match out with
  | [] => []
  | SendStreamError e :: rest => e :: streamErrors rest
  | _ :: rest => streamErrors rest
  end.

(** Effects that only publish the state. *)
Definition broadcasts (out : list effect) : Prop :=
  Forall (fun e => exists s, e = BroadcastState s) out.

(** [isVoiceMode] of [sendMessage]. *)
Definition voiceMode (s : askState) : bool :=
  isListening s || truthy (sttTranscription s).

(** A line that ends the stream: [data: [DONE]]. *)
Definition isDoneLine (line : string) : bool :=
  startsWith line "data: " && String.eqb (substringFrom 6 line) "[DONE]".

(** A chunk one of whose lines ends the stream. *)
Definition announcesEnd (chunk : string) : bool :=
  existsb isDoneLine (nonBlankLines chunk).

(** The same collaborators with the readers of the primary stream
    replaced. *)
Definition withReaders (f : reader -> reader) (env : turnEnv) : turnEnv :=
  mkEnv (sessionError env) (saveUserError env) (llmModel env) (screenshot env)
        (fun ms => match streamChat env ms with
                   | inl e => inl e
                   | inr r => inr (f r)
                   end)
        (conversationalStreamChat env) (windowAtStream env) (windowAtConversational env)
        (windowAtFallback env) (windowAtError env) (windowAtStreamError env) (aborted env).

(** A reader whose stream ends where the reads of [r] stop. *)
Definition endingNormally (r : reader) : reader := mkReader (chunks r) None.

(** A provider whose stream breaks after the first token, on a turn that
    was cancelled. *)
Definition cancelledProvider : turnEnv :=
  mkEnv None None (Some (mkModelInfo "openai" "key" "gpt")) None
        (fun _ => inr (mkReader ["data: Hel"] (Some (mkError (Some "aborted")))))
        (fun _ => inl (mkError (Some "socket hang up")))
        true true true true true true.

(** A provider whose stream opens and then breaks on a read, with an
    error text that names the image input; the turn is not cancelled. *)
Definition brokenStreamProvider : turnEnv :=
  mkEnv None None (Some (mkModelInfo "openai" "key" "gpt")) (Some "aGVsbG8=")
        (fun _ => inr (mkReader ["data: Hel"]
                         (Some (mkError (Some "image input unsupported")))))
        (fun _ => inl (mkError (Some "socket hang up")))
        true true true true true false.

(** A provider that rejects every call as a bad request, without a status
    code in the text. *)
Definition badRequestProvider : turnEnv :=
  mkEnv None None (Some (mkModelInfo "openai" "key" "gpt")) (Some "aGVsbG8=")
        (fun _ => inl (mkError (Some "Bad Request")))
        (fun _ => inl (mkError (Some "socket hang up")))
        true true true true true false.

(** No model is configured. *)
Definition unconfigured : turnEnv :=
  mkEnv None None None (Some "aGVsbG8=")
        (fun _ => inr (mkReader ["data: Hello"; "data: [DONE]"] None))
        (fun _ => inr (mkReader ["data: Hi"; "data: [DONE]"] None))
        true true true true true false.

End AskTurns.


(* ===================================================================== *)
(** * AskService: voice input                                             *)
(* ===================================================================== *)

Module AskVoice.
Import JsString.

(** The service with the STT service it owns. *)
Record voice : Type := mkVoice {
  ask : AskService.service;
  sttService : AskSttService.service
}.

(** [setupSttCallbacks] registers all four callbacks. *)
Definition registered : AskSttService.callbacks :=
  AskSttService.mkCallbacks true true true true.

(** The constructor. *)
Definition init : voice :=
  mkVoice AskService.init (AskSttService.setCallbacks registered AskSttService.init).

(** What the callbacks send to the ask window. *)
Inductive windowMessage : Type :=
| SttUpdate (text : string) (isFinal isListening : bool)   (* ask:sttUpdate *)
| SttComplete (text : string)                              (* ask:sttComplete *)
| SttStatus (status : string)                              (* ask:sttStatus *)
| SttError (error : string).                               (* ask:sttError *)

(** What the [onError] callback is given: an [Error] object, the one
    caught by [initializeSession] or the one of the adapter's error event,
    with its [message]; or the [error] field of a provider message, a
    string, which has no [message] property. *)
Inductive errorValue : Type :=
| ErrorObject (message : string)
| ErrorField (value : string).

(** Calls on the collaborators, in program order. *)
Inductive effect : Type :=
| Ask (e : AskService.effect)
| Adapter (e : AskSttService.effect)
| ToAskWindow (m : windowMessage).

Definition withListening (listening : bool) (a : AskService.service) : AskService.service :=
  let s := AskService.state a in
  AskService.mkService (AskService.abortController a)
    (AskService.mkState (AskService.isVisible s) (AskService.isLoading s)
       (AskService.isStreaming s) (AskService.currentQuestion s)
       (AskService.currentResponse s) (AskService.conversationalResponse s)
       (AskService.showTextInput s) listening (AskService.sttTranscription s)).

Definition withSttTranscription (t : string) (a : AskService.service) : AskService.service :=
  let s := AskService.state a in
  AskService.mkService (AskService.abortController a)
    (AskService.mkState (AskService.isVisible s) (AskService.isLoading s)
       (AskService.isStreaming s) (AskService.currentQuestion s)
       (AskService.currentResponse s) (AskService.conversationalResponse s)
       (AskService.showTextInput s) (AskService.isListening s) t).

Definition broadcast (a : AskService.service) : effect :=
  Ask (AskService.BroadcastState (AskService.state a)).

(** [if (askWindow && !askWindow.isDestroyed()) askWindow.webContents.send(...)] *)
Definition toWindow (askWindow : bool) (m : windowMessage) : list effect :=
  if askWindow then [ToAskWindow m] else [].

(** [sendMessage] up to its first [await]: what a call that is not awaited
    does before it returns to its caller. *)
Definition beginTurn (userPrompt : string) (a : AskService.service)
    : AskService.service * list AskService.effect :=
  let s := AskService.state a in
  let s0 :=
    AskService.mkState (AskService.isVisible s) true false userPrompt ""
      (AskService.conversationalResponse s) false
      (AskService.isListening s) (AskService.sttTranscription s) in
  (AskService.mkService true s0,
   AskService.RequestVisibility true :: AskService.BroadcastState s0
   :: (if AskService.abortController a
       then [AskService.AbortPrevious "New request received."] else [])).

Section Continuation.

Variable parseToken : string -> string.
Variable getSystemPrompt : string -> string.
Variable conversationalPrompt : string -> string.

(** The rest of [sendMessage], from its first [await] on: [begun] is what
    [beginTurn] returned. The voice mode is the one the beginning of the
    turn computed. *)
Definition continueTurn (env : AskService.turnEnv) (userPrompt : string)
    (history : list string) (begun : AskService.service * list AskService.effect)
    : AskService.service * list AskService.effect * AskService.result :=
  let s0 := AskService.state (fst begun) in
  let '(s1, out, r) :=
    AskService.turnBody parseToken getSystemPrompt conversationalPrompt
      env userPrompt history (AskTurns.voiceMode s0) s0 in
  match r with
  | inl res => (AskService.mkService true s1, snd begun ++ out, res)
  | inr e =>
      let s2 :=
        AskService.mkState (AskService.isVisible s1) false false
          (AskService.currentQuestion s1) (AskService.currentResponse s1)
          (AskService.conversationalResponse s1) true
          (AskService.isListening s1) (AskService.sttTranscription s1) in
      (AskService.mkService true s2,
       snd begun ++ out ++ AskService.BroadcastState s2
       :: (if AskService.windowAtError env
           then [AskService.SendStreamError
                   (Some (match AskService.message e with
                          | Some m => if truthy m then m else "Unknown error occurred"
                          | None => "Unknown error occurred"
                          end))]
           else []),
       AskService.mkResult false (AskService.message e))
  end.

End Continuation.

(** The four callbacks of [setupSttCallbacks]; [askWindow] tells whether
    the ask window is there. *)
Definition onTranscriptionUpdate (askWindow : bool) (text : string) (isFinal : bool)
    (a : AskService.service) : AskService.service * list effect :=
  let a1 := withSttTranscription text a in
  (a1, broadcast a1
       :: toWindow askWindow
            (SttUpdate text isFinal (AskService.isListening (AskService.state a1)))).

Definition onTranscriptionComplete (askWindow : bool) (text : string)
    (a : AskService.service) : AskService.service * list effect :=
  let a1 := withListening false (withSttTranscription text a) in
  let '(a2, begun) :=
    if truthy (trim text) then beginTurn (trim text) a1 else (a1, []) in
  (a2, broadcast a1 :: map Ask begun ++ toWindow askWindow (SttComplete text)).

Definition onStatusUpdate (askWindow : bool) (status : string)
    (a : AskService.service) : AskService.service * list effect :=
  (a, toWindow askWindow (SttStatus status)).

(** [error.message || 'Speech recognition error'] *)
Definition errorText (error : errorValue) : string :=
  match error with
  | ErrorObject message => if truthy message then message else "Speech recognition error"
  | ErrorField _ => "Speech recognition error"
  end.

Definition onError (askWindow : bool) (error : errorValue)
    (a : AskService.service) : AskService.service * list effect :=
  let a1 := withListening false a in
  (a1, broadcast a1 :: toWindow askWindow (SttError (errorText error))).

(** What one effect of the STT service does on the side of [AskService]:
    a callback runs, a call on the adapter is only recorded. [given] tells
    what the STT service passes to [onError]: [ErrorField] in
    [handleMessage], [ErrorObject] elsewhere. *)
Definition dispatch (askWindow : bool) (given : string -> errorValue)
    (e : AskSttService.effect)
    (a : AskService.service) : AskService.service * list effect :=
  match e with
  | AskSttService.Emit (AskSttService.TranscriptionUpdate text isFinal) =>
      onTranscriptionUpdate askWindow text isFinal a
  | AskSttService.Emit (AskSttService.TranscriptionComplete text) =>
      onTranscriptionComplete askWindow text a
  | AskSttService.Emit (AskSttService.StatusUpdate status) =>
      onStatusUpdate askWindow status a
  | AskSttService.Emit (AskSttService.Error cause) =>
      onError askWindow (given cause) a
  | call => (a, [Adapter call])
  end.

Fixpoint dispatchAll (askWindow : bool) (given : string -> errorValue)
    (out : list AskSttService.effect)
    (a : AskService.service) : AskService.service * list effect :=
  match out with
  | [] => (a, [])
  | e :: rest =>
      let '(a1, log1) := dispatch askWindow given e a in
      let '(a2, log2) := dispatchAll askWindow given rest a1 in
      (a2, log1 ++ log2)
  end.

Definition succeeded : AskService.result := AskService.mkResult true None.
Definition failed (msg : string) : AskService.result :=
  AskService.mkResult false (Some msg).

(** [startVoiceInput]: [info] and [created] are what
    [getCurrentModelInfo('stt')] and [createSTT] settle to. *)
Definition startVoiceInput (info : option AskSttService.ModelInfo)
    (created : string + AskSttService.session) (askWindow : bool) (v : voice)
    : voice * list effect * AskService.result :=
  if AskService.isListening (AskService.state (ask v)) then
    (v, [], failed "Already listening")
  else
    let '(stt1, out1, initialized) :=
      AskSttService.initializeSession info created (sttService v) in
    let '(a1, log1) := dispatchAll askWindow ErrorObject out1 (ask v) in
    if negb initialized then
      (mkVoice a1 stt1, log1, failed "Failed to initialize speech recognition")
    else
      let '(stt2, out2, completion) := AskSttService.startListening stt1 in
      let '(a2, log2) := dispatchAll askWindow ErrorObject out2 a1 in
      match completion with
      | AskSttService.Returned =>
          let a3 := withSttTranscription "" (withListening true a2) in
          (mkVoice a3 stt2, log1 ++ log2 ++ [broadcast a3], succeeded)
      | AskSttService.Thrown msg =>
          let a3 := withListening false a2 in
          (mkVoice a3 stt2, log1 ++ log2 ++ [broadcast a3], failed msg)
      end.

Definition stopVoiceInput (askWindow : bool) (v : voice)
    : voice * list effect * AskService.result :=
  if negb (AskService.isListening (AskService.state (ask v))) then
    (v, [], failed "Not listening")
  else
    let '(stt1, out1, completion) := AskSttService.stopListening (sttService v) in
    let '(a1, log1) := dispatchAll askWindow ErrorObject out1 (ask v) in
    match completion with
    | AskSttService.Returned =>
        let a2 := withListening false a1 in
        (mkVoice a2 stt1, log1 ++ [broadcast a2], succeeded)
    | AskSttService.Thrown msg => (mkVoice a1 stt1, log1, failed msg)
    end.

Definition toggleVoiceInput (info : option AskSttService.ModelInfo)
    (created : string + AskSttService.session) (askWindow : bool) (v : voice)
    : voice * list effect * AskService.result :=
  if AskService.isListening (AskService.state (ask v))
  then stopVoiceInput askWindow v
  else startVoiceInput info created askWindow v.

(** [sendAudioData]: [fetched] is the model information fetched on the fly
    by the STT service. *)
Definition sendAudioData (data : string) (mimeType : option string)
    (fetched : option AskSttService.ModelInfo) (askWindow : bool) (v : voice)
    : voice * list effect * AskService.result :=
  if negb (AskService.isListening (AskService.state (ask v))) then
    (v, [], failed "Not listening for voice input")
  else
    let '(stt1, out1, completion) :=
      AskSttService.sendAudioData data mimeType fetched (sttService v) in
    let '(a1, log1) := dispatchAll askWindow ErrorObject out1 (ask v) in
    (mkVoice a1 stt1, log1,
     match completion with
     | AskSttService.Returned => succeeded
     | AskSttService.Thrown msg => failed msg
     end).

Definition closeAskWindow (askWindow : bool) (v : voice)
    : voice * list effect * AskService.result :=
  let aborting :=
    if AskService.abortController (ask v)
    then [Ask (AskService.AbortPrevious "Window closed by user")] else [] in
  let a0 := AskService.mkService false (AskService.state (ask v)) in
  let '(v1, log1) :=
    if AskService.isListening (AskService.state a0)
    then fst (stopVoiceInput askWindow (mkVoice a0 (sttService v)))
    else (mkVoice a0 (sttService v), []) in
  let a2 :=
    AskService.mkService (AskService.abortController (ask v1))
                         (AskService.state AskService.init) in
  (mkVoice a2 (sttService v1),
   aborting ++ log1
   ++ [broadcast a2; Ask (AskService.RequestVisibility false)],
   succeeded).

(** The callbacks the provider adapter invokes on the STT service, with
    the callbacks of [AskService] these invoke in turn. *)
Definition onmessage (askWindow : bool) (m : AskSttService.message) (v : voice)
    : voice * list effect :=
  let '(stt1, out1) := AskSttService.handleMessage (sttService v) m in
  let '(a1, log1) := dispatchAll askWindow ErrorField out1 (ask v) in
  (mkVoice a1 stt1, log1).

Definition onerror (askWindow : bool) (msg : string) (v : voice) : voice * list effect :=
  let '(stt1, out1) := AskSttService.onAdapterError (sttService v) msg in
  let '(a1, log1) := dispatchAll askWindow ErrorObject out1 (ask v) in
  (mkVoice a1 stt1, log1).

Definition onclose (askWindow : bool) (v : voice) : voice * list effect :=
  let '(stt1, out1) := AskSttService.onAdapterClose (sttService v) in
  let '(a1, log1) := dispatchAll askWindow ErrorObject out1 (ask v) in
  (mkVoice a1 stt1, log1).

(** Every entry point that touches the STT service, with the outcomes of
    the collaborators it consults. *)
Inductive op : Type :=
| OpStartVoiceInput (info : option AskSttService.ModelInfo)
                    (created : string + AskSttService.session)
| OpStopVoiceInput
| OpToggleVoiceInput (info : option AskSttService.ModelInfo)
                     (created : string + AskSttService.session)
| OpSendAudioData (data : string) (mimeType : option string)
                  (fetched : option AskSttService.ModelInfo)
| OpCloseAskWindow
| OpMessage (m : AskSttService.message)
| OpAdapterError (msg : string)
| OpAdapterClose.

Definition step (askWindow : bool) (o : op) (v : voice) : voice * list effect :=
  match o with
  | OpStartVoiceInput info created => fst (startVoiceInput info created askWindow v)
  | OpStopVoiceInput => fst (stopVoiceInput askWindow v)
  | OpToggleVoiceInput info created => fst (toggleVoiceInput info created askWindow v)
  | OpSendAudioData d mt f => fst (sendAudioData d mt f askWindow v)
  | OpCloseAskWindow => fst (closeAskWindow askWindow v)
  | OpMessage m => onmessage askWindow m v
  | OpAdapterError msg => onerror askWindow msg v
  | OpAdapterClose => onclose askWindow v
  end.

(** A sequence of operations, each with the presence of the ask window
    while it runs. *)
Fixpoint run (ops : list (bool * op)) (v : voice) : voice * list effect :=
  match ops with
  | [] => (v, [])
  | (askWindow, o) :: rest =>
      let '(v1, log1) := step askWindow o v in
      let '(v2, log2) := run rest v1 in
      (v2, log1 ++ log2)
  end.

(** What the callbacks leave on the side of [AskService] after a message
    that completes an utterance with a text that is not blank: the turn for
    the trimmed text has begun. *)
Definition submitted (text : string) (a : AskService.service) : AskService.service :=
  AskService.mkService true
    (AskService.mkState (AskService.isVisible (AskService.state a)) true false (trim text) ""
       (AskService.conversationalResponse (AskService.state a)) false false text).

(** The turn-based provider, configured. *)
Definition geminiInfo : AskSttService.ModelInfo :=
  AskSttService.mkModelInfo "gemini" "key" "model".

(** Dictation of one utterance on the turn-based provider, up to the
    message that completes it. *)
Definition dictation : list (bool * op) :=
  [ (true, OpStartVoiceInput (Some geminiInfo) (inr (AskSttService.mkSession false false)));
    (true, OpMessage (SttStates.geminiChunk "what is ")) ;
    (true, OpMessage (SttStates.geminiChunk "this?")) ].

End AskVoice.


(* ===================================================================== *)
(** * Properties                                                          *)
(* ===================================================================== *)

Module JsStringFacts.
Import JsString.

Lemma truthy_length s : truthy s = true <-> (0 < String.length s)%nat.
Proof.
  destruct s; simpl; split; intro H; try discriminate; try lia; reflexivity.
Qed.

Lemma append_nonempty_l a b : truthy a = true -> truthy (a ++ b)%string = true.
Proof. destruct a; simpl; [discriminate | reflexivity]. Qed.

Lemma prefix_refl s : String.prefix s s = true.
Proof.
  induction s as [|c s IH]; simpl; [reflexivity |].
  destruct (ascii_dec c c); [exact IH | congruence].
Qed.

Lemma includes_self s : includes s s = true.
Proof.
  destruct s as [|c s]; [reflexivity |].
  cbn [includes]. now rewrite prefix_refl.
Qed.

Lemma trim_truthy s : truthy (trim s) = true -> truthy s = true.
Proof. destruct s; [discriminate | reflexivity]. Qed.

Lemma length_truthy s n : (n < String.length s)%nat -> truthy s = true.
Proof. destruct s; simpl; [lia | reflexivity]. Qed.

Lemma append_assoc (a b c : string) : ((a ++ b) ++ c = a ++ (b ++ c))%string.
Proof. induction a as [|x a IH]; cbn; [reflexivity | now rewrite IH]. Qed.

Lemma append_empty_r (a : string) : (a ++ "")%string = a.
Proof. induction a as [|x a IH]; cbn; [reflexivity | now rewrite IH]. Qed.

End JsStringFacts.

(* --------------------------------------------------------------------- *)
(** ** The normalizer                                                     *)
(* --------------------------------------------------------------------- *)

Module SttNormalizer.
Import JsString JsStringFacts AskSttService.

Lemma raisesFinal_app a b : raisesFinal (a ++ b) = raisesFinal a || raisesFinal b.
Proof. unfold raisesFinal. apply existsb_app. Qed.

Lemma raisesFinal_error r e : raisesFinal (emitIf r (Error e)) = false.
Proof. destruct r; reflexivity. Qed.

(** The [includes] disjunct of the noise test subsumes the equality one. *)
Lemma isNoise_includes t :
  isNoise t = existsb (includes t) noisePatterns.
Proof.
  unfold isNoise. induction noisePatterns as [|p ps IH]; [reflexivity |].
  cbn [existsb]. rewrite IH. f_equal.
  destruct (String.eqb_spec t p) as [->|]; [| apply orb_false_r].
  now rewrite includes_self.
Qed.

Lemma isNoise_of_pattern t : In t noisePatterns -> isNoise t = true.
Proof.
  intros H. rewrite isNoise_includes. apply existsb_exists.
  exists t. split; [exact H | apply includes_self].
Qed.

(** The [message.error] check adds no [Final] event to what the arm emitted. *)
Lemma handleMessage_final s info m :
  modelInfo s = Some info -> provider info = "whisper" ->
  raisesFinal (snd (handleMessage s m)) = raisesFinal (snd (fst (whisperArm s m))).
Proof.
  intros Hi Hp. unfold handleMessage. rewrite Hi, Hp, String.eqb_refl.
  destruct (whisperArm s m) as [[s' out] ft]. cbn [fst snd].
  destruct ft; [| reflexivity].
  destruct (error m) as [e|]; [| reflexivity].
  destruct (truthy e); [| reflexivity].
  cbn [snd]. now rewrite raisesFinal_app, raisesFinal_error, orb_false_r.
Qed.

Lemma handleMessage_whisper_state s info m :
  modelInfo s = Some info -> provider info = "whisper" ->
  fst (handleMessage s m) = fst (fst (whisperArm s m)) /\
  forall e, In e (snd (fst (whisperArm s m))) -> In e (snd (handleMessage s m)).
Proof.
  intros Hi Hp. unfold handleMessage. rewrite Hi, Hp, String.eqb_refl.
  destruct (whisperArm s m) as [[s' out] ft]. cbn [fst snd].
  destruct ft; [| now split].
  destruct (error m) as [e|]; [| now split].
  destruct (truthy e); [| now split].
  split; [reflexivity |]. intros x Hx. cbn [snd]. apply in_or_app. now left.
Qed.

(** C1, the part that fails: the text [[MUSIC]ab] is the noise token
    [[MUSIC]] plus two further characters and is longer than the floor of 2,
    yet the batch-transcript arm raises no Final event for it. *)
Lemma whisper_token_plus_two_chars_is_filtered :
  In "[MUSIC]" noisePatterns /\
  "[MUSIC]ab" = ("[MUSIC]" ++ "ab")%string /\
  (2 < String.length (trim "[MUSIC]ab"))%nat /\
  raisesFinal (snd (handleMessage (openService "whisper") (textMessage "[MUSIC]ab"))) = false.
Proof. repeat split; [simpl; tauto | simpl; lia]. Qed.

(** C1 (amended): in the batch-transcript (whisper) arm, a message whose
    trimmed text equals a noise token, or merely contains one, raises no
    Final event; a message whose trimmed text contains no noise token and is
    longer than 2 raises the Final event with the trimmed text (and stores
    it as the current transcription). *)
Theorem whisper_noise_filter (s : service) (info : ModelInfo) (m : message) (raw : string) :
  modelInfo s = Some info -> provider info = "whisper" -> text m = Some raw ->
  (In (trim raw) noisePatterns -> raisesFinal (snd (handleMessage s m)) = false) /\
  (existsb (includes (trim raw)) noisePatterns = true ->
     raisesFinal (snd (handleMessage s m)) = false) /\
  (existsb (includes (trim raw)) noisePatterns = false ->
   (2 < String.length (trim raw))%nat ->
   onTranscriptionComplete (cbs s) = true ->
     In (Emit (TranscriptionComplete (trim raw))) (snd (handleMessage s m)) /\
     raisesFinal (snd (handleMessage s m)) = true /\
     currentTranscription (fst (handleMessage s m)) = trim raw).
Proof.
  intros Hi Hp Ht.
  assert (Hnoise : isNoise (trim raw) = true -> raisesFinal (snd (handleMessage s m)) = false).
  { intros Hn. rewrite (handleMessage_final s info m Hi Hp).
    unfold whisperArm. rewrite Ht, Hn. cbn [negb andb].
    now destruct (truthy raw && truthy (trim raw)). }
  split; [| split].
  - intros Hin. apply Hnoise. now apply isNoise_of_pattern.
  - intros Hex. apply Hnoise. now rewrite isNoise_includes.
  - intros Hex Hlen Hcb.
    assert (Harm : whisperArm s m =
              (withTranscription (trim raw) s,
               emitIf (onTranscriptionUpdate (cbs s)) (TranscriptionUpdate (trim raw) true)
               ++ [Emit (TranscriptionComplete (trim raw))], true)).
    { unfold whisperArm. rewrite Ht.
      assert (Htr : truthy (trim raw) = true) by (eapply length_truthy; eassumption).
      rewrite Htr, (trim_truthy _ Htr), isNoise_includes, Hex, Hcb.
      apply Nat.ltb_lt in Hlen. now rewrite Hlen. }
    destruct (handleMessage_whisper_state s info m Hi Hp) as [Hs Hin].
    rewrite Harm in Hs, Hin. cbn [fst snd] in Hs, Hin.
    assert (Hc : In (Emit (TranscriptionComplete (trim raw))) (snd (handleMessage s m))).
    { apply Hin, in_or_app. right. now left. }
    split; [exact Hc | split].
    + unfold raisesFinal. apply existsb_exists. eexists. split; [exact Hc | reflexivity].
    + now rewrite Hs.
Qed.

(** The theorem at two concrete messages: a padded noise token, and an
    ordinary utterance. *)
Lemma whisper_noise_filter_witness :
  raisesFinal (snd (handleMessage (openService "whisper") (textMessage " [MUSIC] "))) = false /\
  In (Emit (TranscriptionComplete "hello"))
     (snd (handleMessage (openService "whisper") (textMessage "hello "))).
Proof.
  split.
  - refine (proj1 (whisper_noise_filter (openService "whisper")
                     (mkModelInfo "whisper" "key" "model")
                     (textMessage " [MUSIC] ") " [MUSIC] " eq_refl eq_refl eq_refl) _).
    simpl. tauto.
  - refine (proj1 (proj2 (proj2 (whisper_noise_filter (openService "whisper")
                     (mkModelInfo "whisper" "key" "model")
                     (textMessage "hello ") "hello " eq_refl eq_refl eq_refl)) _ _ _)).
    + reflexivity.
    + simpl. lia.
    + reflexivity.
Defined.

End SttNormalizer.

(* --------------------------------------------------------------------- *)
(** ** Session life cycle and the transcription accumulator               *)
(* --------------------------------------------------------------------- *)

Module SttLifecycle.
Import JsString JsStringFacts AskSttService SttStates.

(** C3, the part that fails: closing an open session twice in succession
    invokes the status callback with [disconnected] twice, not once. *)
Lemma closeSession_twice_disconnects_twice :
  let r1 := closeSession (openService "whisper") in
  let r2 := closeSession (fst (fst r1)) in
  disconnectedCount (snd (fst r1) ++ snd (fst r2)) = 2%nat.
Proof. reflexivity. Qed.

(** C3 (amended): each call of [closeSession] reports [disconnected] once
    when a status callback is registered (and not at all otherwise), so two
    calls in succession report it twice; both calls return normally, and the
    second one neither touches the adapter nor changes the state. *)
Theorem closeSession_twice (s : service) :
  let r1 := closeSession s in
  let r2 := closeSession (fst (fst r1)) in
  snd r1 = Returned /\ snd r2 = Returned /\
  fst (fst r2) = fst (fst r1) /\
  ~ In SessionClose (snd (fst r2)) /\
  disconnectedCount (snd (fst r1)) = (if onStatusUpdate (cbs s) then 1%nat else 0%nat) /\
  disconnectedCount (snd (fst r2)) = (if onStatusUpdate (cbs s) then 1%nat else 0%nat).
Proof.
  destruct s as [sess l t mi [u c st e]]. cbn.
  repeat split; try reflexivity.
  - destruct st; cbn; intuition discriminate.
  - destruct sess, st; reflexivity.
  - destruct st; reflexivity.
Qed.

Lemma prefix_append (a b : string) : String.prefix a (a ++ b)%string = true.
Proof.
  induction a as [|c a IH]; cbn; [now destruct b |].
  destruct (ascii_dec c c); [exact IH | congruence].
Qed.

Lemma final_pair_raised (bu bc : bool) (t : string) :
  bc = true ->
  raisesFinal (emitIf bu (TranscriptionUpdate t true) ++ emitIf bc (TranscriptionComplete t))
  = true.
Proof. intros ->. destruct bu; reflexivity. Qed.

Lemma whisperArm_keepsOrFinal s m : keepsOrFinal whisperArm s m.
Proof.
  unfold keepsOrFinal, keeps, whisperArm.
  destruct (text m) as [t|]; [| left; apply prefix_refl].
  destruct (truthy t && truthy (trim t)); [| left; apply prefix_refl].
  destruct (negb (isNoise (trim t)) && (2 <? String.length (trim t))%nat);
    [| left; apply prefix_refl].
  right. cbn [fst snd cbs setCallbacks registered onTranscriptionUpdate
              onTranscriptionComplete].
  split; [reflexivity | apply final_pair_raised].
Qed.

Lemma deepgramArm_keepsOrFinal s m : keepsOrFinal deepgramArm s m.
Proof.
  unfold keepsOrFinal, keeps, deepgramArm.
  destruct (channelTranscript m) as [t|]; [| left; apply prefix_refl].
  destruct (negb (truthy t) || (String.length (trim t) =? 0)%nat);
    [left; apply prefix_refl |].
  destruct (is_final m); [| left; apply prefix_refl].
  right. cbn [fst snd cbs setCallbacks registered onTranscriptionUpdate
              onTranscriptionComplete].
  split; [reflexivity | apply final_pair_raised].
Qed.

Lemma geminiArm_keepsOrFinal s m : keepsOrFinal geminiArm s m.
Proof.
  unfold keepsOrFinal, keeps, geminiArm. left.
  destruct (turnComplete m); [apply prefix_refl |].
  destruct (inputTranscriptionText m) as [c|]; [| apply prefix_refl].
  destruct (negb (truthy c)); [apply prefix_refl |].
  destruct (negb (truthy (trim c)) || (trim c =? "<noise>")%string); [apply prefix_refl |].
  cbn [fst currentTranscription withTranscription]. apply prefix_append.
Qed.

Lemma otherArm_keepsOrFinal s m : keepsOrFinal otherArm s m.
Proof.
  unfold keepsOrFinal, keeps, otherArm.
  destruct (type m) as [ty|]; [| left; apply prefix_refl].
  destruct (ty =? deltaType)%string.
  - left. cbn [fst currentTranscription withTranscription]. apply prefix_append.
  - destruct (ty =? completedType)%string; [| left; apply prefix_refl].
    match goal with |- context [truthy ?x && truthy (trim ?x)] =>
      destruct (truthy x && truthy (trim x)) end; [| left; apply prefix_refl].
    right. cbn [fst snd cbs setCallbacks registered onTranscriptionUpdate
                onTranscriptionComplete].
    split; [reflexivity | apply final_pair_raised].
Qed.

(** The error check behind the arm changes neither the state nor whether
    a Final event is raised. *)
Lemma handleMessage_after_arm s info m :
  modelInfo s = Some info ->
  fst (handleMessage s m) = fst (fst (armOf info s m)) /\
  raisesFinal (snd (handleMessage s m)) = raisesFinal (snd (fst (armOf info s m))).
Proof.
  intros Hi. unfold handleMessage. rewrite Hi. fold (armOf info s m).
  destruct (armOf info s m) as [[s' out] ft]. cbn [fst snd].
  destruct ft; [| now split]. destruct (error m) as [e|]; [| now split].
  destruct (truthy e); [| now split]. cbn [fst snd].
  now rewrite SttNormalizer.raisesFinal_app, SttNormalizer.raisesFinal_error, orb_false_r.
Qed.

Lemma handleMessage_keepsOrFinal s m :
  keeps s (fst (handleMessage s m)) = true \/
  (isFinal s m = true /\
   (onTranscriptionComplete (cbs s) = true -> raisesFinal (snd (handleMessage s m)) = true)).
Proof.
  destruct (modelInfo s) as [info|] eqn:Hi.
  - destruct (handleMessage_after_arm s info m Hi) as [A1 A2].
    destruct (handleMessage_after_arm (setCallbacks registered s) info m Hi) as [_ B2].
    unfold isFinal. rewrite A1, A2, B2. unfold armOf.
    destruct (provider info =? "whisper")%string; [apply whisperArm_keepsOrFinal |].
    destruct (provider info =? "deepgram")%string; [apply deepgramArm_keepsOrFinal |].
    destruct (provider info =? "gemini")%string; [apply geminiArm_keepsOrFinal |].
    apply otherArm_keepsOrFinal.
  - left. unfold handleMessage, keeps. rewrite Hi. apply prefix_refl.
Qed.

(** C6, the part that fails: after one dictated utterance the accumulator
    holds its text; [startListening], which is neither a Final or
    turn-complete event nor a session close, empties it (and raises only the
    [listening] status). *)
Lemma startListening_clears_the_accumulator :
  let s := fst (run oneUtterance init) in
  currentTranscription s = "hello" /\
  step OpStartListening s =
    (mkService (sttSession s) true "" (modelInfo s) (cbs s),
     [Emit (StatusUpdate "listening")]).
Proof. split; reflexivity. Qed.

(** C6 (amended): the accumulated text is reset only on a Final or
    turn-complete event, by [startListening] or by [closeSession], and by
    no other operation. Whenever an entry point leaves an accumulator that
    does not start with the text accumulated before it (emptied or
    replaced), the entry point is [startListening], [closeSession], or a
    provider message on which the normalizer raises a Final event; every
    other operation keeps what was accumulated, possibly followed by more.
    Whether a turn-complete message resets the accumulator is not part of
    the statement. *)
Theorem accumulator_reset_only_by_final_start_or_close (o : op) (s : service) :
  keeps s (fst (step o s)) = false ->
  o = OpStartListening \/ o = OpCloseSession \/
  exists m,
    o = OpMessage m /\ (isFinal s m = true \/ turnComplete m = true) /\
    (onTranscriptionComplete (cbs s) = true -> raisesFinal (snd (step o s)) = true).
Proof.
  intros Hc. unfold keeps in Hc.
  destruct o as [cb|info created|m|msg| | | |d mt f| |]; cbn [step] in Hc |- *;
    try (now left); try (now right; left);
    try (exfalso; cbn in Hc; rewrite prefix_refl in Hc; discriminate).
  - exfalso. unfold initializeSession in Hc.
    destruct info as [mi|]; [| cbn in Hc; rewrite prefix_refl in Hc; discriminate].
    destruct (truthy (apiKey mi)), created; cbn in Hc;
      rewrite prefix_refl in Hc; discriminate.
  - right; right. exists m. split; [reflexivity |].
    destruct (handleMessage_keepsOrFinal s m) as [K | [F R]].
    + unfold keeps in K. congruence.
    + split; [now left | exact R].
  - exfalso. unfold stopListening in Hc.
    destruct (isListening s); cbn in Hc; rewrite prefix_refl in Hc; discriminate.
  - exfalso. unfold sendAudioData in Hc.
    destruct (sttSession s); [| cbn in Hc; rewrite prefix_refl in Hc; discriminate].
    destruct (isListening s); cbn [negb] in Hc;
      [| cbn in Hc; rewrite prefix_refl in Hc; discriminate].
    destruct (match modelInfo s with Some mi => Some mi | None => f end);
      cbn in Hc; rewrite prefix_refl in Hc; discriminate.
Qed.

(** The amended claim on a Final message that replaces the text of the
    utterance before it. *)
Lemma accumulator_reset_only_by_final_start_or_close_witness :
  let s := fst (run oneUtterance init) in
  OpMessage (textMessage "world") = OpStartListening \/
  OpMessage (textMessage "world") = OpCloseSession \/
  exists m,
    OpMessage (textMessage "world") = OpMessage m /\
    (isFinal s m = true \/ turnComplete m = true) /\
    (onTranscriptionComplete (cbs s) = true ->
     raisesFinal (snd (step (OpMessage (textMessage "world")) s)) = true).
Proof.
  apply (accumulator_reset_only_by_final_start_or_close
           (OpMessage (textMessage "world")) (fst (run oneUtterance init))).
  reflexivity.
Defined.

End SttLifecycle.

(* --------------------------------------------------------------------- *)
(** ** Segmentation                                                       *)
(* --------------------------------------------------------------------- *)

Module Segmentation.
Import PrimFloat AskAudioCapture.

(** Durations against the two thresholds, in samples. *)
Lemma min_duration_samples seg :
  (MIN_SEGMENT_DURATION <= segmentDuration seg)%Q <-> (12000 <= Z.of_nat (List.length seg))%Z.
Proof.
  unfold segmentDuration, MIN_SEGMENT_DURATION, SAMPLE_RATE, Qle, Qdiv, Qmult, Qinv, inject_Z.
  cbn. lia.
Qed.

Lemma max_duration_samples seg :
  (MAX_SEGMENT_DURATION <= segmentDuration seg)%Q <-> (720000 <= Z.of_nat (List.length seg))%Z.
Proof.
  unfold segmentDuration, MAX_SEGMENT_DURATION, SAMPLE_RATE, Qle, Qdiv, Qmult, Qinv, inject_Z.
  cbn. lia.
Qed.

Lemma sentSegments_app a b : sentSegments (a ++ b) = sentSegments a ++ sentSegments b.
Proof.
  induction a as [|[h l|seg] a IH]; cbn; [reflexivity | exact IH | now rewrite IH].
Qed.

(** Whatever [endVoiceSegment] sends has passed the minimum-duration test. *)
Lemma endVoiceSegment_sent s seg :
  In seg (sentSegments (snd (endVoiceSegment s))) ->
  (MIN_SEGMENT_DURATION <= segmentDuration seg)%Q.
Proof.
  unfold endVoiceSegment.
  destruct (isCurrentlyVoice s); cbn [negb snd]; [| intros []].
  destruct (Qle_bool MIN_SEGMENT_DURATION (segmentDuration (currentSegment s))) eqn:E;
    cbn; [| intros []].
  intros [<- | []]. now apply Qle_bool_iff.
Qed.

Lemma maybe_end_sent (b : bool) s seg :
  In seg (sentSegments (snd (if b then endVoiceSegment s else (s, [])))) ->
  (MIN_SEGMENT_DURATION <= segmentDuration seg)%Q.
Proof. destruct b; [apply endVoiceSegment_sent | intros []]. Qed.

Lemma handleVoiceSegment_sent c v lvl s seg :
  In seg (sentSegments (snd (handleVoiceSegment c v lvl s))) ->
  (MIN_SEGMENT_DURATION <= segmentDuration seg)%Q.
Proof.
  unfold handleVoiceSegment. destruct v.
  - match goal with |- context [if ?b then endVoiceSegment ?x else _] =>
      pose proof (maybe_end_sent b x seg) as K; destruct (if b then endVoiceSegment x else _)
    end.
    cbn [snd app sentSegments] in *. exact K.
  - match goal with |- context [let '(_, _) := (if ?b then endVoiceSegment ?x else _) in _] =>
      pose proof (maybe_end_sent b x seg) as K1;
      destruct (if b then endVoiceSegment x else _) as [s1 out1]
    end.
    match goal with |- context [if ?b then endVoiceSegment ?x else _] =>
      pose proof (maybe_end_sent b x seg) as K2; destruct (if b then endVoiceSegment x else _)
    end.
    cbn [snd app sentSegments] in *. rewrite sentSegments_app.
    intros H. apply in_app_or in H. tauto.
Qed.

Lemma feed_sent frames : forall s seg,
  In seg (sentSegments (snd (feed frames s))) ->
  (MIN_SEGMENT_DURATION <= segmentDuration seg)%Q.
Proof.
  induction frames as [|f rest IH]; intros s seg; cbn [feed].
  - intros [].
  - destruct (handleFrame f s) as [s1 out1] eqn:E1.
    destruct (feed rest s1) as [states out2] eqn:E2.
    cbn [snd]. rewrite sentSegments_app. intros H.
    apply in_app_or in H. destruct H as [H | H].
    + apply (handleVoiceSegment_sent (chunk f) (hasVoice f) (voiceLevel f) s seg).
      unfold handleFrame in E1. now rewrite E1.
    + apply (IH s1 seg). now rewrite E2.
Qed.

Lemma stopCapture_sent s seg :
  In seg (sentSegments (snd (stopCapture s))) ->
  (MIN_SEGMENT_DURATION <= segmentDuration seg)%Q.
Proof.
  unfold stopCapture.
  destruct (isCapturing s); cbn [negb]; [| intros []].
  destruct (isCurrentlyVoice s).
  - destruct (endVoiceSegment s) as [s1 out1] eqn:E. cbn [snd].
    rewrite sentSegments_app. cbn [sentSegments]. rewrite app_nil_r.
    intros H. apply (endVoiceSegment_sent s seg). now rewrite E.
  - cbn. intros [].
Qed.

(** C4: on every sequence of frames, from any state of the engine and
    whether or not the capture is stopped afterwards, every segment sent to
    STT lasts at least [MIN_SEGMENT_DURATION] (0.5 s, that is 12000 samples
    at 24 kHz); shorter ones are never sent. *)
Theorem sent_segments_meet_minimum (frames : list frame) (s : capture)
    (seg : list PrimFloat.float) :
  In seg (sentSegments (session frames s)) ->
  (MIN_SEGMENT_DURATION <= segmentDuration seg)%Q /\ (12000 <= Z.of_nat (List.length seg))%Z.
Proof.
  intros H.
  assert (K : (MIN_SEGMENT_DURATION <= segmentDuration seg)%Q).
  { unfold session in H. destruct (feed frames s) as [states out] eqn:E.
    rewrite sentSegments_app in H. apply in_app_or in H. destruct H as [H | H].
    - apply (feed_sent frames s seg). now rewrite E.
    - now apply (stopCapture_sent (lastState s states)). }
  split; [exact K | now apply min_duration_samples].
Qed.

Lemma sent_segments_meet_minimum_witness :
  (MIN_SEGMENT_DURATION
   <= segmentDuration (nth 0 (sentSegments (session utterance started)) []))%Q /\
  (12000 <= Z.of_nat (List.length (nth 0 (sentSegments (session utterance started)) [])))%Z.
Proof.
  apply (sent_segments_meet_minimum utterance started).
  apply nth_In. vm_compute. apply le_n.
Defined.

(** A voiced frame below the start threshold leaves the engine out of
    active speech. *)
Lemma voiced_frame_below_threshold c lvl s :
  isCurrentlyVoice s = false ->
  (S (voiceFrameCount s) < VOICE_THRESHOLD_FRAMES)%nat ->
  handleVoiceSegment c true lvl s =
    (withSegmentation (currentSegment s ++ c) false 0 (S (voiceFrameCount s)) s,
     [UpdateVoiceActivityUI true lvl]).
Proof.
  intros Hv Hn. unfold handleVoiceSegment. rewrite Hv.
  apply Nat.leb_gt in Hn. rewrite Hn. cbn [negb andb].
  destruct (Qle_bool _ _); reflexivity.
Qed.

Lemma silent_frame_when_idle c lvl s :
  isCurrentlyVoice s = false ->
  handleVoiceSegment c false lvl s =
    (withSegmentation (currentSegment s ++ c) false (S (silenceFrameCount s)) 0 s,
     [UpdateVoiceActivityUI false lvl]).
Proof.
  intros Hv. unfold handleVoiceSegment. rewrite Hv. cbn [andb].
  destruct (Qle_bool _ _); reflexivity.
Qed.

Lemma last_cons {A : Type} (l : list A) : forall a d, last (a :: l) d = last l a.
Proof.
  induction l as [|b l IH]; intros a d; [reflexivity |].
  change (last (a :: b :: l) d) with (last (b :: l) d).
  now rewrite (IH b d), (IH b a).
Qed.

Lemma short_voice_run_aux (run : list frame) : forall (s : capture) (quiet : frame),
  isCurrentlyVoice s = false ->
  Forall (fun f => hasVoice f = true) run ->
  (voiceFrameCount s + List.length run < VOICE_THRESHOLD_FRAMES)%nat ->
  hasVoice quiet = false ->
  Forall (fun st => isCurrentlyVoice st = false) (fst (feed (run ++ [quiet]) s)) /\
  sentSegments (snd (feed (run ++ [quiet]) s)) = [] /\
  voiceFrameCount (lastState s (fst (feed (run ++ [quiet]) s))) = 0%nat.
Proof.
  induction run as [|f rest IH]; intros s quiet Hv Hall Hlen Hq.
  - cbn [app feed]. unfold handleFrame. rewrite Hq, (silent_frame_when_idle _ _ _ Hv).
    cbn. repeat split. now constructor.
  - inversion Hall as [|? ? Hf Hrest]; subst. cbn [List.length] in Hlen.
    cbn [app feed]. unfold handleFrame. rewrite Hf.
    rewrite (voiced_frame_below_threshold _ _ _ Hv) by lia.
    set (s1 := withSegmentation _ _ _ _ s).
    destruct (IH s1 quiet eq_refl Hrest ltac:(cbn; lia) Hq) as (A & B & C).
    destruct (feed (rest ++ [quiet]) s1) as [states out] eqn:E.
    cbn [fst snd] in *. repeat split.
    + now constructor.
    + exact B.
    + unfold lastState in *. now rewrite last_cons.
Qed.

(** C9: from an idle engine (no active speech, voice-frame count 0), a run
    of consecutive voiced frames shorter than [VOICE_THRESHOLD_FRAMES]
    (2 frames) followed by a no-voice frame starts no segment: the engine is
    in active speech after none of these frames, nothing is sent, and the
    no-voice frame leaves the voice-frame count at 0. *)
Theorem short_voice_run_starts_no_segment
    (s : capture) (run : list frame) (quiet : frame) :
  isCurrentlyVoice s = false -> voiceFrameCount s = 0%nat ->
  Forall (fun f => hasVoice f = true) run ->
  (List.length run < VOICE_THRESHOLD_FRAMES)%nat ->
  hasVoice quiet = false ->
  Forall (fun st => isCurrentlyVoice st = false) (fst (feed (run ++ [quiet]) s)) /\
  sentSegments (snd (feed (run ++ [quiet]) s)) = [] /\
  voiceFrameCount (lastState s (fst (feed (run ++ [quiet]) s))) = 0%nat.
Proof.
  intros Hv Hc Hall Hlen Hq. apply short_voice_run_aux; try assumption.
  now rewrite Hc.
Qed.

Lemma short_voice_run_starts_no_segment_witness :
  Forall (fun st => isCurrentlyVoice st = false)
         (fst (feed ([voiced 0.5%float] ++ [silent]) started)) /\
  sentSegments (snd (feed ([voiced 0.5%float] ++ [silent]) started)) = [] /\
  voiceFrameCount (lastState started (fst (feed ([voiced 0.5%float] ++ [silent]) started)))
  = 0%nat.
Proof.
  apply (short_voice_run_starts_no_segment started [voiced 0.5%float] silent).
  - reflexivity.
  - reflexivity.
  - repeat constructor.
  - unfold VOICE_THRESHOLD_FRAMES. simpl. lia.
  - reflexivity.
Defined.

Lemma min_below_max seg :
  (MAX_SEGMENT_DURATION <= segmentDuration seg)%Q ->
  Qle_bool MIN_SEGMENT_DURATION (segmentDuration seg) = true.
Proof.
  intros H. apply Qle_bool_iff. apply Qle_trans with (y := MAX_SEGMENT_DURATION); [| exact H].
  unfold MIN_SEGMENT_DURATION, MAX_SEGMENT_DURATION, Qle. cbn. lia.
Qed.

(** In active speech a voiced frame that keeps the buffer below the cap is
    only buffered. *)
Lemma voiced_frame_below_cap c lvl s :
  isCurrentlyVoice s = true ->
  ~ (MAX_SEGMENT_DURATION <= segmentDuration (currentSegment s ++ c))%Q ->
  handleVoiceSegment c true lvl s =
    (withSegmentation (currentSegment s ++ c) true 0 (S (voiceFrameCount s)) s,
     [UpdateVoiceActivityUI true lvl]).
Proof.
  intros Hv Hcap. unfold handleVoiceSegment. rewrite Hv. cbn [negb andb].
  unfold withSegmentation at 1. cbn [currentSegment].
  destruct (Qle_bool _ _) eqn:E; [| reflexivity].
  apply Qle_bool_iff in E. contradiction.
Qed.

(** C5: when a voiced frame takes the buffer of an engine in active speech
    to the cap [MAX_SEGMENT_DURATION] (30 s), that frame force-finalizes
    exactly one segment, the whole buffer with the frame that reached the
    cap; the buffer restarts empty, the next voiced frame of the same run
    is its first content and sends nothing, and with the frame after that
    the engine is in active speech again, holding every sample since the
    cap. *)
Theorem force_finalize_at_cap
    (s : capture) (c c1 c2 : list PrimFloat.float) (l l1 l2 : PrimFloat.float) :
  isCurrentlyVoice s = true ->
  (MAX_SEGMENT_DURATION <= segmentDuration (currentSegment s ++ c))%Q ->
  ~ (MAX_SEGMENT_DURATION <= segmentDuration (c1 ++ c2))%Q ->
  let r := handleVoiceSegment c true l s in
  let r1 := handleVoiceSegment c1 true l1 (fst r) in
  let r2 := handleVoiceSegment c2 true l2 (fst r1) in
  sentSegments (snd r) = [currentSegment s ++ c] /\
  isCurrentlyVoice (fst r) = false /\ currentSegment (fst r) = [] /\
  sentSegments (snd r1) = [] /\ currentSegment (fst r1) = c1 /\
  sentSegments (snd r2) = [] /\ currentSegment (fst r2) = c1 ++ c2 /\
  isCurrentlyVoice (fst r2) = true.
Proof.
  intros Hv Hcap Hbelow.
  assert (E : handleVoiceSegment c true l s =
              (mkCapture (isCapturing s) [] false 0 0 (currentVoiceLevel s)
                         (smoothedVoiceLevel s) (voiceLevelHistory s),
               [UpdateVoiceActivityUI true l; SendVoiceSegmentToSTT (currentSegment s ++ c)])).
  { unfold handleVoiceSegment, endVoiceSegment, withSegmentation. rewrite Hv.
    cbn [negb andb currentSegment isCurrentlyVoice isCapturing currentVoiceLevel
         smoothedVoiceLevel voiceLevelHistory].
    rewrite (proj2 (Qle_bool_iff _ _) Hcap), (min_below_max _ Hcap).
    reflexivity. }
  cbv zeta. rewrite E. cbn [fst snd].
  rewrite (voiced_frame_below_threshold c1 l1) by (cbn; unfold VOICE_THRESHOLD_FRAMES; lia).
  cbn [fst snd withSegmentation currentSegment app sentSegments].
  unfold handleVoiceSegment.
  cbn [isCurrentlyVoice voiceFrameCount negb andb withSegmentation currentSegment app].
  change (VOICE_THRESHOLD_FRAMES <=? 2)%nat with true. cbv iota.
  destruct (Qle_bool MAX_SEGMENT_DURATION (segmentDuration (c1 ++ c2))) eqn:Q.
  - apply Qle_bool_iff in Q. contradiction.
  - cbn. repeat split; reflexivity.
Qed.

Lemma force_finalize_at_cap_witness :
  let r := handleVoiceSegment (constantChunk 0.5%float) true 1%float nearCap in
  let r1 := handleVoiceSegment (constantChunk 0.5%float) true 1%float (fst r) in
  let r2 := handleVoiceSegment (constantChunk 0.5%float) true 1%float (fst r1) in
  sentSegments (snd r) = [currentSegment nearCap ++ constantChunk 0.5%float] /\
  isCurrentlyVoice (fst r) = false /\ currentSegment (fst r) = [] /\
  sentSegments (snd r1) = [] /\ currentSegment (fst r1) = constantChunk 0.5%float /\
  sentSegments (snd r2) = [] /\
  currentSegment (fst r2) = constantChunk 0.5%float ++ constantChunk 0.5%float /\
  isCurrentlyVoice (fst r2) = true.
Proof.
  apply (force_finalize_at_cap nearCap).
  - reflexivity.
  - apply max_duration_samples. vm_compute. discriminate.
  - intros H. apply max_duration_samples in H. vm_compute in H. now apply H.
Defined.

End Segmentation.

(* --------------------------------------------------------------------- *)
(** ** The voice level meter                                              *)
(* --------------------------------------------------------------------- *)

Module VoiceLevelMeter.
Import PrimFloat AskAudioCapture.

(** The meter never lets the history grow beyond its size once it is
    within it. *)
Lemma history_bounded audioData s :
  (List.length (voiceLevelHistory s) <= VOICE_LEVEL_HISTORY_SIZE)%nat ->
  (List.length (voiceLevelHistory (snd (calculateVoiceLevel audioData s)))
   <= VOICE_LEVEL_HISTORY_SIZE)%nat.
Proof.
  intros H. unfold calculateVoiceLevel.
  destruct audioData as [[|x data]|]; cbn [snd]; try exact H.
  unfold updateSmoothedVoiceLevel, withLevel. cbn [voiceLevelHistory].
  match goal with |- context [(VOICE_LEVEL_HISTORY_SIZE <? ?n)%nat] =>
    destruct (Nat.ltb_spec VOICE_LEVEL_HISTORY_SIZE n) as [L|L] end; [| exact L].
  rewrite length_app in *. cbn [List.length] in *.
  destruct (voiceLevelHistory s); cbn [app tl List.length] in *; [lia |].
  rewrite length_app. cbn [List.length]. lia.
Qed.

(** The meter on a concrete instance: an empty frame after a loud one
    returns 0 and lets the smoothed level decay towards the history. *)
Example empty_frame_after_loud_frame :
  let s := snd (calculateVoiceLevel (Some [0.1; 0.1; 0.1; 0.1]%float) started) in
  voiceLevelHistory s = [1%float] /\
  calculateVoiceLevel (Some []) s
  = (0%float,
     mkCapture true [] false 0 0 0%float 0.51%float [1%float]).
Proof. vm_compute. split; reflexivity. Qed.

End VoiceLevelMeter.

(* --------------------------------------------------------------------- *)
(** ** PCM16 and base64 round trip                                        *)
(* --------------------------------------------------------------------- *)

Module Pcm16RoundTrip.
Import Pcm16.
Local Open Scope Z_scope.

Lemma charCode_range c : 0 <= charCode c < 256.
Proof.
  unfold charCode. pose proof (N_ascii_bounded c). lia.
Qed.

Lemma fromCharCode_charCode c : fromCharCode (charCode c) = c.
Proof.
  unfold fromCharCode, charCode. rewrite N2Z.id. apply ascii_N_embedding.
Qed.

Lemma charCode_fromCharCode b : 0 <= b < 256 -> charCode (fromCharCode b) = b.
Proof.
  intros H. unfold fromCharCode, charCode.
  rewrite N_ascii_embedding by lia. lia.
Qed.

(** Every sextet is decoded back from its character, which is never the
    padding character. *)
Lemma sextet_round_trip n :
  0 <= n < 64 ->
  decodeSextet (encodeSextet n) = Some n /\
  Ascii.eqb (encodeSextet n) "="%char = false.
Proof.
  intros H.
  replace n with (Z.of_nat (Z.to_nat n)) by lia.
  assert (K : (Z.to_nat n < 64)%nat) by lia.
  generalize dependent (Z.to_nat n). clear. intros k K.
  do 64 (destruct k as [|k]; [split; vm_compute; reflexivity |]).
  lia.
Qed.

Lemma atob_four c0 c1 c2 c3 rest :
  atob (String c0 (String c1 (String c2 (String c3 rest)))) =
  match decodeSextet c0, decodeSextet c1 with
  | Some s0, Some s1 =>
      let b0 := fromCharCode (s0 * 4 + s1 / 16) in
      if Ascii.eqb c2 "="%char then
        if Ascii.eqb c3 "="%char && String.eqb rest "" then Some (String b0 "")
        else None
      else
        match decodeSextet c2 with
        | Some s2 =>
            let b1 := fromCharCode ((s1 mod 16) * 16 + s2 / 4) in
            if Ascii.eqb c3 "="%char then
              if String.eqb rest "" then Some (String b0 (String b1 ""))
              else None
            else
              match decodeSextet c3, atob rest with
              | Some s3, Some tail =>
                  Some (String b0 (String b1
                          (String (fromCharCode ((s2 mod 4) * 64 + s3)) tail)))
              | _, _ => None
              end
        | None => None
        end
  | _, _ => None
  end.
Proof. reflexivity. Qed.

(** Rewrites the decoding of one sextet character, discharging its range. *)
Ltac sextet :=
  match goal with
  | |- context [decodeSextet (encodeSextet ?n)] =>
      let H := fresh in
      assert (H : 0 <= n < 64) by (Z.div_mod_to_equations; lia);
      rewrite (proj1 (sextet_round_trip n H)); clear H
  | |- context [Ascii.eqb (encodeSextet ?n) "="%char] =>
      let H := fresh in
      assert (H : 0 <= n < 64) by (Z.div_mod_to_equations; lia);
      rewrite (proj2 (sextet_round_trip n H)); clear H
  end.

Ltac byte_back c :=
  match goal with
  | |- context [fromCharCode ?e] =>
      replace e with (charCode c) by (Z.div_mod_to_equations; lia);
      rewrite (fromCharCode_charCode c)
  end.

Lemma btoa_one a :
  btoa (String a "") =
  String (encodeSextet (charCode a / 4))
    (String (encodeSextet ((charCode a mod 4) * 16)) "==").
Proof. reflexivity. Qed.

Lemma btoa_two a b :
  btoa (String a (String b "")) =
  String (encodeSextet (charCode a / 4))
    (String (encodeSextet ((charCode a mod 4) * 16 + charCode b / 16))
       (String (encodeSextet ((charCode b mod 16) * 4)) "=")).
Proof. reflexivity. Qed.

Lemma btoa_three a b c rest :
  btoa (String a (String b (String c rest))) =
  String (encodeSextet (charCode a / 4))
    (String (encodeSextet ((charCode a mod 4) * 16 + charCode b / 16))
       (String (encodeSextet ((charCode b mod 16) * 4 + charCode c / 64))
          (String (encodeSextet (charCode c mod 64)) (btoa rest)))).
Proof. reflexivity. Qed.

Lemma atob_btoa_steps (s : string) :
  atob (btoa s) = Some s /\
  (forall a, atob (btoa (String a s)) = Some (String a s)) /\
  (forall a b, atob (btoa (String a (String b s))) = Some (String a (String b s))).
Proof.
  induction s as [|c s (IH0 & IH1 & IH2)].
  - split; [reflexivity | split].
    + intros a. pose proof (charCode_range a).
      rewrite btoa_one, atob_four. repeat sextet.
      cbn [Ascii.eqb Bool.eqb andb String.eqb]. cbv zeta. cbn [andb].
      now byte_back a.
    + intros a b. pose proof (charCode_range a). pose proof (charCode_range b).
      rewrite btoa_two, atob_four. repeat sextet.
      cbn [Ascii.eqb Bool.eqb andb String.eqb]. cbv zeta.
      byte_back a. now byte_back b.
  - split; [exact (IH1 c) | split].
    + intros a. exact (IH2 a c).
    + intros a b.
      pose proof (charCode_range a). pose proof (charCode_range b).
      pose proof (charCode_range c).
      rewrite btoa_three, atob_four. repeat sextet. rewrite IH0. cbv zeta.
      byte_back a. byte_back b. now byte_back c.
Qed.

(** [atob] inverts [btoa] on every binary string. *)
Lemma atob_btoa s : atob (btoa s) = Some s.
Proof. apply atob_btoa_steps. Qed.

Lemma bufferOf_cons z rest :
  bufferOf (z :: rest) = (z mod 65536) mod 256 :: (z mod 65536) / 256 :: bufferOf rest.
Proof. reflexivity. Qed.

(** Reading the buffer back as 16-bit integers returns the array. *)
Lemma int16s_of_buffer ints :
  Forall (fun z => -32768 <= z <= 32767) ints ->
  int16sOfBinary (binaryOf (bufferOf ints)) = Some ints.
Proof.
  induction 1 as [|z rest Hz _ IH]; [reflexivity |].
  rewrite bufferOf_cons. cbn [binaryOf int16sOfBinary]. rewrite IH.
  rewrite !charCode_fromCharCode by (Z.div_mod_to_equations; lia).
  f_equal. f_equal.
  destruct (Z.ltb_spec ((z mod 65536) mod 256 + 256 * ((z mod 65536) / 256)) 32768);
    Z.div_mod_to_equations; lia.
Qed.

(** Truncation towards zero is within one unit, on the side of zero. *)
Lemma truncate_nonneg (y : Q) :
  (0 <= y)%Q -> (inject_Z (truncate y) <= y /\ y < inject_Z (truncate y) + 1)%Q.
Proof.
  destruct y as [n d]. unfold truncate, Qle, Qlt, Qplus, inject_Z. cbn.
  intros H. Z.quot_rem_to_equations. nia.
Qed.

Lemma truncate_nonpos (y : Q) :
  (y <= 0)%Q -> (y <= inject_Z (truncate y) /\ inject_Z (truncate y) < y + 1)%Q.
Proof.
  destruct y as [n d]. unfold truncate, Qle, Qlt, Qplus, inject_Z. cbn.
  intros H. Z.quot_rem_to_equations. nia.
Qed.

Lemma wrap16_small z : -32768 <= z <= 32767 -> wrap16 z = z.
Proof. intros H. unfold wrap16. rewrite Z.mod_small; lia. Qed.

Lemma clamp_in_range x : (-1 <= x <= 1)%Q -> (clamp x == x)%Q.
Proof.
  intros [Hl Hu]. unfold clamp, Qltb.
  destruct (Qle_bool 1 x) eqn:E1; cbn [negb].
  - apply Qle_bool_iff in E1.
    change (Qle_bool 1 (-1)) with false. cbn [negb]. lra.
  - destruct (Qle_bool x (-1)) eqn:E2; cbn [negb]; [| reflexivity].
    apply Qle_bool_iff in E2. lra.
Qed.

Lemma inject_Z_le a b : (inject_Z a <= inject_Z b)%Q -> a <= b.
Proof. intros H. now rewrite Zle_Qle. Qed.

Lemma inject_Z_lt a b : (inject_Z a < inject_Z b)%Q -> a < b.
Proof. intros H. now rewrite Zlt_Qlt. Qed.

(** One sample: the stored level is a 16-bit integer, and the value it
    stands for is within one quantization step of the sample. *)
Lemma quantize_accurate x :
  (-1 <= x <= 1)%Q ->
  -32768 <= quantize x <= 32767 /\ withinOneStep x (dequantize (quantize x)).
Proof.
  intros Hx. pose proof (clamp_in_range x Hx) as Hs. destruct Hx as [Hl Hu].
  unfold quantize, toInt16, Qltb. set (s := clamp x) in *.
  destruct (Qle_bool 0 s) eqn:E; cbn [negb].
  - apply Qle_bool_iff in E.
    destruct (truncate_nonneg (s * 32767)) as [T1 T2]; [lra |].
    set (t := truncate (s * 32767)) in *.
    assert (Ht : 0 <= t <= 32767).
    { split.
      - assert (inject_Z (-1) < inject_Z t)%Q by (change (inject_Z (-1)) with (-1)%Q; lra).
        apply inject_Z_lt in H. lia.
      - apply inject_Z_le. change (inject_Z 32767) with 32767%Q. lra. }
    rewrite wrap16_small by lia. split; [lia |].
    unfold dequantize. destruct (Z.ltb_spec t 0); [lia |].
    unfold withinOneStep, quantizationStep, Qdiv.
    change (/ 32767)%Q with (1 # 32767)%Q. lra.
  - assert (Hneg : (s < 0)%Q).
    { apply Qnot_le_lt. intros K. apply Qle_bool_iff in K. congruence. }
    destruct (truncate_nonpos (s * 32768)) as [T1 T2]; [lra |].
    set (t := truncate (s * 32768)) in *.
    assert (Ht : -32768 <= t <= 0).
    { split.
      - apply inject_Z_le. change (inject_Z (-32768)) with (-32768)%Q. lra.
      - assert (inject_Z t < inject_Z 1)%Q by (change (inject_Z 1) with 1%Q; lra).
        apply inject_Z_lt in H. lia. }
    rewrite wrap16_small by lia. split; [lia |].
    unfold dequantize, withinOneStep, quantizationStep, Qdiv.
    destruct (Z.ltb_spec t 0).
    + change (/ 32768)%Q with (1 # 32768)%Q. lra.
    + assert (t = 0) by lia. subst t. rewrite H0 in *.
      change (inject_Z 0) with 0%Q in *. lra.
Qed.

(** C8: every sample sequence with values in [-1, 1], encoded to PCM16 and
    base64 as [sendVoiceSegmentToSTT] does and decoded back, is reproduced
    with every sample within one quantization step (1/32767) of the
    original: the transport returns the 16-bit levels exactly, and each
    level stands for a value within one step of its sample. *)
Theorem pcm16_base64_round_trip (samples : list Q) :
  Forall (fun x => (-1 <= x <= 1)%Q) samples ->
  match atob (encode samples) with
  | Some binary => int16sOfBinary binary
  | None => None
  end = Some (convertFloat32ToInt16 samples) /\
  exists decoded,
    decode (encode samples) = Some decoded /\
    Forall2 withinOneStep samples decoded.
Proof.
  intros H.
  assert (T : match atob (encode samples) with
              | Some binary => int16sOfBinary binary
              | None => None
              end = Some (convertFloat32ToInt16 samples)).
  { unfold encode, arrayBufferToBase64. rewrite atob_btoa.
    apply int16s_of_buffer. unfold convertFloat32ToInt16. apply Forall_map.
    eapply Forall_impl; [| exact H]. intros x Hx. now apply quantize_accurate. }
  split; [exact T |].
  exists (map dequantize (convertFloat32ToInt16 samples)).
  split.
  - unfold decode. destruct (atob (encode samples)) as [binary|]; [| discriminate].
    now rewrite T.
  - clear T. unfold convertFloat32ToInt16.
    induction H as [|x rest Hx _ IH]; cbn [map]; constructor; [| exact IH].
    now apply quantize_accurate.
Qed.

Lemma pcm16_base64_round_trip_witness :
  exists decoded,
    decode (encode [0; 1; -1; 1 # 2; -1 # 3]%Q) = Some decoded /\
    Forall2 withinOneStep [0; 1; -1; 1 # 2; -1 # 3]%Q decoded.
Proof.
  refine (proj2 (pcm16_base64_round_trip [0; 1; -1; 1 # 2; -1 # 3]%Q _)).
  repeat constructor; unfold Qle; simpl; lia.
Defined.

End Pcm16RoundTrip.

(* --------------------------------------------------------------------- *)
(** ** The orchestrator                                                   *)
(* --------------------------------------------------------------------- *)

Module Orchestrator.
Import JsString AskService.

Section Turn.

Variable parseToken : string -> string.
Variable getSystemPrompt : string -> string.
Variable conversationalPrompt : string -> string.

Lemma streamChatCalls_app a b :
  streamChatCalls (a ++ b) = streamChatCalls a ++ streamChatCalls b.
Proof.
  induction a as [|x a IH]; [reflexivity |].
  destruct x; cbn; rewrite ?IH; reflexivity.
Qed.

Lemma processLines_calls lines : forall full s,
  streamChatCalls (snd (fst (processLines parseToken lines full s))) = [].
Proof.
  induction lines as [|line rest IH]; intros full s; cbn [processLines]; [reflexivity |].
  destruct (startsWith line "data: "); [| apply IH].
  destruct (String.eqb _ "[DONE]"); [reflexivity |].
  destruct (truthy _); [| apply IH].
  specialize (IH (full ++ parseToken (substringFrom 6 line))%string
                 (withResponse (full ++ parseToken (substringFrom 6 line))%string s)).
  destruct (processLines _ _ _ _) as [[[f s''] out] done]. exact IH.
Qed.

Lemma readChunks_calls cs : forall full s,
  streamChatCalls (snd (fst (readChunks parseToken cs full s))) = [].
Proof.
  induction cs as [|c rest IH]; intros full s; cbn [readChunks]; [reflexivity |].
  pose proof (processLines_calls (nonBlankLines c) full s) as P.
  destruct (processLines _ _ _ _) as [[[f s'] out] done]. cbn [fst snd] in P.
  destruct done; [exact P |].
  specialize (IH f s').
  destruct (readChunks _ _ _ _) as [[[f' s''] out'] done']. cbn [fst snd] in *.
  now rewrite streamChatCalls_app, P, IH.
Qed.

Lemma processStream_calls env w r s :
  streamChatCalls (snd (_processStream parseToken env w r s)) = [].
Proof.
  unfold _processStream.
  pose proof (readChunks_calls (chunks r) "" (withStreaming false true s)) as P.
  destruct (readChunks _ _ _ _) as [[[full s1] out] done]. cbn [fst snd] in *.
  cbn [streamChatCalls]. rewrite !streamChatCalls_app, P. cbn [app].
  destruct done, (failure r), (aborted env), w, (truthy full); reflexivity.
Qed.

Lemma hasImage_textOnly userPrompt history :
  hasImage (textOnlyMessages getSystemPrompt userPrompt history) = false.
Proof. reflexivity. Qed.

Lemma hasImage_primary userPrompt history shot :
  hasImage (primaryMessages getSystemPrompt userPrompt history shot) = truthyOpt shot.
Proof.
  destruct shot as [b|]; [| reflexivity].
  unfold hasImage, primaryMessages, imagePart. cbn. destruct (truthy b); reflexivity.
Qed.

(** The effects and the outcome of a turn whose first stream call fails. *)
Lemma streamTurn_first_call_fails env userPrompt history voiceMode s e :
  streamChat env (primaryMessages getSystemPrompt userPrompt history (screenshot env)) = inl e ->
  let first := primaryMessages getSystemPrompt userPrompt history (screenshot env) in
  let retry := textOnlyMessages getSystemPrompt userPrompt history in
  let r := streamTurn parseToken getSystemPrompt conversationalPrompt
             env userPrompt history voiceMode s in
  if truthyOpt (screenshot env) && _isMultimodalError e then
    streamChatCalls (snd (fst r)) = [first; retry] /\
    (forall e2, streamChat env retry = inl e2 -> snd r = inr e2)
  else
    streamChatCalls (snd (fst r)) = [first] /\ snd r = inr e /\ fst (fst r) = s.
Proof.
  intros H. cbv zeta. unfold streamTurn. rewrite H.
  destruct (truthyOpt (screenshot env) && _isMultimodalError e).
  - destruct (streamChat env (textOnlyMessages getSystemPrompt userPrompt history)) as [e2|r2].
    + split; [reflexivity |]. intros e3 [= ->]. reflexivity.
    + split; [| intros e3 [=]].
      destruct (windowAtFallback env); cbn [negb]; [| reflexivity].
      pose proof (processStream_calls env (windowAtStreamError env) r2 s) as P.
      destruct (_processStream _ _ _ _ _) as [s1 out1]. cbn [fst snd] in *.
      cbn [streamChatCalls]. now rewrite P.
  - repeat split; reflexivity.
Qed.

(** What [sendMessage] makes of the stream part of a turn that reaches it. *)
Lemma sendMessage_reaches env userPrompt history sv :
  reachesStream env = true ->
  exists s0 voiceMode opening parallel,
    streamChatCalls opening = [] /\ streamChatCalls parallel = [] /\
    voiceMode = (isListening (state sv) || truthy (sttTranscription (state sv))) /\
    let t := streamTurn parseToken getSystemPrompt conversationalPrompt
               env userPrompt history voiceMode s0 in
    let r := sendMessage parseToken getSystemPrompt conversationalPrompt
               env userPrompt history sv in
    match snd t with
    | inl res =>
        r = (mkService true (fst (fst t)), opening ++ parallel ++ snd (fst t), res)
    | inr e =>
        snd r = mkResult false (message e) /\
        isLoading (state (fst (fst r))) = false /\
        isStreaming (state (fst (fst r))) = false /\
        showTextInput (state (fst (fst r))) = true /\
        conversationalResponse (state (fst (fst r))) = conversationalResponse (fst (fst t)) /\
        streamChatCalls (snd (fst r)) = streamChatCalls (snd (fst t))
    end.
Proof.
  intros H. unfold reachesStream in H.
  destruct (sessionError env) eqn:E1; [discriminate |].
  destruct (saveUserError env) eqn:E2; [discriminate |].
  destruct (llmModel env) as [mi|] eqn:E3; [| discriminate].
  set (s0 := mkState (isVisible (state sv)) true false userPrompt ""
               (conversationalResponse (state sv)) false
               (isListening (state sv)) (sttTranscription (state sv))).
  set (voiceMode := isListening (state sv) || truthy (sttTranscription (state sv))).
  exists s0, voiceMode,
    ((RequestVisibility true :: BroadcastState s0
      :: (if abortController sv then [AbortPrevious "New request received."] else []))
     ++ [AddAiMessage "user" (trim userPrompt)]),
    (if voiceMode
     then [ConversationalStreamChat
             (conversationalMessages conversationalPrompt userPrompt (screenshot env))]
     else []).
  split; [destruct (abortController sv); reflexivity |].
  split; [destruct voiceMode; reflexivity |].
  split; [reflexivity |].
  cbv zeta. unfold sendMessage, turnBody. rewrite E1, E2, E3, H. cbn [negb].
  fold s0. change (isListening s0 || truthy (sttTranscription s0)) with voiceMode.
  destruct (streamTurn _ _ _ _ _ _ _ _) as [[s1 out] [res|e]]; cbn [fst snd].
  - now rewrite <- !app_assoc.
  - repeat split.
    rewrite !streamChatCalls_app. cbn [streamChatCalls app].
    destruct (abortController sv), voiceMode, (windowAtError env);
      cbn [streamChatCalls app]; now rewrite ?app_nil_r.
Qed.

Lemma mergeConversational_calls w text s :
  streamChatCalls (snd (mergeConversational w text s)) = [].
Proof.
  unfold mergeConversational. destruct (truthy text), w; reflexivity.
Qed.

(** Once the first stream is open, nothing is retried: an error of a later
    read is handled inside [_processStream], and the turn completes. *)
Lemma opened_stream_is_not_retried env userPrompt history sv rd :
  reachesStream env = true ->
  streamChat env (primaryMessages getSystemPrompt userPrompt history (screenshot env))
    = inr rd ->
  windowAtStream env = true ->
  let r := sendMessage parseToken getSystemPrompt conversationalPrompt
             env userPrompt history sv in
  streamChatCalls (snd (fst r))
  = [primaryMessages getSystemPrompt userPrompt history (screenshot env)] /\
  snd r = mkResult true None.
Proof.
  intros Hreach Hstream Hwin. cbv zeta.
  destruct (sendMessage_reaches env userPrompt history sv Hreach)
    as (s0 & voiceMode & opening & parallel & Ho & Hp & _ & Hsend).
  cbv zeta in Hsend. unfold streamTurn in Hsend.
  rewrite Hstream, Hwin in Hsend. cbn [negb] in Hsend.
  pose proof (processStream_calls env (windowAtStreamError env) rd s0) as P.
  destruct (_processStream parseToken env (windowAtStreamError env) rd s0) as [s1 out1].
  cbn [snd] in P.
  match type of Hsend with context [if voiceMode then ?a else ?b] =>
    assert (M : streamChatCalls (snd (if voiceMode then a else b)) = [])
      by (destruct voiceMode; [apply mergeConversational_calls | reflexivity]);
    destruct (if voiceMode then a else b) as [s2 out2]
  end.
  cbn [fst snd] in Hsend, M. rewrite Hsend. cbn [fst snd].
  split; [| reflexivity].
  rewrite !streamChatCalls_app, Ho, Hp. cbn [streamChatCalls app].
  now rewrite streamChatCalls_app, P, M.
Qed.

(** The failures of the spoken-style generation: its stream call rejects,
    or a read of its stream does. *)
Lemma conversationalAttempt_fails env userPrompt shot e :
  conversationalAttempt parseToken conversationalPrompt env userPrompt shot = inl e <->
  conversationalStreamChat env (conversationalMessages conversationalPrompt userPrompt shot)
    = inl e \/
  exists r,
    conversationalStreamChat env (conversationalMessages conversationalPrompt userPrompt shot)
      = inr r /\ failure r = Some e.
Proof.
  unfold conversationalAttempt.
  destruct (conversationalStreamChat env _) as [e'|r].
  - split; [intros [= ->]; now left | intros [[= ->] | (r & [=] & _)]; reflexivity].
  - destruct (failure r) as [e'|] eqn:F.
    + split.
      * intros [= ->]. right. now exists r.
      * intros [[=] | (r' & [= <-] & F')]. congruence.
    + split; [discriminate |].
      intros [[=] | (r' & [= <-] & F')]. congruence.
Qed.



End Turn.


End Orchestrator.

(* --------------------------------------------------------------------- *)
(** ** Further properties of the normalizer                               *)
(* --------------------------------------------------------------------- *)

Module SttProperties.
Import JsString JsStringFacts AskSttService SttStates AskSttServiceAwaits.

Lemma sameSession_refl s : sameSession s s.
Proof. repeat split. Qed.

Lemma sameSession_transcription t s : sameSession s (withTranscription t s).
Proof. repeat split. Qed.

Create HintDb stt.
#[local] Hint Resolve sameSession_refl sameSession_transcription : stt.

Lemma whisperArm_session s m : sameSession s (fst (fst (whisperArm s m))).
Proof.
  unfold whisperArm. destruct (text m) as [t|]; auto with stt.
  destruct (truthy t && truthy (trim t)); auto with stt.
  destruct (negb (isNoise (trim t)) && _); cbn; auto with stt.
Qed.

Lemma deepgramArm_session s m : sameSession s (fst (fst (deepgramArm s m))).
Proof.
  unfold deepgramArm. destruct (channelTranscript m) as [t|]; auto with stt.
  destruct (negb (truthy t) || _); auto with stt.
  destruct (is_final m); cbn; auto with stt.
Qed.

Lemma geminiArm_session s m : sameSession s (fst (fst (geminiArm s m))).
Proof.
  unfold geminiArm. destruct (turnComplete m); auto with stt.
  destruct (inputTranscriptionText m) as [c|]; auto with stt.
  destruct (negb (truthy c)); auto with stt.
  destruct (negb (truthy (trim c)) || _); cbn; auto with stt.
Qed.

Lemma otherArm_session s m : sameSession s (fst (fst (otherArm s m))).
Proof.
  unfold otherArm. destruct (type m) as [ty|]; auto with stt.
  destruct (String.eqb ty deltaType); cbn; auto with stt.
  destruct (String.eqb ty completedType); auto with stt.
  match goal with |- context [truthy ?x && truthy (trim ?x)] =>
    destruct (truthy x && truthy (trim x)) end; cbn; auto with stt.
Qed.

Lemma handleMessage_closed s m : modelInfo s = None -> handleMessage s m = (s, []).
Proof. intros H. unfold handleMessage. now rewrite H. Qed.

(** The state [handleMessage] returns is the state its arm returns. *)
Lemma handleMessage_state s m :
  fst (handleMessage s m) = s \/
  exists info, modelInfo s = Some info /\
    fst (handleMessage s m) =
      fst (fst (if String.eqb (provider info) "whisper" then whisperArm s m
                else if String.eqb (provider info) "deepgram" then deepgramArm s m
                else if String.eqb (provider info) "gemini" then geminiArm s m
                else otherArm s m)).
Proof.
  unfold handleMessage. destruct (modelInfo s) as [info|]; [| now left].
  right. exists info. split; [reflexivity |].
  destruct (if String.eqb (provider info) "whisper" then _ else _) as [[s' out] ft].
  cbn [fst]. destruct ft; [| reflexivity].
  destruct (error m) as [e|]; [| reflexivity]. destruct (truthy e); reflexivity.
Qed.

Lemma handleMessage_session s m : sameSession s (fst (handleMessage s m)).
Proof.
  destruct (handleMessage_state s m) as [-> | (info & _ & ->)]; auto with stt.
  destruct (String.eqb (provider info) "whisper"); [apply whisperArm_session |].
  destruct (String.eqb (provider info) "deepgram"); [apply deepgramArm_session |].
  destruct (String.eqb (provider info) "gemini"); [apply geminiArm_session |].
  apply otherArm_session.
Qed.

Lemma run_fst_cons o rest s :
  fst (run (o :: rest) s) = fst (run rest (fst (step o s))).
Proof.
  cbn [run]. destruct (step o s) as [s1 out1]. cbn [fst].
  destruct (run rest s1) as [s2 out2]. reflexivity.
Qed.

(** The whole calls are their segments run back to back. *)
Lemma initializeSession_segments info created s :
  initializeSession info created s
  = let '(s1, out1, waits) := initializeSession_resolved info s in
    if waits then
      let '(s2, out2, r) := initializeSession_created created s1 in (s2, out1 ++ out2, r)
    else (s1, out1, false).
Proof.
  unfold initializeSession, initializeSession_resolved, initializeSession_created.
  destruct info as [mi|]; [| reflexivity].
  destruct (truthy (apiKey mi)); [| reflexivity].
  destruct created; reflexivity.
Qed.

Lemma closeSession_segments s :
  closeSession s
  = let '(s1, out1, waits) := closeSession_called s in
    if waits then
      let '(s2, out2) := closeSession_settled s1 in (s2, out1 ++ out2, Returned)
    else (s1, out1, Returned).
Proof.
  unfold closeSession, closeSession_called, closeSession_settled.
  destruct (sttSession s); reflexivity.
Qed.

(** Every whole call keeps the service listening only with a session. *)
Lemma step_listens o s :
  listensWithSession s -> listensWithSession (fst (step o s)).
Proof.
  unfold listensWithSession.
  intros L. destruct o as [cb|info created|m|msg| | | |d mt f| |]; cbn [step].
  - exact L.
  - unfold initializeSession.
    destruct info as [mi|]; [| exact L].
    destruct (truthy (apiKey mi)); [| exact L].
    destruct created as [msg|sess]; cbn; [exact L | discriminate].
  - destruct (handleMessage_session s m) as (A & B & _). now rewrite A, B.
  - exact L.
  - cbn. discriminate.
  - unfold startListening. destruct (sttSession s) as [sess|] eqn:E; cbn;
      [| rewrite E; exact L].
    destruct (isListening s); cbn; intros _; rewrite ?E; discriminate.
  - unfold stopListening. destruct (isListening s) eqn:F; cbn; [discriminate |].
    now rewrite F.
  - assert (E : fst (fst (sendAudioData d mt f s)) = s).
    { unfold sendAudioData. destruct (sttSession s); [| reflexivity].
      destruct (isListening s); [| reflexivity].
      now destruct (match modelInfo s with Some mi => Some mi | None => f end). }
    destruct (sendAudioData d mt f s) as [[s' out] c]. cbn [fst] in *. now subst s'.
  - exact L.
  - cbn. discriminate.
Qed.

(** A whole call other than [closeSession] never takes the model
    information away, and gains a session only together with it. *)
Lemma step_keeps_model o s :
  o <> OpCloseSession ->
  (modelInfo s <> None -> modelInfo (fst (step o s)) <> None) /\
  (sttSession (fst (step o s)) <> None ->
   sttSession s <> None \/ modelInfo (fst (step o s)) <> None).
Proof.
  intros N. destruct o as [cb|info created|m|msg| | | |d mt f| |]; cbn [step];
    try (split; [intros H; exact H | intros H; left; exact H]).
  - unfold initializeSession.
    destruct info as [mi|]; [| split; [intros H; exact H | intros H; left; exact H]].
    destruct (truthy (apiKey mi)); [| split; [intros H; exact H | intros H; left; exact H]].
    destruct created as [msg|sess]; cbn; split; intros; try right; discriminate.
  - destruct (handleMessage_session s m) as (A & _ & C & _). rewrite A, C.
    split; [intros H; exact H | intros H; left; exact H].
  - unfold startListening. destruct (sttSession s) as [sess|] eqn:E; cbn;
      [| split; [intros H; exact H | intros H; left; congruence]].
    destruct (isListening s); cbn; split; intros H; try exact H; left; congruence.
  - unfold stopListening. destruct (isListening s); cbn;
      split; intros H; try exact H; left; exact H.
  - unfold sendAudioData. destruct (sttSession s) as [sess|] eqn:E; cbn;
      [| split; [intros H; exact H | intros H; left; congruence]].
    destruct (isListening s); cbn;
      [| split; [intros H; exact H | intros H; left; congruence]].
    destruct (match modelInfo s with Some mi => Some mi | None => f end); cbn;
      split; intros H; try exact H; left; congruence.
  - congruence.
Qed.

Lemma resume_listens g w :
  listensWithSession (svc w) -> listensWithSession (svc (resume g w)).
Proof.
  intros L. destruct g as [o|info|created| |]; cbn [resume].
  - cbn [svc]. now apply step_listens.
  - unfold initializeSession_resolved.
    destruct info as [mi|]; [| exact L].
    destruct (truthy (apiKey mi)); exact L.
  - destruct (initializing w); [exact L |].
    destruct created as [msg|sess]; cbn; [exact L |]. intros _. discriminate.
  - unfold closeSession_called. destruct (sttSession (svc w)) eqn:E; cbn; [exact L |].
    discriminate.
  - destruct (closing w); [exact L |]. cbn. discriminate.
Qed.

Lemma across_listens gs w :
  listensWithSession (svc w) -> listensWithSession (svc (across gs w)).
Proof.
  revert w. induction gs as [|g rest IH]; intros w L; [exact L |].
  cbn [across]. apply IH. now apply resume_listens.
Qed.

Lemma resume_knowsModel g w :
  negb (completesClose g w) || (initializing w =? 0)%nat = true ->
  knowsModel w -> knowsModel (resume g w).
Proof.
  unfold knowsModel. intros Q K. destruct g as [o|info|created| |]; cbn [resume].
  - cbn [svc initializing].
    destruct o as [cb|info created|m|msg| | | |d mt f| |];
      try (match goal with |- context [step ?o _] =>
             destruct (step_keeps_model o (svc w)) as [A B]; [discriminate |] end;
           intros [H | H]; [apply A, K; now left |];
           destruct (B H) as [H1 | H1]; [apply A, K; now right | exact H1]).
    cbn [completesClose negb orb] in Q. apply Nat.eqb_eq in Q.
    cbn. intros [H | H]; [lia | now elim H].
  - unfold initializeSession_resolved.
    destruct info as [mi|]; [| exact K].
    destruct (truthy (apiKey mi)); [| exact K]. cbn. discriminate.
  - destruct (initializing w) as [|n] eqn:E; [rewrite E; exact K |].
    assert (M : modelInfo (svc w) <> None) by (apply K; left; lia).
    destruct created as [msg|sess]; cbn; intros _; exact M.
  - unfold closeSession_called. cbn [completesClose] in Q.
    destruct (sttSession (svc w)) eqn:E; cbn; [rewrite E; exact K |].
    cbn [negb orb] in Q. apply Nat.eqb_eq in Q.
    intros [H | H]; [lia | now elim H].
  - cbn [completesClose] in Q.
    destruct (closing w) as [|n] eqn:E; [exact K |].
    cbn in Q. apply Nat.eqb_eq in Q. cbn.
    intros [H | H]; [lia | now elim H].
Qed.

Lemma across_knowsModel gs w :
  closesOutsideInitialization gs w = true -> knowsModel w -> knowsModel (across gs w).
Proof.
  revert w. induction gs as [|g rest IH]; intros w Q K; [exact K |].
  cbn [across closesOutsideInitialization] in *. apply andb_prop in Q as [Q1 Q2].
  apply IH; [exact Q2 |]. now apply resume_knowsModel.
Qed.

(** X1: whatever the order in which the entry points, the adapter callbacks
    and the pieces of [initializeSession] and [closeSession] on either side
    of their [await]s run on a fresh service, the service listens only while it holds a
    session, so that [isActive()] is the listening flag. *)
Theorem service_listens_only_with_a_session (gs : list segment) :
  (isListening (svc (across gs start)) = true -> sttSession (svc (across gs start)) <> None) /\
  isActive (svc (across gs start)) = isListening (svc (across gs start)).
Proof.
  assert (L : listensWithSession (svc (across gs start)))
    by (apply across_listens; discriminate).
  unfold listensWithSession in L. split; [exact L |].
  unfold isActive. destruct (sttSession (svc (across gs start))); [reflexivity |].
  destruct (isListening (svc (across gs start))); [| reflexivity].
  now elim (L eq_refl).
Qed.

(** X2: as long as no [closeSession] completes while an
    [initializeSession] waits for the adapter, the service holds a session
    only together with the model information, and [sendAudioData] never
    consults the model information fetched on the fly: its outcome is the
    same whatever that lookup would return. *)
Theorem fallback_needs_a_close_during_initialization
    (gs : list segment) (data : string) (mimeType : option string)
    (fetched fetched' : option ModelInfo) :
  closesOutsideInitialization gs start = true ->
  (sttSession (svc (across gs start)) <> None -> modelInfo (svc (across gs start)) <> None) /\
  sendAudioData data mimeType fetched (svc (across gs start))
  = sendAudioData data mimeType fetched' (svc (across gs start)).
Proof.
  intros Q.
  assert (K : knowsModel (across gs start)).
  { apply across_knowsModel; [exact Q |]. intros [H | H]; [cbn in H; lia | now elim H]. }
  unfold knowsModel in K. split; [intros H; apply K; now right |].
  unfold sendAudioData. destruct (sttSession (svc (across gs start))) as [sess|]; [| reflexivity].
  destruct (modelInfo (svc (across gs start))); [reflexivity |].
  elim K; [right; discriminate | reflexivity].
Qed.

Lemma fallback_needs_a_close_during_initialization_witness :
  let gs := [ ModelInfoResolved (Some (mkModelInfo "whisper" "key" "model"));
              SttCreated (inr (mkSession false false));
              Whole OpStartListening;
              CloseCalled;
              Whole (OpMessage (textMessage "hello there"));
              CloseSettled;
              ModelInfoResolved (Some (mkModelInfo "gemini" "key" "model"));
              SttCreated (inr (mkSession false false));
              Whole OpStartListening ] in
  (sttSession (svc (across gs start)) <> None -> modelInfo (svc (across gs start)) <> None) /\
  sendAudioData "AAAA" None None (svc (across gs start))
  = sendAudioData "AAAA" None (Some (mkModelInfo "deepgram" "key" "model")) (svc (across gs start)).
Proof.
  intros gs.
  apply (fallback_needs_a_close_during_initialization gs "AAAA" None None
           (Some (mkModelInfo "deepgram" "key" "model"))).
  reflexivity.
Defined.

(** A [closeSession] that completes while [initializeSession] waits for the
    adapter leaves, once the adapter is there, a session without model
    information: [sendAudioData] then depends on the lookup made on the
    fly, and provider messages are dropped. *)
Example close_during_initialization_reaches_the_fallback :
  let s := svc (across closedWhileInitializing start) in
  closesOutsideInitialization closedWhileInitializing start = false /\
  sttSession s = Some (mkSession false false) /\ modelInfo s = None /\
  isListening s = true /\
  snd (sendAudioData "AAAA" None None s) = Thrown "STT model info could not be retrieved." /\
  sendAudioData "AAAA" None (Some (mkModelInfo "whisper" "key" "model")) s
  = (s, [SessionSend (RawData "AAAA")], Returned) /\
  handleMessage s (textMessage "hello there") = (s, []).
Proof. cbv. repeat split. Qed.

(** X3: once the session is closed, provider messages that still arrive
    are ignored: any number of them leaves the service as [closeSession]
    left it and invokes no callback. *)
Theorem messages_after_close_are_ignored (s : service) (late : list message) :
  run (map OpMessage late) (fst (fst (closeSession s)))
  = (fst (fst (closeSession s)), []).
Proof.
  induction late as [|m rest IH]; [reflexivity |].
  cbn [map run step]. rewrite handleMessage_closed by reflexivity.
  rewrite IH. reflexivity.
Qed.

Ltac no_events :=
  exists false, "", false, false, ""; split; [reflexivity | discriminate].

Ltac final_pair cb text :=
  exists (onTranscriptionUpdate cb), text, true, (onTranscriptionComplete cb), text;
  split; [reflexivity | intros _; repeat split; auto].

Lemma whisperArm_shape s m : armShape (whisperArm s m).
Proof.
  unfold whisperArm. destruct (text m) as [t|]; [| no_events].
  destruct (truthy t && truthy (trim t)) eqn:E; [| no_events].
  destruct (negb (isNoise (trim t)) && _); [| no_events].
  apply andb_prop in E. final_pair (cbs s) (trim t). tauto.
Qed.

Lemma deepgramArm_shape s m : armShape (deepgramArm s m).
Proof.
  unfold deepgramArm. destruct (channelTranscript m) as [t|]; [| no_events].
  destruct (truthy t) eqn:E; cbn [negb orb]; [| no_events].
  destruct (String.length (trim t) =? 0)%nat; [no_events |].
  destruct (is_final m); [final_pair (cbs s) t |].
  exists (onTranscriptionUpdate (cbs s)), t, false, false, "".
  split; [now rewrite app_nil_r | discriminate].
Qed.

Lemma geminiArm_shape s m : armShape (geminiArm s m).
Proof.
  unfold geminiArm. destruct (turnComplete m).
  - destruct (truthy (currentTranscription s)) eqn:E; [| no_events].
    exists false, "", false, (onTranscriptionComplete (cbs s)), (currentTranscription s).
    split; [reflexivity |]. intros _. repeat split; [exact E | discriminate | discriminate].
  - destruct (inputTranscriptionText m) as [c|]; [| no_events].
    destruct (negb (truthy c)); [no_events |].
    destruct (negb (truthy (trim c)) || _); [no_events |].
    exists (onTranscriptionUpdate (cbs s)),
           (currentTranscription s ++ c)%string, false, false, "".
    split; [now rewrite app_nil_r | discriminate].
Qed.

Lemma otherArm_shape s m : armShape (otherArm s m).
Proof.
  unfold otherArm. destruct (type m) as [ty|]; [| no_events].
  destruct (String.eqb ty deltaType).
  - match goal with |- context [if ?b then emitIf ?r ?e else []] =>
      exists (b && r), (currentTranscription s ++
        match orElse (orElse (orElse (transcript m) (delta m)) (alternativesTranscript m))
                     (Some "") with Some t => t | None => "" end)%string,
        false, false, ""; split; [| discriminate];
      destruct b, r; reflexivity
    end.
  - destruct (String.eqb ty completedType); [| no_events].
    match goal with |- context [truthy ?x && truthy (trim ?x)] =>
      destruct (truthy x && truthy (trim x)) eqn:E; [| no_events];
      apply andb_prop in E; final_pair (cbs s) (trim x); tauto
    end.
Qed.

Lemma armOf_shape info s m : armShape (armOf info s m).
Proof.
  unfold armOf.
  destruct (String.eqb (provider info) "whisper"); [apply whisperArm_shape |].
  destruct (String.eqb (provider info) "deepgram"); [apply deepgramArm_shape |].
  destruct (String.eqb (provider info) "gemini"); [apply geminiArm_shape |].
  apply otherArm_shape.
Qed.

(** [handleMessage] is its arm followed by the error check. *)
Lemma handleMessage_arm s info m :
  modelInfo s = Some info ->
  handleMessage s m
  = (fst (fst (armOf info s m)),
     snd (fst (armOf info s m))
     ++ errorPart (fst (fst (armOf info s m))) (snd (armOf info s m)) m).
Proof.
  intros Hi. unfold handleMessage. rewrite Hi.
  fold (armOf info s m). destruct (armOf info s m) as [[s' out] ft]. cbn [fst snd].
  unfold errorPart. destruct ft; [| now rewrite app_nil_r].
  destruct (error m) as [e|]; [| now rewrite app_nil_r].
  destruct (truthy e); [reflexivity | now rewrite app_nil_r].
Qed.

Lemma errorPart_shape s' ft m : exists be e, errorPart s' ft m = emitIf be (Error e).
Proof.
  unfold errorPart. destruct ft; [| now exists false, ""].
  destruct (error m) as [e|]; [| now exists false, ""].
  destruct (truthy e); [now exists (onError (cbs s')), e | now exists false, ""].
Qed.

Lemma in_emitIf b e x : In x (emitIf b e) -> b = true /\ x = Emit e.
Proof. destruct b; cbn; [intros [<- | []]; now split | intros []]. Qed.

(** X4: whenever a message raises the completion callback, for any
    provider, the text it carries is non-empty and is exactly what the
    accumulator holds afterwards. *)
Theorem completion_carries_the_accumulator (s : service) (m : message) (t : string) :
  In (Emit (TranscriptionComplete t)) (snd (handleMessage s m)) ->
  truthy t = true /\ currentTranscription (fst (handleMessage s m)) = t.
Proof.
  intros H. destruct (modelInfo s) as [info|] eqn:Hi.
  - rewrite (handleMessage_arm s info m Hi) in *. cbn [fst snd] in *.
    destruct (armOf_shape info s m) as (bu & u & f & bc & c & Hout & Hc).
    destruct (errorPart_shape (fst (fst (armOf info s m))) (snd (armOf info s m)) m)
      as (be & e & He).
    rewrite Hout, He in H.
    apply in_app_or in H. destruct H as [H | H];
      [apply in_app_or in H; destruct H as [H | H] |];
      apply in_emitIf in H; destruct H as [Hb H]; try discriminate.
    injection H as ->. destruct (Hc Hb) as (A & B & _). now split.
  - rewrite (handleMessage_closed s m Hi) in H. destruct H.
Qed.

Lemma completion_carries_the_accumulator_witness :
  truthy "hello" = true /\
  currentTranscription
    (fst (handleMessage (openService "deepgram")
            (mkMessage None (Some "hello") true false None None None None None None)))
  = "hello".
Proof.
  apply (completion_carries_the_accumulator (openService "deepgram")
           (mkMessage None (Some "hello") true false None None None None None None)).
  vm_compute. right. left. reflexivity.
Defined.

(** X5: one provider message invokes each callback at most once and in a
    fixed order: a transcription update, then the completion, then the
    error report; it never reports a status and never calls the adapter.
    When both an update and a completion are raised, the update is the
    final one for the same text. *)
Theorem one_message_raises_each_callback_at_most_once (s : service) (m : message) :
  exists bu u f bc c be e,
    snd (handleMessage s m)
    = emitIf bu (TranscriptionUpdate u f) ++ emitIf bc (TranscriptionComplete c)
      ++ emitIf be (Error e) /\
    (bu = true -> bc = true -> u = c /\ f = true).
Proof.
  destruct (modelInfo s) as [info|] eqn:Hi.
  - destruct (armOf_shape info s m) as (bu & u & f & bc & c & Hout & Hc).
    destruct (errorPart_shape (fst (fst (armOf info s m))) (snd (armOf info s m)) m)
      as (be & e & He).
    exists bu, u, f, bc, c, be, e.
    rewrite (handleMessage_arm s info m Hi). cbn [snd]. rewrite Hout, He, <- app_assoc.
    split; [reflexivity |]. intros Hu Hb. now apply Hc.
  - exists false, "", false, false, "", false, "".
    rewrite (handleMessage_closed s m Hi). split; [reflexivity | discriminate].
Qed.

Lemma whisperArm_falls_through s m : snd (whisperArm s m) = true.
Proof.
  unfold whisperArm. destruct (text m) as [t|]; [| reflexivity].
  destruct (truthy t && truthy (trim t)); [| reflexivity].
  destruct (negb (isNoise (trim t)) && _); reflexivity.
Qed.

Lemma otherArm_falls_through s m : snd (otherArm s m) = true.
Proof.
  unfold otherArm. destruct (type m) as [ty|]; [| reflexivity].
  destruct (String.eqb ty deltaType); [reflexivity |].
  destruct (String.eqb ty completedType); [| reflexivity].
  match goal with |- context [truthy ?x && truthy (trim ?x)] =>
    destruct (truthy x && truthy (trim x)) end; reflexivity.
Qed.

Lemma arm_keeps_callbacks info s m : cbs (fst (fst (armOf info s m))) = cbs s.
Proof.
  unfold armOf.
  destruct (String.eqb (provider info) "whisper"); [apply whisperArm_session |].
  destruct (String.eqb (provider info) "deepgram"); [apply deepgramArm_session |].
  destruct (String.eqb (provider info) "gemini"); [apply geminiArm_session |].
  apply otherArm_session.
Qed.

(** X6: for every provider other than the two whose arms return early
    (deepgram and gemini), a message that carries an error field is always
    reported through the error callback, whatever else it holds. *)
Theorem error_field_is_reported
    (s : service) (info : ModelInfo) (m : message) (e : string) :
  modelInfo s = Some info ->
  provider info <> "deepgram" -> provider info <> "gemini" ->
  error m = Some e -> truthy e = true -> onError (cbs s) = true ->
  In (Emit (Error e)) (snd (handleMessage s m)).
Proof.
  intros Hi Hd Hg He Ht Hcb.
  assert (Hft : snd (armOf info s m) = true).
  { unfold armOf. destruct (String.eqb (provider info) "whisper");
      [apply whisperArm_falls_through |].
    destruct (String.eqb_spec (provider info) "deepgram"); [contradiction |].
    destruct (String.eqb_spec (provider info) "gemini"); [contradiction |].
    apply otherArm_falls_through. }
  rewrite (handleMessage_arm s info m Hi). cbn [snd]. apply in_or_app. right.
  unfold errorPart. rewrite Hft, He, Ht, arm_keeps_callbacks, Hcb. now left.
Qed.

Lemma error_field_is_reported_witness :
  In (Emit (Error "quota exceeded"))
     (snd (handleMessage (openService "whisper")
             (mkMessage (Some "hello") None false false None None None None None
                        (Some "quota exceeded")))).
Proof.
  apply (error_field_is_reported (openService "whisper")
           (mkModelInfo "whisper" "key" "model")); try reflexivity; discriminate.
Defined.

(** X7: the streaming interim/final arm returns before the error check
    when the message has no transcript, or a blank one: such a message
    changes nothing and invokes no callback, even when it carries an error
    field. *)
Theorem deepgram_message_without_transcript_is_dropped
    (s : service) (info : ModelInfo) (m : message) :
  modelInfo s = Some info -> provider info = "deepgram" ->
  match channelTranscript m with
  | Some t => truthy (trim t) = false
  | None => True
  end ->
  handleMessage s m = (s, []).
Proof.
  intros Hi Hp Ht. rewrite (handleMessage_arm s info m Hi).
  unfold armOf. rewrite Hp. cbn [String.eqb Ascii.eqb Bool.eqb].
  change (String.eqb "deepgram" "whisper") with false.
  change (String.eqb "deepgram" "deepgram") with true. cbv iota.
  unfold deepgramArm. destruct (channelTranscript m) as [t|]; [| reflexivity].
  assert (E : negb (truthy t) || (String.length (trim t) =? 0)%nat = true).
  { destruct (trim t); [apply orb_true_r | discriminate]. }
  now rewrite E.
Qed.

Lemma deepgram_message_without_transcript_is_dropped_witness :
  handleMessage (openService "deepgram")
    (mkMessage None (Some "  ") true false None None None None None (Some "socket closed"))
  = (openService "deepgram", []).
Proof.
  apply (deepgram_message_without_transcript_is_dropped (openService "deepgram")
           (mkModelInfo "deepgram" "key" "model")); reflexivity.
Defined.

Lemma gemini_chunk_step s info c :
  modelInfo s = Some info -> provider info = "gemini" ->
  handleMessage s (geminiChunk c)
  = if appendedChunk c
    then (withTranscription (currentTranscription s ++ c)%string s,
          emitIf (onTranscriptionUpdate (cbs s))
                 (TranscriptionUpdate (currentTranscription s ++ c)%string false))
    else (s, []).
Proof.
  intros Hi Hp. rewrite (handleMessage_arm s info _ Hi).
  unfold armOf. rewrite Hp.
  change (String.eqb "gemini" "whisper") with false.
  change (String.eqb "gemini" "deepgram") with false.
  change (String.eqb "gemini" "gemini") with true. cbv iota.
  unfold geminiArm, appendedChunk, errorPart. cbn [turnComplete inputTranscriptionText geminiChunk error].
  destruct (truthy c); cbn [negb andb]; [| reflexivity].
  destruct (truthy (trim c)); cbn [negb andb orb]; [| reflexivity].
  destruct (String.eqb (trim c) "<noise>"); cbn [negb fst snd]; [reflexivity |].
  now rewrite app_nil_r.
Qed.

(** X8: in the turn-based arm the accumulator after any sequence of
    transcription chunks is the old accumulator followed by the chunks in
    order, leaving out the blank ones and the no-speech token; the
    turn-complete message then raises the completion with the whole
    accumulated text (when it is non-empty) and does not reset it. *)
Theorem gemini_accumulates_chunks (s : service) (info : ModelInfo) (cs : list string) :
  modelInfo s = Some info -> provider info = "gemini" ->
  let s' := fst (run (map (fun c => OpMessage (geminiChunk c)) cs) s) in
  currentTranscription s'
  = (currentTranscription s ++ fold_right String.append "" (filter appendedChunk cs))%string /\
  handleMessage s' geminiTurnComplete
  = (s', if truthy (currentTranscription s')
         then emitIf (onTranscriptionComplete (cbs s'))
                     (TranscriptionComplete (currentTranscription s'))
         else []).
Proof.
  intros Hi Hp. cbv zeta.
  assert (K : currentTranscription
                (fst (run (map (fun c => OpMessage (geminiChunk c)) cs) s))
              = (currentTranscription s
                 ++ fold_right String.append "" (filter appendedChunk cs))%string /\
              modelInfo (fst (run (map (fun c => OpMessage (geminiChunk c)) cs) s))
              = Some info).
  { revert s Hi. induction cs as [|c rest IH]; intros s Hi.
    - cbn. now rewrite append_empty_r.
    - cbn [map]. rewrite run_fst_cons. cbn [step].
      rewrite (gemini_chunk_step s info c Hi Hp). cbn [filter].
      destruct (appendedChunk c); cbn [fst].
      + destruct (IH (withTranscription (currentTranscription s ++ c)%string s) Hi)
          as [A B].
        rewrite A. cbn [currentTranscription withTranscription fold_right].
        now rewrite append_assoc.
      + apply IH, Hi. }
  destruct K as [A B]. split; [exact A |].
  rewrite (handleMessage_arm _ info _ B). unfold armOf. rewrite Hp.
  change (String.eqb "gemini" "whisper") with false.
  change (String.eqb "gemini" "deepgram") with false.
  change (String.eqb "gemini" "gemini") with true. cbv iota.
  unfold geminiArm, errorPart. cbn [turnComplete geminiTurnComplete fst snd].
  now rewrite app_nil_r.
Qed.

Lemma gemini_accumulates_chunks_witness :
  currentTranscription
    (fst (run (map (fun c => OpMessage (geminiChunk c)) ["turn "; "<noise>"; " "; "left"])
              (openService "gemini")))
  = "turn left".
Proof.
  refine (proj1 (gemini_accumulates_chunks (openService "gemini")
                   (mkModelInfo "gemini" "key" "model")
                   ["turn "; "<noise>"; " "; "left"] eq_refl eq_refl)).
Defined.

End SttProperties.

(* --------------------------------------------------------------------- *)
(** ** Further properties of the segmentation                             *)
(* --------------------------------------------------------------------- *)

Module SegmentationProperties.
Import PrimFloat AskAudioCapture AskAudioCaptureRuns Segmentation.

Lemma below_cap_prefix (a b : list float) :
  ~ (MAX_SEGMENT_DURATION <= segmentDuration (a ++ b))%Q ->
  ~ (MAX_SEGMENT_DURATION <= segmentDuration a)%Q.
Proof.
  intros H K. apply H. apply max_duration_samples in K. apply max_duration_samples.
  rewrite length_app. lia.
Qed.

Lemma last_default {A : Type} (b : list A) (d d' : A) :
  b <> [] -> last b d = last b d'.
Proof.
  induction b as [|y b IH]; [congruence |]. intros _.
  destruct b as [|z b]; [reflexivity |].
  change (last (z :: b) d = last (z :: b) d'). apply IH. discriminate.
Qed.

Lemma last_app_nonempty {A : Type} (a b : list A) (d : A) :
  b <> [] -> last (a ++ b) d = last b (last a d).
Proof.
  intros Hb. rewrite (last_default b (last a d) d Hb).
  induction a as [|x a IH]; [reflexivity |].
  cbn [app]. rewrite last_cons, <- IH. apply last_default.
  intros E. apply app_eq_nil in E. destruct E; congruence.
Qed.

Lemma feed_cons f rest s :
  feed (f :: rest) s
  = (fst (handleFrame f s) :: fst (feed rest (fst (handleFrame f s))),
     snd (handleFrame f s) ++ snd (feed rest (fst (handleFrame f s)))).
Proof.
  cbn [feed]. destruct (handleFrame f s) as [s1 out1]. cbn [fst snd].
  destruct (feed rest s1) as [states out2]. reflexivity.
Qed.

Lemma feed_app a : forall b s,
  feed (a ++ b) s
  = (fst (feed a s) ++ fst (feed b (lastState s (fst (feed a s)))),
     snd (feed a s) ++ snd (feed b (lastState s (fst (feed a s))))).
Proof.
  induction a as [|f a IH]; intros b s.
  - cbn. now destruct (feed b s).
  - cbn [app]. rewrite !feed_cons, IH. cbn [fst snd].
    unfold lastState. rewrite last_cons, <- app_assoc. reflexivity.
Qed.

(** A voiced frame that leaves the buffer below the cap is only buffered;
    it starts active speech when it completes the threshold. *)
Lemma voiced_frame_buffered c lvl s :
  ~ (MAX_SEGMENT_DURATION <= segmentDuration (currentSegment s ++ c))%Q ->
  handleVoiceSegment c true lvl s =
    (withSegmentation (currentSegment s ++ c)
       (isCurrentlyVoice s || (VOICE_THRESHOLD_FRAMES <=? S (voiceFrameCount s))%nat)
       0 (S (voiceFrameCount s)) s,
     [UpdateVoiceActivityUI true lvl]).
Proof.
  intros Hcap. unfold handleVoiceSegment.
  assert (E : Qle_bool MAX_SEGMENT_DURATION (segmentDuration (currentSegment s ++ c)) = false).
  { destruct (Qle_bool _ _) eqn:Q; [| reflexivity].
    apply Qle_bool_iff in Q. contradiction. }
  unfold withSegmentation at 1. cbn [currentSegment]. rewrite E.
  destruct (isCurrentlyVoice s); cbn [negb andb orb]; [reflexivity |].
  destruct (VOICE_THRESHOLD_FRAMES <=? S (voiceFrameCount s))%nat; reflexivity.
Qed.

(** A no-voice frame in active speech below the silence threshold and
    below the cap is only buffered. *)
Lemma pause_frame_buffered c lvl s :
  isCurrentlyVoice s = true ->
  (S (silenceFrameCount s) < SILENCE_THRESHOLD_FRAMES)%nat ->
  ~ (MAX_SEGMENT_DURATION <= segmentDuration (currentSegment s ++ c))%Q ->
  handleVoiceSegment c false lvl s =
    (withSegmentation (currentSegment s ++ c) true (S (silenceFrameCount s)) 0 s,
     [UpdateVoiceActivityUI false lvl]).
Proof.
  intros Hv Hn Hcap. unfold handleVoiceSegment. rewrite Hv.
  apply Nat.leb_gt in Hn. rewrite Hn. cbn [andb].
  unfold withSegmentation at 1. cbn [currentSegment].
  destruct (Qle_bool _ _) eqn:Q; [| reflexivity].
  apply Qle_bool_iff in Q. contradiction.
Qed.

(** The no-voice frame that completes the silence threshold ends the
    segment. *)
Lemma pause_frame_ends_segment c lvl s :
  isCurrentlyVoice s = true ->
  (SILENCE_THRESHOLD_FRAMES <= S (silenceFrameCount s))%nat ->
  handleVoiceSegment c false lvl s =
    (mkCapture (isCapturing s) [] false 0 0 (currentVoiceLevel s)
               (smoothedVoiceLevel s) (voiceLevelHistory s),
     UpdateVoiceActivityUI false lvl
     :: (if Qle_bool MIN_SEGMENT_DURATION (segmentDuration (currentSegment s ++ c))
         then [SendVoiceSegmentToSTT (currentSegment s ++ c)] else [])).
Proof.
  intros Hv Hn. unfold handleVoiceSegment. rewrite Hv.
  apply Nat.leb_le in Hn. rewrite Hn. cbn [andb].
  unfold endVoiceSegment at 1, withSegmentation.
  cbn [isCurrentlyVoice negb currentSegment isCapturing currentVoiceLevel
       smoothedVoiceLevel voiceLevelHistory].
  change (Qle_bool MAX_SEGMENT_DURATION (segmentDuration [])) with false.
  cbv iota. cbn [app]. now rewrite app_nil_r.
Qed.

(** A run of voiced frames that stays below the cap. *)
Lemma voiced_run speech : forall s,
  Forall (fun f => hasVoice f = true) speech ->
  ~ (MAX_SEGMENT_DURATION <= segmentDuration (currentSegment s ++ samplesOf speech))%Q ->
  sentSegments (snd (feed speech s)) = [] /\
  currentSegment (lastState s (fst (feed speech s))) = currentSegment s ++ samplesOf speech /\
  voiceFrameCount (lastState s (fst (feed speech s)))
  = (voiceFrameCount s + List.length speech)%nat /\
  isCurrentlyVoice (lastState s (fst (feed speech s)))
  = (isCurrentlyVoice s
     || negb (List.length speech =? 0)%nat
        && (VOICE_THRESHOLD_FRAMES <=? voiceFrameCount s + List.length speech)%nat) /\
  (speech <> [] -> silenceFrameCount (lastState s (fst (feed speech s))) = 0%nat) /\
  isCapturing (lastState s (fst (feed speech s))) = isCapturing s.
Proof.
  induction speech as [|f rest IH]; intros s Hall Hcap.
  - cbn. rewrite app_nil_r, Nat.add_0_r, orb_false_r. repeat split. congruence.
  - inversion Hall as [|? ? Hf Hrest]; subst.
    unfold samplesOf in *. cbn [map List.concat] in Hcap. rewrite app_assoc in Hcap.
    rewrite feed_cons. cbn [fst snd]. unfold handleFrame. rewrite Hf.
    rewrite voiced_frame_buffered by (eapply below_cap_prefix; exact Hcap).
    cbn [fst snd]. set (s1 := withSegmentation _ _ _ _ s).
    destruct (IH s1 Hrest Hcap) as (A & B & C & D & E & F).
    unfold lastState in *. rewrite last_cons.
    cbn [sentSegments app map List.concat List.length]. rewrite A, B, C, D, F.
    cbn [currentSegment voiceFrameCount isCurrentlyVoice isCapturing s1 withSegmentation].
    rewrite <- app_assoc.
    repeat split; try lia.
    + cbn [Nat.eqb negb andb].
      destruct (isCurrentlyVoice s); cbn [orb]; [reflexivity |].
      destruct rest as [|g rest]; cbn [List.length Nat.eqb negb andb].
      * now rewrite Nat.add_1_r, orb_false_r.
      * replace (S (voiceFrameCount s) + S (List.length rest))%nat
          with (voiceFrameCount s + S (S (List.length rest)))%nat by lia.
        destruct (VOICE_THRESHOLD_FRAMES <=? S (voiceFrameCount s))%nat eqn:T1; cbn [orb];
          [| reflexivity].
        apply Nat.leb_le in T1. symmetry. apply Nat.leb_le. lia.
    + intros _. destruct rest as [|g rest]; [reflexivity |]. apply E. discriminate.
Qed.

(** A run of no-voice frames in active speech that stays below the silence
    threshold and below the cap. *)
Lemma pause_run pause : forall s,
  isCurrentlyVoice s = true ->
  Forall (fun f => hasVoice f = false) pause ->
  (silenceFrameCount s + List.length pause < SILENCE_THRESHOLD_FRAMES)%nat ->
  ~ (MAX_SEGMENT_DURATION <= segmentDuration (currentSegment s ++ samplesOf pause))%Q ->
  Forall (fun st => isCurrentlyVoice st = true) (fst (feed pause s)) /\
  sentSegments (snd (feed pause s)) = [] /\
  currentSegment (lastState s (fst (feed pause s))) = currentSegment s ++ samplesOf pause /\
  silenceFrameCount (lastState s (fst (feed pause s)))
  = (silenceFrameCount s + List.length pause)%nat /\
  isCurrentlyVoice (lastState s (fst (feed pause s))) = true /\
  isCapturing (lastState s (fst (feed pause s))) = isCapturing s.
Proof.
  induction pause as [|f rest IH]; intros s Hv Hall Hlen Hcap.
  - cbn. rewrite app_nil_r, Nat.add_0_r. repeat split; auto.
  - inversion Hall as [|? ? Hf Hrest]; subst. cbn [List.length] in Hlen.
    unfold samplesOf in *. cbn [map List.concat] in Hcap. rewrite app_assoc in Hcap.
    rewrite feed_cons. cbn [fst snd]. unfold handleFrame. rewrite Hf.
    rewrite pause_frame_buffered;
      [| exact Hv | lia | eapply below_cap_prefix; exact Hcap].
    cbn [fst snd]. set (s1 := withSegmentation _ _ _ _ s).
    destruct (IH s1 eq_refl Hrest ltac:(cbn; lia) Hcap) as (A & B & C & D & E & F).
    unfold lastState in *. rewrite last_cons.
    cbn [sentSegments app map List.concat List.length]. rewrite B, C, D, E, F.
    cbn [currentSegment silenceFrameCount isCapturing s1 withSegmentation].
    rewrite <- app_assoc. repeat split; try lia. now constructor.
Qed.

(** X9: a pause shorter than the silence threshold (5 frames) does not end
    the segment: while the buffer stays below the cap, the engine remains in
    active speech through the no-voice frames and the voiced frame that
    follows, sends nothing, keeps every sample, and the voiced frame brings
    the silence count back to 0. *)
Theorem short_pause_keeps_the_segment (s : capture) (pause : list frame) (resume : frame) :
  isCurrentlyVoice s = true ->
  Forall (fun f => hasVoice f = false) pause ->
  (silenceFrameCount s + List.length pause < SILENCE_THRESHOLD_FRAMES)%nat ->
  hasVoice resume = true ->
  ~ (MAX_SEGMENT_DURATION
     <= segmentDuration (currentSegment s ++ samplesOf (pause ++ [resume])))%Q ->
  Forall (fun st => isCurrentlyVoice st = true) (fst (feed (pause ++ [resume]) s)) /\
  sentSegments (snd (feed (pause ++ [resume]) s)) = [] /\
  currentSegment (lastState s (fst (feed (pause ++ [resume]) s)))
  = currentSegment s ++ samplesOf (pause ++ [resume]) /\
  silenceFrameCount (lastState s (fst (feed (pause ++ [resume]) s))) = 0%nat.
Proof.
  intros Hv Hall Hlen Hr Hcap.
  unfold samplesOf in Hcap. rewrite map_app, concat_app, app_assoc in Hcap.
  destruct (pause_run pause s Hv Hall Hlen (below_cap_prefix _ _ Hcap))
    as (A & B & C & D & E & _).
  destruct (voiced_run [resume] (lastState s (fst (feed pause s))))
    as (A' & B' & _ & D' & E' & _).
  { repeat constructor. exact Hr. }
  { rewrite C. exact Hcap. }
  rewrite feed_app. cbn [fst snd]. rewrite sentSegments_app, B, A'.
  unfold lastState in *. rewrite last_app_nonempty.
  - rewrite B', C, E' by discriminate.
    unfold samplesOf. rewrite map_app, concat_app, app_assoc.
    repeat split. apply Forall_app. split; [exact A |].
    rewrite E in D'. rewrite feed_cons in D' |- *. cbn [fst feed last] in D' |- *.
    constructor; [exact D' | constructor].
  - rewrite feed_cons. discriminate.
Qed.

Lemma short_pause_keeps_the_segment_witness :
  Forall (fun st => isCurrentlyVoice st = true)
         (fst (feed ([silent; silent] ++ [voiced 0.5%float]) speaking)) /\
  sentSegments (snd (feed ([silent; silent] ++ [voiced 0.5%float]) speaking)) = [] /\
  currentSegment (lastState speaking (fst (feed ([silent; silent] ++ [voiced 0.5%float]) speaking)))
  = currentSegment speaking ++ samplesOf ([silent; silent] ++ [voiced 0.5%float]) /\
  silenceFrameCount
    (lastState speaking (fst (feed ([silent; silent] ++ [voiced 0.5%float]) speaking)))
  = 0%nat.
Proof.
  apply (short_pause_keeps_the_segment speaking [silent; silent] (voiced 0.5%float)).
  - vm_compute. reflexivity.
  - repeat constructor.
  - vm_compute. repeat constructor.
  - reflexivity.
  - intros H. apply max_duration_samples in H. vm_compute in H. now apply H.
Defined.

Lemma split_last {A : Type} (l : list A) (n : nat) :
  List.length l = S n -> exists init x, l = init ++ [x] /\ List.length init = n.
Proof.
  intros H. destruct (exists_last (l := l)) as (init & x & ->).
  - intros ->. discriminate.
  - exists init, x. split; [reflexivity |].
    rewrite length_app in H. cbn in H. lia.
Qed.

(** X10: one utterance is sent whole. From an engine that is not in active
    speech, at least [VOICE_THRESHOLD_FRAMES] voiced frames followed by
    exactly [SILENCE_THRESHOLD_FRAMES] no-voice frames, all staying below
    the cap, send exactly one segment, and only when it lasts the minimum:
    the whole buffer, that is whatever was buffered before followed by
    every frame of the utterance and of the closing silence. The engine is
    then idle with an empty buffer and both counters at 0. *)
Theorem utterance_is_sent_whole (s : capture) (speech pause : list frame) :
  isCurrentlyVoice s = false ->
  Forall (fun f => hasVoice f = true) speech ->
  (VOICE_THRESHOLD_FRAMES <= List.length speech)%nat ->
  Forall (fun f => hasVoice f = false) pause ->
  List.length pause = SILENCE_THRESHOLD_FRAMES ->
  ~ (MAX_SEGMENT_DURATION
     <= segmentDuration (currentSegment s ++ samplesOf (speech ++ pause)))%Q ->
  let whole := currentSegment s ++ samplesOf (speech ++ pause) in
  let final := lastState s (fst (feed (speech ++ pause) s)) in
  sentSegments (snd (feed (speech ++ pause) s))
  = (if Qle_bool MIN_SEGMENT_DURATION (segmentDuration whole) then [whole] else []) /\
  isCurrentlyVoice final = false /\ currentSegment final = [] /\
  voiceFrameCount final = 0%nat /\ silenceFrameCount final = 0%nat.
Proof.
  intros Hv Hspeech Hn Hpause Hlen Hcap. cbv zeta.
  unfold samplesOf in *. rewrite map_app, concat_app, app_assoc in Hcap |- *.
  fold (samplesOf speech) in *. fold (samplesOf pause) in *.
  destruct (voiced_run speech s Hspeech (below_cap_prefix _ _ Hcap))
    as (A & B & _ & D & E & _).
  assert (Hne : speech <> []).
  { intros ->. unfold VOICE_THRESHOLD_FRAMES in Hn. cbn in Hn. lia. }
  specialize (E Hne).
  assert (D' : isCurrentlyVoice (lastState s (fst (feed speech s))) = true).
  { rewrite D, Hv. cbn [orb].
    destruct speech as [|f speech]; [congruence |]. cbn [List.length Nat.eqb negb andb].
    apply Nat.leb_le. cbn [List.length] in Hn. lia. }
  set (s1 := lastState s (fst (feed speech s))) in *.
  destruct (split_last pause 4 Hlen) as (init & lastf & -> & Hinit).
  apply Forall_app in Hpause. destruct Hpause as [Hinit_quiet Hlast].
  inversion Hlast as [|? ? Hlf _]; subst.
  unfold samplesOf in Hcap |- *. rewrite map_app, concat_app in Hcap |- *.
  cbn [map List.concat] in Hcap |- *. rewrite app_nil_r in Hcap |- *.
  fold (samplesOf init) in Hcap |- *. fold (samplesOf speech) in Hcap |- *.
  rewrite <- B in Hcap |- *.
  rewrite (app_assoc (currentSegment s1)) in Hcap |- *.
  destruct (pause_run init s1 D' Hinit_quiet) as (_ & B2 & C2 & D2 & E2 & _).
  { rewrite E, Hinit. unfold SILENCE_THRESHOLD_FRAMES. lia. }
  { eapply below_cap_prefix; exact Hcap. }
  set (s2 := lastState s1 (fst (feed init s1))) in *.
  assert (Hend : handleFrame lastf s2 =
            (mkCapture (isCapturing s2) [] false 0 0 (currentVoiceLevel s2)
                       (smoothedVoiceLevel s2) (voiceLevelHistory s2),
             UpdateVoiceActivityUI false (voiceLevel lastf)
             :: (if Qle_bool MIN_SEGMENT_DURATION
                      (segmentDuration ((currentSegment s1 ++ samplesOf init) ++ chunk lastf))
                 then [SendVoiceSegmentToSTT
                         ((currentSegment s1 ++ samplesOf init) ++ chunk lastf)]
                 else []))).
  { unfold handleFrame. rewrite Hlf, <- C2. apply pause_frame_ends_segment; [exact E2 |].
    rewrite D2, E, Hinit. unfold SILENCE_THRESHOLD_FRAMES. lia. }
  rewrite !feed_app. cbn [fst snd]. fold s1. fold s2.
  rewrite feed_cons. cbn [feed fst snd]. rewrite Hend. cbn [fst snd].
  rewrite !sentSegments_app, A, B2, app_nil_r. cbn [app sentSegments].
  unfold lastState. rewrite app_assoc, last_last.
  split; [| repeat split].
  destruct (Qle_bool _ _); reflexivity.
Qed.

Lemma utterance_is_sent_whole_witness :
  let whole := currentSegment started
               ++ samplesOf (repeat (voiced 0.5%float) 5 ++ repeat silent 5) in
  let final := lastState started
                 (fst (feed (repeat (voiced 0.5%float) 5 ++ repeat silent 5) started)) in
  sentSegments (snd (feed (repeat (voiced 0.5%float) 5 ++ repeat silent 5) started))
  = (if Qle_bool MIN_SEGMENT_DURATION (segmentDuration whole) then [whole] else []) /\
  isCurrentlyVoice final = false /\ currentSegment final = [] /\
  voiceFrameCount final = 0%nat /\ silenceFrameCount final = 0%nat.
Proof.
  apply (utterance_is_sent_whole started (repeat (voiced 0.5%float) 5) (repeat silent 5)).
  - reflexivity.
  - repeat constructor.
  - vm_compute. repeat constructor.
  - repeat constructor.
  - reflexivity.
  - intros H. apply max_duration_samples in H. vm_compute in H. now apply H.
Defined.

Lemma endVoiceSegment_inactive s :
  isCurrentlyVoice s = false -> endVoiceSegment s = (s, []).
Proof. intros H. unfold endVoiceSegment. now rewrite H. Qed.

Lemma settled_reset c a b h : settled (mkCapture c [] false 0 0 a b h).
Proof.
  repeat split; [discriminate | now left |].
  intros _. cbn. unfold VOICE_THRESHOLD_FRAMES. lia.
Qed.

(** The cap check at the end of [handleVoiceSegment] settles a state whose
    counters are in order. *)
Lemma cap_check_settles s1 :
  (voiceFrameCount s1 = 0%nat \/ silenceFrameCount s1 = 0%nat) ->
  (isCurrentlyVoice s1 = false -> (voiceFrameCount s1 < VOICE_THRESHOLD_FRAMES)%nat) ->
  settled (fst (if Qle_bool MAX_SEGMENT_DURATION (segmentDuration (currentSegment s1))
                then endVoiceSegment s1 else (s1, []))).
Proof.
  intros Hc Hi.
  destruct (Qle_bool MAX_SEGMENT_DURATION (segmentDuration (currentSegment s1))) eqn:Q.
  - destruct (isCurrentlyVoice s1) eqn:V.
    + unfold endVoiceSegment. rewrite V. cbn [negb fst]. apply settled_reset.
    + rewrite (endVoiceSegment_inactive s1 V). cbn [fst].
      repeat split; [congruence | exact Hc | intros _; now apply Hi].
  - cbn [fst]. repeat split; [| exact Hc | exact Hi].
    intros _ K. apply Qle_bool_iff in K. congruence.
Qed.

Lemma handleVoiceSegment_state c v lvl s :
  fst (handleVoiceSegment c v lvl s)
  = let s1 :=
      fst (if v then
             (withSegmentation (currentSegment s ++ c)
                (if negb (isCurrentlyVoice s)
                    && (VOICE_THRESHOLD_FRAMES <=? S (voiceFrameCount s))%nat
                 then true else isCurrentlyVoice s)
                0 (S (voiceFrameCount s)) s, [])
           else
             if isCurrentlyVoice s
                && (SILENCE_THRESHOLD_FRAMES <=? S (silenceFrameCount s))%nat
             then endVoiceSegment
                    (withSegmentation (currentSegment s ++ c) (isCurrentlyVoice s)
                       (S (silenceFrameCount s)) 0 s)
             else (withSegmentation (currentSegment s ++ c) (isCurrentlyVoice s)
                     (S (silenceFrameCount s)) 0 s, [])) in
    fst (if Qle_bool MAX_SEGMENT_DURATION (segmentDuration (currentSegment s1))
         then endVoiceSegment s1 else (s1, [])).
Proof.
  unfold handleVoiceSegment. cbv zeta.
  destruct (if v then _ else _) as [s1 out1]. cbn [fst].
  destruct (if Qle_bool _ _ then _ else _) as [s2 out2]. reflexivity.
Qed.

(** X11: after every frame, whatever the state before it: an engine in
    active speech holds less than the cap (30 s), at most one of the two
    frame counters is non-zero, and an engine out of active speech has seen
    fewer consecutive voiced frames than the start threshold. *)
Theorem every_frame_leaves_the_engine_settled (frames : list frame) (s : capture) :
  Forall settled (fst (feed frames s)).
Proof.
  revert s. induction frames as [|f rest IH]; intros s; [constructor |].
  rewrite feed_cons. cbn [fst]. constructor; [| apply IH].
  unfold handleFrame. rewrite handleVoiceSegment_state. cbv zeta.
  apply cap_check_settles.
  - destruct (hasVoice f); cbn [fst]; [now right |].
    destruct (isCurrentlyVoice s && _); [| now left].
    unfold endVoiceSegment. destruct (negb _); now left.
  - destruct (hasVoice f); cbn [fst].
    + cbn [isCurrentlyVoice voiceFrameCount withSegmentation].
      destruct (isCurrentlyVoice s); cbn [negb andb]; [discriminate |].
      destruct (Nat.leb_spec VOICE_THRESHOLD_FRAMES (S (voiceFrameCount s)));
        [discriminate | intros _; assumption].
    + intros _.
      assert (Z : forall x : capture * list effect,
                voiceFrameCount (fst x) = 0%nat ->
                (voiceFrameCount (fst x) < VOICE_THRESHOLD_FRAMES)%nat).
      { intros x ->. unfold VOICE_THRESHOLD_FRAMES. lia. }
      apply Z. destruct (isCurrentlyVoice s && _); [| reflexivity].
      unfold endVoiceSegment. destruct (negb _); reflexivity.
Qed.

(** X12: silence in front of an utterance is buffered, not discarded: an
    engine out of active speech that receives no-voice frames sends
    nothing, stays out of active speech, and appends every one of their
    samples to the buffer, however many there are. *)
Theorem idle_silence_is_buffered (s : capture) (quiet : list frame) :
  isCurrentlyVoice s = false ->
  Forall (fun f => hasVoice f = false) quiet ->
  Forall (fun st => isCurrentlyVoice st = false) (fst (feed quiet s)) /\
  sentSegments (snd (feed quiet s)) = [] /\
  currentSegment (lastState s (fst (feed quiet s))) = currentSegment s ++ samplesOf quiet.
Proof.
  revert s. induction quiet as [|f rest IH]; intros s Hv Hall.
  - cbn. rewrite app_nil_r. repeat split. constructor.
  - inversion Hall as [|? ? Hf Hrest]; subst.
    rewrite feed_cons. unfold handleFrame. rewrite Hf.
    rewrite (silent_frame_when_idle _ _ _ Hv). cbn [fst snd].
    set (s1 := withSegmentation _ _ _ _ s).
    destruct (IH s1 eq_refl Hrest) as (A & B & C).
    unfold lastState in *. rewrite last_cons, C.
    cbn [sentSegments app]. unfold samplesOf. cbn [map List.concat].
    rewrite app_assoc. repeat split; [now constructor | exact B].
Qed.

Lemma idle_silence_is_buffered_witness :
  Forall (fun st => isCurrentlyVoice st = false) (fst (feed (repeat silent 3) started)) /\
  sentSegments (snd (feed (repeat silent 3) started)) = [] /\
  currentSegment (lastState started (fst (feed (repeat silent 3) started)))
  = currentSegment started ++ samplesOf (repeat silent 3).
Proof.
  apply (idle_silence_is_buffered started (repeat silent 3)).
  - reflexivity.
  - repeat constructor.
Defined.

(** X13: [stopCapture] on a running capture flushes and resets: it sends
    the buffered segment exactly when the engine is in active speech and
    the buffer lasts the minimum, leaves every field of the engine and of
    the level meter in its initial value, and a second [stopCapture] does
    nothing at all. *)
Theorem stopCapture_flushes_and_resets (s : capture) :
  isCapturing s = true ->
  sentSegments (snd (stopCapture s))
  = (if isCurrentlyVoice s
        && Qle_bool MIN_SEGMENT_DURATION (segmentDuration (currentSegment s))
     then [currentSegment s] else []) /\
  fst (stopCapture s) = init /\
  stopCapture (fst (stopCapture s)) = (init, []).
Proof.
  intros Hc. unfold stopCapture. rewrite Hc. cbn [negb].
  destruct (isCurrentlyVoice s) eqn:V; cbn [andb].
  - unfold endVoiceSegment. rewrite V. cbn [negb fst snd].
    rewrite sentSegments_app. cbn [sentSegments]. rewrite app_nil_r.
    destruct (Qle_bool _ _); repeat split.
  - repeat split.
Qed.

Lemma stopCapture_flushes_and_resets_witness :
  sentSegments (snd (stopCapture speaking))
  = (if isCurrentlyVoice speaking
        && Qle_bool MIN_SEGMENT_DURATION (segmentDuration (currentSegment speaking))
     then [currentSegment speaking] else []) /\
  fst (stopCapture speaking) = init /\
  stopCapture (fst (stopCapture speaking)) = (init, []).
Proof.
  apply (stopCapture_flushes_and_resets speaking). vm_compute. reflexivity.
Defined.

End SegmentationProperties.

(* --------------------------------------------------------------------- *)
(** ** PCM16 quantization and the size of the payload                     *)
(* --------------------------------------------------------------------- *)

Module Pcm16Properties.
Import Pcm16 Pcm16RoundTrip.
Local Open Scope Z_scope.

Lemma Qltb_spec (a b : Q) : reflect (a < b)%Q (Qltb a b).
Proof.
  unfold Qltb. destruct (Qle_bool b a) eqn:E; cbn [negb]; constructor.
  - apply Qle_bool_iff in E. lra.
  - apply Qnot_le_lt. intros K. apply Qle_bool_iff in K. congruence.
Qed.

(** [Math.max(-1, Math.min(1, x))] lies in [-1, 1] whatever [x] is. *)
Lemma clamp_bounds x : (-1 <= clamp x <= 1)%Q.
Proof.
  unfold clamp. destruct (Qltb_spec x 1) as [H1 | H1].
  - destruct (Qltb_spec (-1) x); lra.
  - destruct (Qltb_spec (-1) 1); lra.
Qed.

Lemma clamp_above x : (1 <= x)%Q -> clamp x = 1%Q.
Proof.
  intros H. unfold clamp. destruct (Qltb_spec x 1); [lra | reflexivity].
Qed.

Lemma clamp_below x : (x <= -1)%Q -> clamp x = (-1)%Q.
Proof.
  intros H. unfold clamp. destruct (Qltb_spec x 1) as [H1 | H1]; [| lra].
  destruct (Qltb_spec (-1) x); [lra | reflexivity].
Qed.

Lemma clamp_monotone x y : (x <= y)%Q -> (clamp x <= clamp y)%Q.
Proof.
  intros H. unfold clamp.
  destruct (Qltb_spec x 1), (Qltb_spec y 1);
    repeat match goal with
           | |- context [Qltb ?a ?b] => destruct (Qltb_spec a b)
           end; lra.
Qed.

(** The value stored for a clamped sample, before the 16-bit wrap-around:
    it already is a 16-bit integer, of the sign of the sample. *)
Lemma scaled_level_range (s : Q) :
  (-1 <= s <= 1)%Q ->
  let t := truncate (if Qltb s 0 then s * 32768 else s * 32767)%Q in
  -32768 <= t <= 32767 /\ ((0 <= s)%Q -> 0 <= t) /\ ((s <= 0)%Q -> t <= 0).
Proof.
  intros [Hl Hu]. cbv zeta. destruct (Qltb_spec s 0) as [Hneg | Hpos].
  - destruct (truncate_nonpos (s * 32768)) as [T1 T2]; [lra |].
    set (t := truncate (s * 32768)) in *.
    assert (A : -32768 <= t).
    { apply inject_Z_le. change (inject_Z (-32768)) with (-32768)%Q. lra. }
    assert (B : t < 1).
    { apply inject_Z_lt. change (inject_Z 1) with 1%Q. lra. }
    repeat split; try lia. intros K. lra.
  - destruct (truncate_nonneg (s * 32767)) as [T1 T2]; [lra |].
    set (t := truncate (s * 32767)) in *.
    assert (A : -1 < t).
    { apply inject_Z_lt. change (inject_Z (-1)) with (-1)%Q. lra. }
    assert (B : t <= 32767).
    { apply inject_Z_le. change (inject_Z 32767) with 32767%Q. lra. }
    repeat split; try lia. intros K.
    assert (E : (s == 0)%Q) by lra.
    assert (C : t < 1).
    { apply inject_Z_lt. change (inject_Z 1) with 1%Q. lra. }
    lia.
Qed.

Lemma quantize_truncates x :
  quantize x
  = truncate (if Qltb (clamp x) 0 then clamp x * 32768 else clamp x * 32767)%Q.
Proof.
  unfold quantize, toInt16. cbv zeta. apply wrap16_small.
  apply (scaled_level_range (clamp x) (clamp_bounds x)).
Qed.

Lemma quantize_range x : -32768 <= quantize x <= 32767.
Proof.
  rewrite quantize_truncates. apply (scaled_level_range (clamp x) (clamp_bounds x)).
Qed.

(** X14: the conversion saturates and never wraps around. Whatever the
    sample, the stored level is a 16-bit integer equal to the truncated
    product (the 16-bit store changes nothing); a sample at or above 1 is
    stored as 32767, a sample at or below -1 as -32768, and the level has
    the sign of the sample. *)
Theorem conversion_saturates_without_wrapping (x : Q) :
  -32768 <= quantize x <= 32767 /\
  quantize x
  = truncate (if Qltb (clamp x) 0 then clamp x * 32768 else clamp x * 32767)%Q /\
  ((1 <= x)%Q -> quantize x = 32767) /\
  ((x <= -1)%Q -> quantize x = -32768) /\
  ((0 <= x)%Q -> 0 <= quantize x) /\
  ((x <= 0)%Q -> quantize x <= 0).
Proof.
  split; [apply quantize_range |]. split; [apply quantize_truncates |].
  pose proof (scaled_level_range (clamp x) (clamp_bounds x)) as (_ & P & N).
  cbv zeta in P, N. rewrite <- quantize_truncates in P, N.
  repeat split.
  - intros H. rewrite quantize_truncates, (clamp_above x H). reflexivity.
  - intros H. rewrite quantize_truncates, (clamp_below x H). reflexivity.
  - intros H. apply P. pose proof (clamp_monotone 0 x H) as K.
    change (clamp 0) with 0%Q in K. exact K.
  - intros H. apply N. pose proof (clamp_monotone x 0 H) as K.
    change (clamp 0) with 0%Q in K. exact K.
Qed.

Lemma truncate_monotone (x y : Q) :
  (x <= y)%Q -> ((0 <= x)%Q \/ (y <= 0)%Q) -> truncate x <= truncate y.
Proof.
  intros H [P | N].
  - destruct (truncate_nonneg x P) as [A _].
    destruct (truncate_nonneg y) as [_ B]; [lra |].
    assert (K : truncate x < truncate y + 1).
    { apply inject_Z_lt. rewrite inject_Z_plus. change (inject_Z 1) with 1%Q. lra. }
    lia.
  - destruct (truncate_nonpos y N) as [A _].
    destruct (truncate_nonpos x) as [_ B]; [lra |].
    assert (K : truncate x < truncate y + 1).
    { apply inject_Z_lt. rewrite inject_Z_plus. change (inject_Z 1) with 1%Q. lra. }
    lia.
Qed.

(** X15: the conversion keeps the order of the samples: a sample that is
    not larger is stored as a level that is not larger, although the two
    signs are scaled differently (by 32768 and by 32767). *)
Theorem conversion_is_monotone (x y : Q) :
  (x <= y)%Q -> quantize x <= quantize y.
Proof.
  intros H. pose proof (clamp_monotone x y H) as Hc.
  pose proof (clamp_bounds x) as Bx. pose proof (clamp_bounds y) as By.
  pose proof (scaled_level_range (clamp x) Bx) as (_ & Px & Nx).
  pose proof (scaled_level_range (clamp y) By) as (_ & Py & Ny).
  cbv zeta in Px, Nx, Py, Ny.
  rewrite !quantize_truncates.
  destruct (Qltb_spec (clamp x) 0) as [X | X], (Qltb_spec (clamp y) 0) as [Y | Y].
  - apply truncate_monotone; [lra | right; lra].
  - transitivity 0; [apply Nx; lra | apply Py; lra].
  - lra.
  - apply truncate_monotone; [lra | left; lra].
Qed.

Lemma conversion_is_monotone_witness : quantize (1 # 3) <= quantize (1 # 2).
Proof.
  apply (conversion_is_monotone (1 # 3) (1 # 2)). unfold Qle; simpl; lia.
Defined.

Lemma length_binaryOf bytes : String.length (binaryOf bytes) = List.length bytes.
Proof.
  induction bytes as [|b rest IH]; [reflexivity |]. cbn. now rewrite IH.
Qed.

Lemma length_bufferOf ints : List.length (bufferOf ints) = (2 * List.length ints)%nat.
Proof.
  induction ints as [|z rest IH]; [reflexivity |].
  rewrite bufferOf_cons. cbn [List.length]. rewrite IH. lia.
Qed.

(** The length of [btoa]'s result, with the two shorter strings that the
    three-byte recursion passes through. *)
Lemma length_btoa_steps (s : string) :
  let len t := Z.of_nat (String.length t) in
  len (btoa s) = 4 * ((len s + 2) / 3) /\
  (forall a, len (btoa (String a s)) = 4 * ((len (String a s) + 2) / 3)) /\
  (forall a b,
     len (btoa (String a (String b s))) = 4 * ((len (String a (String b s)) + 2) / 3)).
Proof.
  cbv zeta. induction s as [|c s (IH0 & IH1 & IH2)].
  - repeat split.
  - split; [exact (IH1 c) | split].
    + intros a. exact (IH2 a c).
    + intros a b. rewrite btoa_three. cbn [String.length] in *.
      rewrite !Nat2Z.inj_succ in *. Z.div_mod_to_equations. lia.
Qed.

(** X16: the payload of [n] samples is exactly [4 * ceil(2n / 3)]
    characters long: two bytes per sample, four characters for every three
    bytes, the last group padded. *)
Theorem payload_length (samples : list Q) :
  Z.of_nat (String.length (encode samples))
  = 4 * ((2 * Z.of_nat (List.length samples) + 2) / 3).
Proof.
  unfold encode, arrayBufferToBase64.
  rewrite (proj1 (length_btoa_steps _)).
  rewrite length_binaryOf, length_bufferOf. unfold convertFloat32ToInt16.
  rewrite length_map. do 2 f_equal. lia.
Qed.

Lemma levels_in_range samples :
  Forall (fun z => -32768 <= z <= 32767) (convertFloat32ToInt16 samples).
Proof.
  unfold convertFloat32ToInt16. apply Forall_map, Forall_forall.
  intros x _. apply quantize_range.
Qed.

(** X17: the payload determines the stored levels and nothing else: two
    sample sequences, of any values and lengths, are sent as the same text
    exactly when they are converted to the same 16-bit levels. *)
Theorem same_payload_iff_same_levels (xs ys : list Q) :
  encode xs = encode ys <-> convertFloat32ToInt16 xs = convertFloat32ToInt16 ys.
Proof.
  split; [| intros H; unfold encode; now rewrite H].
  intros H. unfold encode, arrayBufferToBase64 in H.
  apply (f_equal atob) in H. rewrite !atob_btoa in H. injection H as H.
  apply (f_equal int16sOfBinary) in H.
  rewrite !int16s_of_buffer in H by apply levels_in_range.
  now injection H.
Qed.

End Pcm16Properties.

(* --------------------------------------------------------------------- *)
(** ** The level meter over a run of frames                               *)
(* --------------------------------------------------------------------- *)

Module LevelMeterProperties.
Import PrimFloat AskAudioCapture AskAudioCaptureRuns VoiceLevels VoiceLevelMeter.

Lemma lastN_all {A : Type} (n : nat) (l : list A) :
  (List.length l <= n)%nat -> lastN n l = l.
Proof.
  intros H. unfold lastN. replace (List.length l - n)%nat with 0%nat by lia. reflexivity.
Qed.

Lemma length_lastN {A : Type} (n : nat) (l : list A) :
  List.length (lastN n l) = Nat.min n (List.length l).
Proof. unfold lastN. rewrite length_skipn. lia. Qed.

(** Keeping the last [n] entries before appending changes nothing for the
    last [n] entries after. *)
Lemma lastN_app_lastN {A : Type} (n : nat) (a b : list A) :
  lastN n (lastN n a ++ b) = lastN n (a ++ b).
Proof.
  destruct (Nat.le_gt_cases (List.length a) n) as [H | H].
  - now rewrite (lastN_all n a H).
  - unfold lastN. rewrite !length_app, !length_skipn.
    rewrite !skipn_app, !skipn_skipn, !length_skipn.
    f_equal; f_equal; lia.
Qed.

(** [push] followed by the conditional [shift] keeps the last
    [VOICE_LEVEL_HISTORY_SIZE] entries. *)
Lemma push_shift (h : list float) (lvl : float) :
  (List.length h <= VOICE_LEVEL_HISTORY_SIZE)%nat ->
  (if (VOICE_LEVEL_HISTORY_SIZE <? List.length (h ++ [lvl]))%nat
   then tl (h ++ [lvl]) else h ++ [lvl])
  = lastN VOICE_LEVEL_HISTORY_SIZE (h ++ [lvl]).
Proof.
  intros H. unfold lastN. rewrite length_app. cbn [List.length].
  destruct (Nat.ltb_spec VOICE_LEVEL_HISTORY_SIZE (List.length h + 1)) as [L | L].
  - replace (List.length h + 1 - VOICE_LEVEL_HISTORY_SIZE)%nat with 1%nat by lia.
    destruct (h ++ [lvl]); reflexivity.
  - replace (List.length h + 1 - VOICE_LEVEL_HISTORY_SIZE)%nat with 0%nat by lia.
    reflexivity.
Qed.

Lemma history_after_frame (x : float) (data : list float) (s : capture) :
  voiceLevelHistory (snd (calculateVoiceLevel (Some (x :: data)) s))
  = (if (VOICE_LEVEL_HISTORY_SIZE <? List.length (voiceLevelHistory s ++ [frameLevel (x :: data)]))%nat
     then tl (voiceLevelHistory s ++ [frameLevel (x :: data)])
     else voiceLevelHistory s ++ [frameLevel (x :: data)]).
Proof. reflexivity. Qed.

(** X18: the history is a rolling window. Over any run of frames, from a
    history within its size, the history afterwards holds the last
    [VOICE_LEVEL_HISTORY_SIZE] (10) of: the entries it had, followed by the
    level of every frame that carried samples, in order. Absent and empty
    frames add no entry. *)
Theorem history_is_a_rolling_window
    (frames : list (option (list float))) (s : capture) :
  (List.length (voiceLevelHistory s) <= VOICE_LEVEL_HISTORY_SIZE)%nat ->
  voiceLevelHistory (observeAll frames s)
  = lastN VOICE_LEVEL_HISTORY_SIZE
      (voiceLevelHistory s ++ map frameLevel (nonEmptyFrames frames)).
Proof.
  revert s. induction frames as [|f rest IH]; intros s H.
  - cbn [observeAll nonEmptyFrames map]. rewrite app_nil_r. symmetry. now apply lastN_all.
  - cbn [observeAll]. rewrite IH by now apply history_bounded.
    destruct f as [[|x data]|]; cbn [nonEmptyFrames map]; try reflexivity.
    rewrite history_after_frame, push_shift by exact H.
    rewrite lastN_app_lastN, <- app_assoc. reflexivity.
Qed.

Lemma history_is_a_rolling_window_witness :
  voiceLevelHistory
    (observeAll [Some [0.1; 0.1]%float; None; Some []; Some [0.05]%float] started)
  = lastN VOICE_LEVEL_HISTORY_SIZE
      (voiceLevelHistory started
       ++ map frameLevel (nonEmptyFrames [Some [0.1; 0.1]%float; None; Some []; Some [0.05]%float])).
Proof.
  apply (history_is_a_rolling_window
           [Some [0.1; 0.1]%float; None; Some []; Some [0.05]%float] started).
  cbn. lia.
Defined.

Lemma ltb_leb (x y : float) : (x <? y)%float = true -> (x <=? y)%float = true.
Proof.
  rewrite FloatAxioms.ltb_spec, FloatAxioms.leb_spec.
  unfold SpecFloat.SFltb, SpecFloat.SFleb.
  destruct (SpecFloat.SFcompare _ _) as [[]|]; congruence.
Qed.

(** [Math.max(0, v)] is NaN, or 0, or [v] itself when it is above 0. *)
Lemma mathMax_zero (v : float) :
  PrimFloat.is_nan (mathMax 0 v) = true \/ mathMax 0 v = 0%float \/
  (mathMax 0 v = v /\ (0 <? v)%float = true).
Proof.
  unfold mathMax. change (PrimFloat.is_nan 0) with false. cbn [orb].
  destruct (PrimFloat.is_nan v); [now left |].
  destruct (0 <? v)%float eqn:E; [right; right; now split |].
  right; left. destruct (v <? 0)%float; reflexivity.
Qed.

(** [Math.min(1, m)] is NaN, or 1, or [m] itself when it is below 1. *)
Lemma mathMin_one (m : float) :
  PrimFloat.is_nan (mathMin 1 m) = true \/ mathMin 1 m = 1%float \/
  (mathMin 1 m = m /\ (m <? 1)%float = true).
Proof.
  unfold mathMin. change (PrimFloat.is_nan 1) with false. cbn [orb].
  destruct (PrimFloat.is_nan m); [now left |].
  destruct (1 <? m)%float; [right; now left |].
  destruct (m <? 1)%float eqn:E; [right; right; now split |].
  right; left. reflexivity.
Qed.

Lemma clamped_level (v : float) : unitOrNaN (mathMin 1 (mathMax 0 v)) = true.
Proof.
  unfold unitOrNaN.
  destruct (mathMin_one (mathMax 0 v)) as [N | [One | [Same Below]]].
  - now rewrite N.
  - rewrite One. reflexivity.
  - rewrite Same.
    destruct (mathMax_zero v) as [N | [Zero | [Same' Above]]].
    + now rewrite N.
    + rewrite Zero. reflexivity.
    + rewrite Same' in *. rewrite (ltb_leb _ _ Above), (ltb_leb _ _ Below).
      apply orb_true_r.
Qed.

Lemma level_after_frame (audioData : option (list float)) (s : capture) :
  currentVoiceLevel (snd (calculateVoiceLevel audioData s))
  = match audioData with
    | Some (x :: data) => frameLevel (x :: data)
    | _ => 0%float
    end.
Proof. destruct audioData as [[|x data]|]; reflexivity. Qed.

(** One frame keeps the history within the levels it held, the new level
    apart. *)
Lemma history_step (P : float -> Prop) (audioData : option (list float)) (s : capture) :
  Forall P (voiceLevelHistory s) ->
  (forall x data, audioData = Some (x :: data) -> P (frameLevel (x :: data))) ->
  Forall P (voiceLevelHistory (snd (calculateVoiceLevel audioData s))).
Proof.
  intros H New. destruct audioData as [[|x data]|]; try exact H.
  rewrite history_after_frame.
  assert (K : Forall P (voiceLevelHistory s ++ [frameLevel (x :: data)])).
  { apply Forall_app. split; [exact H |]. constructor; [| constructor].
    now apply (New x data). }
  destruct (_ <? _)%nat; [| exact K].
  destruct (voiceLevelHistory s ++ [frameLevel (x :: data)]); [exact K |].
  now inversion K.
Qed.

(** X19: the level of a frame never leaves the unit range. Whatever the
    samples, the level the meter stores for a frame is a number between 0
    and 1, or NaN (which [Math.min] and [Math.max] let through); and when
    the history holds only such levels before a run of frames, it holds
    only such levels after it. *)
Theorem levels_stay_in_the_unit_range
    (frames : list (option (list float))) (s : capture) :
  Forall (fun x => unitOrNaN x = true) (voiceLevelHistory s) ->
  Forall (fun x => unitOrNaN x = true) (voiceLevelHistory (observeAll frames s)) /\
  forall audioData,
    unitOrNaN (currentVoiceLevel (snd (calculateVoiceLevel audioData (observeAll frames s))))
    = true.
Proof.
  intros H. split.
  - revert s H. induction frames as [|f rest IH]; intros s H; [exact H |].
    cbn [observeAll]. apply IH. apply history_step; [exact H |].
    intros x data _. apply clamped_level.
  - intros audioData. rewrite level_after_frame.
    destruct audioData as [[|x data]|]; try reflexivity. apply clamped_level.
Qed.

Lemma levels_stay_in_the_unit_range_witness :
  Forall (fun x => unitOrNaN x = true)
         (voiceLevelHistory (observeAll [Some [0.1; 0.1]%float; Some [nan]] started)) /\
  forall audioData,
    unitOrNaN (currentVoiceLevel
                 (snd (calculateVoiceLevel audioData
                         (observeAll [Some [0.1; 0.1]%float; Some [nan]] started))))
    = true.
Proof.
  apply (levels_stay_in_the_unit_range [Some [0.1; 0.1]%float; Some [nan]] started).
  constructor.
Defined.

End LevelMeterProperties.

(* --------------------------------------------------------------------- *)
(** ** Binary64 arithmetic: which results are NaN                         *)
(* --------------------------------------------------------------------- *)

Module BinaryFacts.
Import SpecFloat FloatOps VoiceLevels.

Lemma shr_1_nonneg mrs : (0 <= shr_m mrs)%Z -> (0 <= shr_m (shr_1 mrs))%Z.
Proof.
  destruct mrs as [m r s]. cbn [shr_m]. intros H.
  destruct m as [|[p|p|]|p]; cbn; lia.
Qed.

Lemma iter_pos_nonneg n mrs :
  (0 <= shr_m mrs)%Z -> (0 <= shr_m (iter_pos shr_1 n mrs))%Z.
Proof.
  revert mrs. induction n as [n IH|n IH|]; intros mrs H; cbn [iter_pos].
  - apply IH, IH, shr_1_nonneg, H.
  - apply IH, IH, H.
  - apply shr_1_nonneg, H.
Qed.

Lemma shr_fexp_nonneg m e l :
  (0 <= m)%Z -> (0 <= shr_m (fst (shr_fexp prec emax m e l)))%Z.
Proof.
  intros H. unfold shr_fexp, shr.
  assert (H0 : (0 <= shr_m (shr_record_of_loc m l))%Z)
    by (destruct l as [|[| |]]; exact H).
  destruct (_ - e)%Z; cbn [fst]; try exact H0.
  now apply iter_pos_nonneg.
Qed.

Lemma round_nearest_even_nonneg m l :
  (0 <= m)%Z -> (0 <= round_nearest_even m l)%Z.
Proof.
  intros H. destruct l as [|[| |]]; cbn; try lia.
  destruct (Z.even m); lia.
Qed.

(** Rounding a mantissa that is not negative gives a zero, a finite value
    or an infinity of the given sign, never NaN. *)
Lemma binary_round_aux_sign sx mx ex lx :
  (0 <= mx)%Z ->
  match binary_round_aux prec emax sx mx ex lx with
  | S754_zero s | S754_infinity s | S754_finite s _ _ => s = sx
  | S754_nan => False
  end.
Proof.
  intros H. unfold binary_round_aux.
  pose proof (shr_fexp_nonneg mx ex lx H) as H1.
  destruct (shr_fexp prec emax mx ex lx) as [mrs' e']. cbn [fst] in H1.
  pose proof (shr_fexp_nonneg _ e' loc_Exact
                (round_nearest_even_nonneg _ (loc_of_shr_record mrs') H1)) as H2.
  destruct (shr_fexp prec emax _ e' loc_Exact) as [mrs'' e'']. cbn [fst] in H2.
  destruct (shr_m mrs''); [reflexivity | | lia].
  now destruct (_ <=? _)%Z.
Qed.

Lemma binary_round_aux_nonneg mx ex lx :
  (0 <= mx)%Z -> nonneg (binary_round_aux prec emax false mx ex lx).
Proof.
  intros H. pose proof (binary_round_aux_sign false mx ex lx H) as S.
  destruct (binary_round_aux _ _ _ _ _ _); cbn; auto.
Qed.

Lemma binary_round_aux_number sx mx ex lx :
  (0 <= mx)%Z -> binary_round_aux prec emax sx mx ex lx <> S754_nan.
Proof.
  intros H E. pose proof (binary_round_aux_sign sx mx ex lx H) as S.
  now rewrite E in S.
Qed.

Lemma binary_round_number sx mx ex : binary_round prec emax sx mx ex <> S754_nan.
Proof.
  unfold binary_round. destruct (shl_align _ _ _) as [mz ez].
  apply binary_round_aux_number. lia.
Qed.

Lemma binary_round_nonneg mx ex : nonneg (binary_round prec emax false mx ex).
Proof.
  unfold binary_round. destruct (shl_align _ _ _) as [mz ez].
  apply binary_round_aux_nonneg. lia.
Qed.

Lemma binary_normalize_number m e : binary_normalize prec emax m e false <> S754_nan.
Proof.
  destruct m; cbn [binary_normalize]; [discriminate | |]; apply binary_round_number.
Qed.

Lemma binary_normalize_nonneg m e :
  (0 <= m)%Z -> nonneg (binary_normalize prec emax m e false).
Proof.
  destruct m; cbn [binary_normalize]; intros H; [exact I | | lia].
  apply binary_round_nonneg.
Qed.

(** The square of a number is not negative. *)
Lemma SFmul_square x : x <> S754_nan -> nonneg (SFmul prec emax x x).
Proof.
  destruct x as [s|s| |s m e]; cbn [SFmul nonneg]; intros N;
    [exact I | now destruct s | congruence |].
  replace (xorb s s) with false by now destruct s.
  apply binary_round_aux_nonneg. lia.
Qed.

Lemma SFmul_nonneg x y :
  nonneg x -> positiveFinite y -> nonneg (SFmul prec emax x y).
Proof.
  destruct x as [s|s| |s m e], y as [t|t| |[|] n f]; cbn [SFmul nonneg positiveFinite];
    intros Hx Hy; try tauto; subst; try reflexivity.
  apply binary_round_aux_nonneg. lia.
Qed.

Lemma SFadd_nonneg x y : nonneg x -> nonneg y -> nonneg (SFadd prec emax x y).
Proof.
  destruct x as [s|s| |s m e], y as [t|t| |t n f]; cbn [SFadd nonneg];
    intros Hx Hy; try tauto; subst; try reflexivity.
  - now destruct s, t.
  - apply binary_normalize_nonneg. cbn [cond_Zopp]. lia.
Qed.

Lemma SFsub_number x y :
  x <> S754_nan -> finiteValue y -> SFsub prec emax x y <> S754_nan.
Proof.
  destruct x as [s|s| |s m e], y as [t|t| |t n f]; cbn [SFsub finiteValue];
    intros Hx Hy; try tauto; try discriminate.
  apply binary_normalize_number.
Qed.

Lemma div_eucl_nonneg a b : (0 <= a)%Z -> (0 < b)%Z -> (0 <= fst (Z.div_eucl a b))%Z.
Proof. intros Ha Hb. change (fst (Z.div_eucl a b)) with (a / b)%Z. now apply Z.div_pos. Qed.

Lemma SFdiv_core_nonneg m1 e1 m2 e2 :
  (0 <= fst (fst (SFdiv_core_binary prec emax (Zpos m1) e1 (Zpos m2) e2)))%Z.
Proof.
  unfold SFdiv_core_binary.
  match goal with |- context [Z.div_eucl ?a ?b] =>
    assert (H : (0 <= fst (Z.div_eucl a b))%Z) end.
  { apply div_eucl_nonneg; [| lia].
    destruct (_ - _ - _)%Z; try lia. apply Z.shiftl_nonneg. lia. }
  destruct (Z.div_eucl _ _) as [q r]. exact H.
Qed.

Lemma SFdiv_sign x y :
  x <> S754_nan -> finiteValue y -> SFdiv prec emax x y <> S754_nan.
Proof.
  destruct x as [s|s| |s m e], y as [t|t| |t n f]; cbn [SFdiv finiteValue];
    intros Hx Hy; try tauto; try discriminate.
  pose proof (SFdiv_core_nonneg m e n f) as H.
  destruct (SFdiv_core_binary _ _ _ _ _ _) as [[mz ez] lz]. cbn [fst] in H.
  now apply binary_round_aux_number.
Qed.

Lemma SFdiv_nonneg x y :
  nonneg x -> positiveFinite y -> nonneg (SFdiv prec emax x y).
Proof.
  destruct x as [s|s| |s m e], y as [t|t| |[|] n f]; cbn [SFdiv nonneg positiveFinite];
    intros Hx Hy; try tauto; subst; try reflexivity.
  pose proof (SFdiv_core_nonneg m e n f) as H.
  destruct (SFdiv_core_binary _ _ _ _ _ _) as [[mz ez] lz]. cbn [fst] in H.
  now apply binary_round_aux_nonneg.
Qed.

Lemma SFsqrt_core_nonneg m e :
  (0 <= fst (fst (SFsqrt_core_binary prec emax (Zpos m) e)))%Z.
Proof.
  unfold SFsqrt_core_binary.
  match goal with |- context [Z.sqrtrem ?a] =>
    assert (H : (0 <= fst (Z.sqrtrem a))%Z) end.
  { rewrite Z.sqrtrem_sqrt. apply Z.sqrt_nonneg. }
  destruct (Z.sqrtrem _) as [q r]. exact H.
Qed.

Lemma SFsqrt_nonneg x : nonneg x -> nonneg (SFsqrt prec emax x).
Proof.
  destruct x as [s|s| |s m e]; cbn [SFsqrt nonneg]; intros Hx; try tauto; subst;
    try reflexivity.
  pose proof (SFsqrt_core_nonneg m e) as H.
  destruct (SFsqrt_core_binary _ _ _ _) as [[mz ez] lz]. cbn [fst] in H.
  now apply binary_round_aux_nonneg.
Qed.

Lemma digits2_pos_lower p : (2 ^ (Zpos (digits2_pos p) - 1) <= Zpos p)%Z.
Proof.
  induction p as [p IH|p IH|]; cbn [digits2_pos]; [| | cbn; lia];
    rewrite Pos2Z.inj_succ;
    replace (Z.succ (Zpos (digits2_pos p)) - 1)%Z
      with (Z.succ (Zpos (digits2_pos p) - 1))%Z by lia;
    rewrite Z.pow_succ_r by lia; lia.
Qed.

Lemma digits2_pos_iter p k :
  digits2_pos (Pos.iter xO p k) = (digits2_pos p + k)%positive.
Proof.
  induction k as [|k IH] using Pos.peano_ind.
  - cbn. lia.
  - rewrite Pos.iter_succ. cbn [digits2_pos]. rewrite IH. lia.
Qed.

(** A mantissa of full precision with an exponent in range is kept as it
    is. *)
Lemma binary_round_aux_canonical sx mz ez :
  Zpos (digits2_pos mz) = prec -> (-1074 <= ez <= 971)%Z ->
  binary_round_aux prec emax sx (Zpos mz) ez loc_Exact = S754_finite sx mz ez.
Proof.
  intros D R. unfold binary_round_aux.
  assert (S : shr_fexp prec emax (Zpos mz) ez loc_Exact
              = (Build_shr_record (Zpos mz) false false, ez)).
  { unfold shr_fexp. cbn [Zdigits2 shr_record_of_loc]. rewrite D.
    replace (fexp prec emax (prec + ez) - ez)%Z with 0%Z; [reflexivity |].
    unfold fexp, emin, prec, emax. lia. }
  rewrite S. cbn [shr_m loc_of_shr_record round_nearest_even]. rewrite S.
  cbn [shr_m]. replace (ez <=? emax - prec)%Z with true; [reflexivity |].
  symmetry. apply Z.leb_le. unfold emax, prec. lia.
Qed.

(** An integer between 1 and 2^53 is a positive finite value. *)
Lemma binary_round_count p :
  (Zpos p < 2 ^ 53)%Z -> positiveFinite (binary_round prec emax false p 0).
Proof.
  intros B. unfold binary_round.
  pose proof (digits2_pos_lower p) as L.
  assert (D : (Zpos (digits2_pos p) <= 53)%Z).
  { destruct (Z.le_gt_cases (Zpos (digits2_pos p)) 53) as [H|H]; [exact H |].
    assert (2 ^ 53 <= 2 ^ (Zpos (digits2_pos p) - 1))%Z
      by (apply Z.pow_le_mono_r; lia). lia. }
  assert (F : fexp prec emax (Zpos (digits2_pos p) + 0) = (Zpos (digits2_pos p) - 53)%Z)
    by (unfold fexp, emin, prec, emax; lia).
  rewrite F. unfold shl_align.
  destruct (Zpos (digits2_pos p) - 53 - 0)%Z as [|k|k] eqn:E; [| lia |].
  - rewrite binary_round_aux_canonical; [exact I | unfold prec; lia | lia].
  - rewrite binary_round_aux_canonical; [exact I | | lia].
    rewrite digits2_pos_iter. unfold prec. lia.
Qed.

End BinaryFacts.

(* --------------------------------------------------------------------- *)
(** ** The voice level meter on frames of numbers                         *)
(* --------------------------------------------------------------------- *)

Module MeterNumbers.
Import PrimFloat SpecFloat FloatOps FloatAxioms.
Import AskAudioCapture AskAudioCaptureRuns VoiceLevels VoiceLevelMeter
       LevelMeterProperties BinaryFacts.

Lemma SFcompare_refl x : x <> S754_nan -> SFcompare x x = Some Eq.
Proof.
  destruct x as [s|s| |s m e]; cbn; intros N; try congruence; try now destruct s.
  rewrite Z.compare_refl, Pos.compare_cont_refl. now destruct s.
Qed.

Lemma is_nan_spec x : is_nan x = true <-> Prim2SF x = S754_nan.
Proof.
  unfold is_nan. rewrite eqb_spec. unfold SFeqb. split.
  - intros H. destruct (Prim2SF x) eqn:E; try reflexivity;
      rewrite SFcompare_refl in H by discriminate; discriminate.
  - intros E. rewrite E. reflexivity.
Qed.

Lemma number_spec x : is_nan x = false <-> Prim2SF x <> S754_nan.
Proof.
  rewrite <- is_nan_spec. destruct (is_nan x); split; congruence.
Qed.

Lemma nonNegative_spec x : nonNegative x = true <-> nonneg (Prim2SF x).
Proof.
  unfold nonNegative. rewrite leb_spec. unfold SFleb.
  change (Prim2SF 0) with (S754_zero false).
  destruct (Prim2SF x) as [s|s| |s m e]; cbn; try destruct s; split;
    congruence || tauto.
Qed.

Lemma nonneg_number f : nonneg f -> f <> S754_nan.
Proof. now destruct f. Qed.

Lemma nonNegative_number x : nonNegative x = true -> is_nan x = false.
Proof. rewrite nonNegative_spec, number_spec. apply nonneg_number. Qed.

Lemma positiveFinite_finite f : positiveFinite f -> finiteValue f.
Proof. now destruct f as [| | |[|] m e]. Qed.

(** The length of an array with at least one element is a positive finite
    number. *)
Lemma numberOfLength_positive {A : Type} (l : list A) :
  l <> [] -> (Z.of_nat (List.length l) < 2 ^ 53)%Z ->
  positiveFinite (Prim2SF (numberOfLength l)).
Proof.
  intros N B. unfold numberOfLength. rewrite of_uint63_spec, Uint63.of_Z_spec.
  rewrite Z.mod_small.
  2:{ split; [lia |]. apply Z.lt_trans with (1 := B). reflexivity. }
  destruct (Z.of_nat (List.length l)) as [|p|p] eqn:E.
  - destruct l; [congruence | cbn [List.length] in E; lia].
  - cbn [binary_normalize]. now apply binary_round_count.
  - lia.
Qed.

(** *** Frames of numbers *)

Lemma sumOfSquares_nonneg (data : list float) (acc : float) :
  nonneg (Prim2SF acc) ->
  Forall (fun v => is_nan v = false) data ->
  nonneg (Prim2SF (fold_left (fun acc x => (acc + x * x)%float) data acc)).
Proof.
  revert acc. induction data as [|x data IH]; intros acc A H; [exact A |].
  inversion H as [|? ? Hx Hd]; subst. cbn [fold_left]. apply IH; [| exact Hd].
  rewrite add_spec, mul_spec. apply SFadd_nonneg; [exact A |].
  apply SFmul_square. now apply number_spec.
Qed.

Lemma sum_nonneg (h : list float) (acc : float) :
  nonneg (Prim2SF acc) ->
  Forall (fun x => nonNegative x = true) h ->
  nonneg (Prim2SF (fold_left (fun a b => (a + b)%float) h acc)).
Proof.
  revert acc. induction h as [|x h IH]; intros acc A H; [exact A |].
  inversion H as [|? ? Hx Hd]; subst. cbn [fold_left]. apply IH; [| exact Hd].
  rewrite add_spec. apply SFadd_nonneg; [exact A |]. now apply nonNegative_spec.
Qed.

Lemma rms_nonneg (data : list float) :
  data <> [] -> numeric (Some data) -> nonneg (Prim2SF (rms data)).
Proof.
  intros N [H B]. unfold rms. rewrite sqrt_spec, div_spec.
  apply SFsqrt_nonneg, SFdiv_nonneg.
  - apply sumOfSquares_nonneg; [exact I | exact H].
  - now apply numberOfLength_positive.
Qed.

Lemma mathMax_zero_number (v : float) :
  is_nan v = false -> nonNegative (mathMax 0 v) = true.
Proof.
  intros N. unfold mathMax. rewrite N. change (is_nan 0) with false. cbn [orb].
  destruct (0 <? v)%float eqn:E; [now apply ltb_leb |].
  destruct (v <? 0)%float; reflexivity.
Qed.

Lemma mathMin_one_unit (m : float) :
  nonNegative m = true ->
  nonNegative (mathMin 1 m) = true /\ (mathMin 1 m <=? 1)%float = true.
Proof.
  intros P. unfold mathMin. rewrite (nonNegative_number m P).
  change (is_nan 1) with false. cbn [orb].
  destruct (1 <? m)%float; [split; reflexivity |].
  destruct (m <? 1)%float eqn:E; [split; [exact P | now apply ltb_leb] |].
  split; reflexivity.
Qed.

(** The level of a frame of numbers is a number of the unit range. *)
Lemma frameLevel_unit (data : list float) :
  data <> [] -> numeric (Some data) ->
  nonNegative (frameLevel data) = true /\ (frameLevel data <=? 1)%float = true.
Proof.
  intros N H. unfold frameLevel. apply mathMin_one_unit, mathMax_zero_number.
  apply number_spec. rewrite div_spec, sub_spec.
  apply SFdiv_sign; [| vm_compute; exact I].
  apply SFsub_number; [| vm_compute; exact I].
  apply nonneg_number. now apply rms_nonneg.
Qed.

(** The smoothing step keeps a meter free of NaN. *)
Lemma updateSmoothedVoiceLevel_numbers (s : capture) :
  holdsNumbers s -> holdsNumbers (updateSmoothedVoiceLevel s).
Proof.
  intros (S & H & L). unfold holdsNumbers, updateSmoothedVoiceLevel.
  cbn [smoothedVoiceLevel voiceLevelHistory]. split; [| now split].
  apply nonNegative_spec. rewrite add_spec, !mul_spec.
  apply SFadd_nonneg.
  - apply SFmul_nonneg; [now apply nonNegative_spec | vm_compute; exact I].
  - apply SFmul_nonneg; [| vm_compute; exact I].
    destruct (voiceLevelHistory s) as [|x h] eqn:E; [exact I |].
    rewrite div_spec. apply SFdiv_nonneg.
    + apply sum_nonneg; [exact I | exact H].
    + apply numberOfLength_positive; [discriminate |].
      unfold VOICE_LEVEL_HISTORY_SIZE in L.
      apply Z.le_lt_trans with (m := 10%Z); [lia | reflexivity].
Qed.

(** One frame of numbers keeps a meter free of NaN. *)
Lemma calculateVoiceLevel_numbers (audioData : option (list float)) (s : capture) :
  holdsNumbers s -> numeric audioData ->
  holdsNumbers (snd (calculateVoiceLevel audioData s)).
Proof.
  intros K N.
  assert (E : snd (calculateVoiceLevel audioData s)
              = updateSmoothedVoiceLevel
                  (withLevel (currentVoiceLevel (snd (calculateVoiceLevel audioData s)))
                             (voiceLevelHistory (snd (calculateVoiceLevel audioData s))) s))
    by (destruct audioData as [[|x data]|]; reflexivity).
  rewrite E. apply updateSmoothedVoiceLevel_numbers.
  destruct K as (S & H & L). unfold holdsNumbers, withLevel.
  cbn [smoothedVoiceLevel voiceLevelHistory]. split; [exact S |]. split.
  - apply history_step; [exact H |]. intros x data ->.
    now apply frameLevel_unit.
  - now apply history_bounded.
Qed.

Lemma observeAll_numbers (frames : list (option (list float))) (s : capture) :
  holdsNumbers s -> Forall numeric frames -> holdsNumbers (observeAll frames s).
Proof.
  revert s. induction frames as [|f rest IH]; intros s K N; [exact K |].
  inversion N; subst. cbn [observeAll]. apply IH; [| assumption].
  now apply calculateVoiceLevel_numbers.
Qed.

Lemma returned_level (audioData : option (list float)) (s : capture) :
  fst (calculateVoiceLevel audioData s)
  = match audioData with
    | Some (_ :: _) => smoothedVoiceLevel (snd (calculateVoiceLevel audioData s))
    | _ => 0%float
    end.
Proof. destruct audioData as [[|x data]|]; reflexivity. Qed.

(** *** NaN *)

Lemma add_nan_l x y : is_nan x = true -> is_nan (x + y)%float = true.
Proof. rewrite !is_nan_spec, add_spec. now intros ->. Qed.

Lemma add_nan_r x y : is_nan y = true -> is_nan (x + y)%float = true.
Proof. rewrite !is_nan_spec, add_spec. intros ->. now destruct (Prim2SF x). Qed.

Lemma mul_nan_l x y : is_nan x = true -> is_nan (x * y)%float = true.
Proof. rewrite !is_nan_spec, mul_spec. now intros ->. Qed.

Lemma sub_nan_l x y : is_nan x = true -> is_nan (x - y)%float = true.
Proof. rewrite !is_nan_spec, sub_spec. now intros ->. Qed.

Lemma div_nan_l x y : is_nan x = true -> is_nan (x / y)%float = true.
Proof. rewrite !is_nan_spec, div_spec. now intros ->. Qed.

Lemma sqrt_nan x : is_nan x = true -> is_nan (sqrt x) = true.
Proof. rewrite !is_nan_spec, sqrt_spec. now intros ->. Qed.

Lemma sumOfSquares_nan (data : list float) (acc : float) :
  is_nan acc = true \/ Exists (fun v => is_nan v = true) data ->
  is_nan (fold_left (fun acc x => (acc + x * x)%float) data acc) = true.
Proof.
  revert acc. induction data as [|x data IH]; intros acc H; cbn [fold_left].
  - destruct H as [H | H]; [exact H | inversion H].
  - apply IH. destruct H as [H | H]; [left; now apply add_nan_l |].
    inversion H; subst; [left | now right].
    now apply add_nan_r, mul_nan_l.
Qed.

Lemma sum_nan (h : list float) (acc : float) :
  is_nan acc = true \/ Exists (fun v => is_nan v = true) h ->
  is_nan (fold_left (fun a b => (a + b)%float) h acc) = true.
Proof.
  revert acc. induction h as [|x h IH]; intros acc H; cbn [fold_left].
  - destruct H as [H | H]; [exact H | inversion H].
  - apply IH. destruct H as [H | H]; [left; now apply add_nan_l |].
    inversion H; subst; [left | now right].
    now apply add_nan_r.
Qed.

(** One NaN sample makes the level of the frame NaN. *)
Lemma frameLevel_nan (data : list float) :
  Exists (fun v => is_nan v = true) data -> is_nan (frameLevel data) = true.
Proof.
  intros H. unfold frameLevel, mathMin, mathMax.
  assert (N : is_nan ((rms data - VOICE_LEVEL_MIN) / (VOICE_LEVEL_MAX - VOICE_LEVEL_MIN))%float
              = true).
  { apply div_nan_l, sub_nan_l, sqrt_nan, div_nan_l, sumOfSquares_nan. now right. }
  rewrite N, orb_true_r. reflexivity.
Qed.

(** The smoothing step on a NaN smoothed level, or on a history with a NaN
    entry, gives NaN. *)
Lemma updateSmoothedVoiceLevel_nan (s : capture) :
  is_nan (smoothedVoiceLevel s) = true \/
  Exists (fun v => is_nan v = true) (voiceLevelHistory s) ->
  is_nan (smoothedVoiceLevel (updateSmoothedVoiceLevel s)) = true.
Proof.
  intros H. unfold updateSmoothedVoiceLevel. cbn [smoothedVoiceLevel].
  destruct H as [H | H]; [now apply add_nan_l, mul_nan_l |].
  apply add_nan_r, mul_nan_l.
  destruct (voiceLevelHistory s) as [|x h] eqn:E; [inversion H |].
  apply div_nan_l, sum_nan. now right.
Qed.

Lemma pushed_level_stays (h : list float) (lvl : float) (P : float -> Prop) :
  P lvl ->
  Exists P (if (VOICE_LEVEL_HISTORY_SIZE <? List.length (h ++ [lvl]))%nat
            then tl (h ++ [lvl]) else h ++ [lvl]).
Proof.
  intros H.
  assert (K : forall l, Exists P (l ++ [lvl]))
    by (intros l; apply Exists_app; right; now constructor).
  destruct (Nat.ltb_spec VOICE_LEVEL_HISTORY_SIZE (List.length (h ++ [lvl]))) as [L | L];
    [| apply K].
  destruct h as [|x h]; [cbn in L; unfold VOICE_LEVEL_HISTORY_SIZE in L; lia |].
  cbn [app tl]. apply K.
Qed.

Lemma calculateVoiceLevel_nan (x : float) (data : list float) (s : capture) :
  is_nan (smoothedVoiceLevel s) = true \/
  Exists (fun v => is_nan v = true) (x :: data) ->
  is_nan (fst (calculateVoiceLevel (Some (x :: data)) s)) = true.
Proof.
  intros H. cbn [calculateVoiceLevel fst]. apply updateSmoothedVoiceLevel_nan.
  unfold withLevel. cbn [smoothedVoiceLevel voiceLevelHistory].
  destruct H as [H | H]; [now left | right].
  apply (pushed_level_stays (voiceLevelHistory s) _ (fun v => is_nan v = true)).
  now apply (frameLevel_nan (x :: data)).
Qed.

Lemma smoothed_nan_stays (audioData : option (list float)) (s : capture) :
  is_nan (smoothedVoiceLevel s) = true ->
  is_nan (smoothedVoiceLevel (snd (calculateVoiceLevel audioData s))) = true.
Proof.
  intros H.
  destruct audioData as [[|x data]|]; cbn [calculateVoiceLevel snd];
    apply updateSmoothedVoiceLevel_nan; left; exact H.
Qed.

Lemma constructor_holds_numbers : holdsNumbers init /\ holdsNumbers started.
Proof.
  split; (split; [reflexivity |]; split; [constructor |]); cbn; lia.
Qed.

(** C7 (amended): on an absent or empty frame the meter returns level 0,
    sets the current level to 0 and leaves the rolling history exactly as
    it was (no entry is pushed), the smoothed level being updated from the
    unchanged history. On a meter that holds no NaN (the constructor's
    state is one), after any run of frames whose samples are numbers, a
    frame of numbers gets a returned level that is a number (not NaN) and
    not below zero, a stored current level between 0 and 1, and leaves a
    meter that holds no NaN. NaN is let through and kept: a frame with a
    NaN sample, and any frame with samples once the smoothed level is NaN,
    returns NaN, and a smoothed level that is NaN stays NaN over every
    frame. *)
Theorem meter_levels_are_numbers (s : capture) :
  (fst (calculateVoiceLevel None s) = 0%float /\
   fst (calculateVoiceLevel (Some []) s) = 0%float /\
   voiceLevelHistory (snd (calculateVoiceLevel None s)) = voiceLevelHistory s /\
   voiceLevelHistory (snd (calculateVoiceLevel (Some []) s)) = voiceLevelHistory s /\
   currentVoiceLevel (snd (calculateVoiceLevel None s)) = 0%float /\
   currentVoiceLevel (snd (calculateVoiceLevel (Some []) s)) = 0%float /\
   snd (calculateVoiceLevel None s) = snd (calculateVoiceLevel (Some []) s) /\
   snd (calculateVoiceLevel None s) =
     updateSmoothedVoiceLevel (withLevel 0%float (voiceLevelHistory s) s)) /\
  (forall frames audioData,
     holdsNumbers s -> Forall numeric frames -> numeric audioData ->
     let r := calculateVoiceLevel audioData (observeAll frames s) in
     is_nan (fst r) = false /\
     nonNegative (fst r) = true /\
     nonNegative (currentVoiceLevel (snd r)) = true /\
     (currentVoiceLevel (snd r) <=? 1)%float = true /\
     holdsNumbers (snd r)) /\
  (forall x data,
     is_nan (smoothedVoiceLevel s) = true \/
     Exists (fun v => is_nan v = true) (x :: data) ->
     is_nan (fst (calculateVoiceLevel (Some (x :: data)) s)) = true) /\
  (forall audioData,
     is_nan (smoothedVoiceLevel s) = true ->
     is_nan (smoothedVoiceLevel (snd (calculateVoiceLevel audioData s))) = true).
Proof.
  split; [repeat split; reflexivity |]. split; [| split].
  - intros frames audioData K F N r.
    pose proof (observeAll_numbers frames s K F) as K1.
    pose proof (calculateVoiceLevel_numbers audioData _ K1 N) as K2.
    fold r in K2.
    assert (P : nonNegative (fst r) = true).
    { unfold r. rewrite returned_level.
      destruct audioData as [[|x data]|]; try reflexivity. apply K2. }
    split; [now apply nonNegative_number |]. split; [exact P |].
    unfold r. rewrite level_after_frame.
    destruct audioData as [[|x data]|];
      try (split; [reflexivity | split; [reflexivity | exact K2]]).
    destruct (frameLevel_unit (x :: data)) as [A B]; [discriminate | exact N |].
    split; [exact A | split; [exact B | exact K2]].
  - intros x data. apply calculateVoiceLevel_nan.
  - intros audioData. apply smoothed_nan_stays.
Qed.

(** The claim as it stands fails on a sample that is NaN: the frame returns
    NaN, and so does the next frame of ordinary samples. *)
Lemma nan_sample_gives_nan_level :
  let r := calculateVoiceLevel (Some [nan]) started in
  is_nan (fst r) = true /\
  is_nan (fst (calculateVoiceLevel (Some [0.1; 0.1]%float) (snd r))) = true.
Proof. vm_compute. split; reflexivity. Qed.

Lemma meter_levels_are_numbers_witness :
  let r := calculateVoiceLevel (Some [0.05; -0.2]%float)
             (observeAll [Some [0.1; 0.1]%float; None; Some []] started) in
  is_nan (fst r) = false /\
  nonNegative (fst r) = true /\
  nonNegative (currentVoiceLevel (snd r)) = true /\
  (currentVoiceLevel (snd r) <=? 1)%float = true /\
  holdsNumbers (snd r).
Proof.
  refine (proj1 (proj2 (meter_levels_are_numbers started))
            [Some [0.1; 0.1]%float; None; Some []] (Some [0.05; -0.2]%float) _ _ _).
  - split; [reflexivity |]. split; [constructor |]. cbn. lia.
  - repeat constructor.
  - repeat constructor.
Defined.

End MeterNumbers.

(* --------------------------------------------------------------------- *)
(** ** The capture callback: chunking                                     *)
(* --------------------------------------------------------------------- *)

Module CaptureLoopProperties.
Import PrimFloat AskAudioCapture AskAudioCaptureLoop.

(** The chunk size is the product the source computes. *)
Example chunk_size_is_the_product :
  (24000 * AUDIO_CHUNK_DURATION)%float
  = PrimFloat.of_uint63 (Uint63.of_Z (Z.of_nat installedChunkSize)).
Proof. vm_compute. reflexivity. Qed.

Lemma installedChunkSize_pos : (0 < installedChunkSize)%nat.
Proof. apply Nat.lt_0_succ. Qed.

Lemma uiUpdates_app out1 out2 : uiUpdates (out1 ++ out2) = (uiUpdates out1 + uiUpdates out2)%nat.
Proof. unfold uiUpdates. now rewrite filter_app, length_app. Qed.

Lemma uiUpdates_endVoiceSegment s : uiUpdates (snd (endVoiceSegment s)) = 0%nat.
Proof.
  unfold endVoiceSegment. destruct (negb _); [reflexivity |].
  cbn [snd]. destruct (Qle_bool _ _); reflexivity.
Qed.

(** One chunk updates the voice indicator once. *)
Lemma uiUpdates_handleVoiceSegment chunk hasVoice level s :
  uiUpdates (snd (handleVoiceSegment chunk hasVoice level s)) = 1%nat.
Proof.
  unfold handleVoiceSegment. cbv zeta.
  match goal with
  | |- context [let '(s1, out1) := ?X in _] =>
      assert (K : uiUpdates (snd X) = 0%nat);
        [| destruct X as [s1 out1]; cbn [snd] in K ]
  end.
  { destruct hasVoice; [reflexivity |].
    destruct (_ && _); [apply uiUpdates_endVoiceSegment | reflexivity]. }
  match goal with
  | |- context [let '(s2, out2) := ?X in _] =>
      assert (K' : uiUpdates (snd X) = 0%nat);
        [| destruct X as [s2 out2]; cbn [snd] in K' ]
  end.
  { destruct (Qle_bool _ _); [apply uiUpdates_endVoiceSegment | reflexivity]. }
  cbn [snd]. rewrite !uiUpdates_app, K, K'. reflexivity.
Qed.

Section Recorder.

Variable vadState : Type.
Variable processVAD : vadState -> list float -> vadState * bool.
Variable samplesPerChunk : nat.
Hypothesis samplesPerChunk_pos : (0 < samplesPerChunk)%nat.

Local Abbreviation processChunk := (processChunk vadState processVAD).
Local Abbreviation drain := (drain vadState processVAD samplesPerChunk).
Local Abbreviation onaudioprocess := (onaudioprocess vadState processVAD samplesPerChunk).
Local Abbreviation deliver := (deliver vadState processVAD samplesPerChunk).

Lemma withBuffer_withBuffer (a b : list float) (r : recorder vadState) :
  withBuffer a (withBuffer b r) = withBuffer a r.
Proof. reflexivity. Qed.

Lemma withBuffer_same (r : recorder vadState) : withBuffer (audioBuffer r) r = r.
Proof. now destruct r. Qed.

Lemma audioBuffer_withBuffer (buffer : list float) (r : recorder vadState) :
  audioBuffer (withBuffer buffer r) = buffer.
Proof. reflexivity. Qed.

Lemma withBuffer_behind (buffer more : list float) (r : recorder vadState) :
  withBuffer (buffer ++ more) r
  = withBuffer (audioBuffer (withBuffer buffer r) ++ more) (withBuffer buffer r).
Proof. reflexivity. Qed.

(** The body of the loop does not touch the sample buffer. *)
Lemma processChunk_withBuffer chunk buffer (r : recorder vadState) :
  processChunk chunk (withBuffer buffer r)
  = (withBuffer buffer (fst (processChunk chunk r)), snd (processChunk chunk r)).
Proof.
  unfold AskAudioCaptureLoop.processChunk. cbn [engine vad audioBuffer withBuffer].
  destruct (calculateVoiceLevel _ _) as [level e1].
  destruct (processVAD _ _) as [v1 hasVoice].
  destruct (handleVoiceSegment _ _ _ _) as [e2 out]. reflexivity.
Qed.

Lemma processChunk_buffer chunk (r : recorder vadState) :
  audioBuffer (fst (processChunk chunk r)) = audioBuffer r.
Proof.
  unfold AskAudioCaptureLoop.processChunk.
  destruct (calculateVoiceLevel _ _) as [level e1].
  destruct (processVAD _ _) as [v1 hasVoice].
  destruct (handleVoiceSegment _ _ _ _) as [e2 out]. reflexivity.
Qed.

Lemma processChunk_ui chunk (r : recorder vadState) :
  uiUpdates (snd (processChunk chunk r)) = 1%nat.
Proof.
  unfold AskAudioCaptureLoop.processChunk.
  destruct (calculateVoiceLevel _ _) as [level e1].
  destruct (processVAD _ _) as [v1 hasVoice].
  pose proof (uiUpdates_handleVoiceSegment chunk hasVoice level e1) as K.
  destruct (handleVoiceSegment _ _ _ _) as [e2 out]. exact K.
Qed.

(** One iteration of the loop. *)
Lemma drain_S fuel (r : recorder vadState) :
  drain (S fuel) r
  = if (samplesPerChunk <=? List.length (audioBuffer r))%nat then
      let p := processChunk (firstn samplesPerChunk (audioBuffer r))
                            (withBuffer (skipn samplesPerChunk (audioBuffer r)) r) in
      let q := drain fuel (fst p) in
      (fst q, snd p ++ snd q)
    else (r, []).
Proof.
  cbn [AskAudioCaptureLoop.drain]. destruct (_ <=? _)%nat; [| reflexivity].
  cbv zeta. destruct (processChunk _ _) as [r1 out1]. cbn [fst snd].
  destruct (drain fuel r1) as [r2 out2]. reflexivity.
Qed.

Lemma drain_short fuel (r : recorder vadState) :
  (List.length (audioBuffer r) < samplesPerChunk)%nat -> drain fuel r = (r, []).
Proof.
  intros H. destruct fuel; [reflexivity |]. rewrite drain_S.
  destruct (Nat.leb_spec samplesPerChunk (List.length (audioBuffer r))); [lia | reflexivity].
Qed.

(** What the loop leaves, given fuel enough: fewer samples than a chunk,
    namely the input without its first [k] chunks, after [k] updates of
    the indicator. *)
Lemma drain_result fuel (r : recorder vadState) :
  (List.length (audioBuffer r) <= fuel)%nat ->
  exists k,
    (k * samplesPerChunk <= List.length (audioBuffer r))%nat /\
    audioBuffer (fst (drain fuel r)) = skipn (k * samplesPerChunk) (audioBuffer r) /\
    (List.length (audioBuffer (fst (drain fuel r))) < samplesPerChunk)%nat /\
    uiUpdates (snd (drain fuel r)) = k.
Proof.
  pose proof samplesPerChunk_pos as Pos.
  revert r. induction fuel as [|fuel IH]; intros r H.
  - exists 0%nat. cbn [AskAudioCaptureLoop.drain fst snd Nat.mul skipn].
    repeat split; try lia.
  - rewrite drain_S.
    destruct (Nat.leb_spec samplesPerChunk (List.length (audioBuffer r))) as [L | L].
    + cbv zeta. cbn [fst snd]. rewrite processChunk_withBuffer. cbn [fst snd].
      pose proof (processChunk_ui (firstn samplesPerChunk (audioBuffer r)) r) as U.
      destruct (processChunk (firstn samplesPerChunk (audioBuffer r)) r) as [r1 out1].
      cbn [fst snd] in *.
      destruct (IH (withBuffer (skipn samplesPerChunk (audioBuffer r)) r1))
        as (k & K1 & K2 & K3 & K4).
      { rewrite audioBuffer_withBuffer, length_skipn. lia. }
      rewrite audioBuffer_withBuffer in K1, K2. rewrite length_skipn in K1.
      exists (S k). rewrite Nat.mul_succ_l.
      repeat split; [lia | | exact K3 |].
      * rewrite K2, skipn_skipn. reflexivity.
      * rewrite uiUpdates_app, K4, U. lia.
    + exists 0%nat. cbn [fst snd Nat.mul skipn]. repeat split; try lia.
Qed.

Lemma drain_keeps_less fuel (r : recorder vadState) :
  (List.length (audioBuffer (fst (drain fuel r))) <= List.length (audioBuffer r))%nat.
Proof.
  revert r. induction fuel as [|fuel IH]; intros r; [reflexivity |].
  rewrite drain_S. destruct (_ <=? _)%nat; [| reflexivity].
  cbv zeta. cbn [fst]. etransitivity; [apply IH |].
  rewrite processChunk_buffer. cbn [audioBuffer withBuffer]. rewrite length_skipn. lia.
Qed.

(** Any fuel that covers the buffer gives the same run. *)
Lemma drain_enough fuel fuel' (r : recorder vadState) :
  (List.length (audioBuffer r) <= fuel)%nat ->
  (List.length (audioBuffer r) <= fuel')%nat ->
  drain fuel r = drain fuel' r.
Proof.
  pose proof samplesPerChunk_pos as Pos.
  revert fuel' r. induction fuel as [|fuel IH]; intros fuel' r H H'.
  - rewrite !drain_short by lia. reflexivity.
  - destruct fuel' as [|fuel']; [rewrite !drain_short by lia; reflexivity |].
    rewrite !drain_S.
    destruct (Nat.leb_spec samplesPerChunk (List.length (audioBuffer r))) as [L | L];
      [| reflexivity].
    cbv zeta. rewrite (IH fuel'); [reflexivity | |];
      rewrite processChunk_buffer; cbn [audioBuffer withBuffer]; rewrite length_skipn; lia.
Qed.

(** Samples appended behind the buffer do not change what the loop does
    with the chunks in front of them. *)
Lemma drain_app fuel (r : recorder vadState) (more : list float) :
  (List.length (audioBuffer r) <= fuel)%nat ->
  drain (fuel + List.length more) (withBuffer (audioBuffer r ++ more) r)
  = let p := drain fuel r in
    let q := drain (fuel + List.length more)
                   (withBuffer (audioBuffer (fst p) ++ more) (fst p)) in
    (fst q, snd p ++ snd q).
Proof.
  pose proof samplesPerChunk_pos as Pos.
  revert r. induction fuel as [|fuel IH]; intros r H; cbv zeta.
  - cbn [AskAudioCaptureLoop.drain fst snd app].
    now destruct (drain _ _).
  - rewrite (drain_S fuel r).
    destruct (Nat.leb_spec samplesPerChunk (List.length (audioBuffer r))) as [L | L].
    + cbn [Nat.add]. rewrite drain_S. cbn [audioBuffer withBuffer].
      rewrite length_app.
      destruct (Nat.leb_spec samplesPerChunk (List.length (audioBuffer r) + List.length more));
        [| lia].
      cbv zeta. cbn [fst snd].
      rewrite firstn_app, skipn_app.
      replace (samplesPerChunk - List.length (audioBuffer r))%nat with 0%nat by lia.
      cbn [firstn skipn]. rewrite app_nil_r.
      rewrite withBuffer_withBuffer, !processChunk_withBuffer. cbn [fst snd].
      destruct (processChunk (firstn samplesPerChunk (audioBuffer r)) r) as [r' out1].
      cbn [fst snd].
      rewrite (withBuffer_behind (skipn samplesPerChunk (audioBuffer r)) more r').
      set (r1 := withBuffer (skipn samplesPerChunk (audioBuffer r)) r').
      assert (R1 : (List.length (audioBuffer r1) <= fuel)%nat).
      { unfold r1. rewrite audioBuffer_withBuffer, length_skipn. lia. }
      rewrite (IH r1 R1). cbv zeta. cbn [fst snd].
      pose proof (drain_keeps_less fuel r1) as Less.
      rewrite (drain_enough (fuel + List.length more) (S (fuel + List.length more))).
      * now rewrite app_assoc.
      * rewrite audioBuffer_withBuffer, length_app. lia.
      * rewrite audioBuffer_withBuffer, length_app. lia.
    + cbn [fst snd app]. now destruct (drain _ _).
Qed.

(** Two callbacks in a row are one callback on both inputs. *)
Lemma onaudioprocess_app (a b : list float) (r : recorder vadState) :
  onaudioprocess (a ++ b) r
  = let p := onaudioprocess a r in
    let q := onaudioprocess b (fst p) in
    (fst q, snd p ++ snd q).
Proof.
  unfold AskAudioCaptureLoop.onaudioprocess. cbv zeta. cbn [audioBuffer withBuffer].
  set (r0 := withBuffer (audioBuffer r ++ a) r).
  replace (withBuffer (audioBuffer r ++ a ++ b) r)
    with (withBuffer (audioBuffer r0 ++ b) r0)
    by (unfold r0; cbn [audioBuffer withBuffer]; now rewrite app_assoc).
  replace (List.length (audioBuffer r ++ a ++ b))
    with (List.length (audioBuffer r0) + List.length b)%nat
    by (unfold r0; cbn [audioBuffer withBuffer]; rewrite !length_app; lia).
  fold r0. change (audioBuffer r ++ a) with (audioBuffer r0).
  rewrite (drain_app (List.length (audioBuffer r0)) r0 b (Nat.le_refl _)). cbv zeta.
  set (p := drain (List.length (audioBuffer r0)) r0).
  rewrite (drain_enough (List.length (audioBuffer r0) + List.length b)
                        (List.length (audioBuffer (fst p) ++ b))); [reflexivity | |].
  - cbn [audioBuffer withBuffer]. rewrite length_app.
    pose proof (drain_keeps_less (List.length (audioBuffer r0)) r0). fold p in H. lia.
  - cbn [audioBuffer withBuffer]. reflexivity.
Qed.

(** A callback leaves less than a chunk in the buffer. *)
Lemma onaudioprocess_short (inputData : list float) (r : recorder vadState) :
  (List.length (audioBuffer (fst (onaudioprocess inputData r))) < samplesPerChunk)%nat.
Proof.
  unfold AskAudioCaptureLoop.onaudioprocess. cbv zeta.
  destruct (drain_result (List.length (audioBuffer r ++ inputData))
              (withBuffer (audioBuffer r ++ inputData) r) (Nat.le_refl _))
    as (k & _ & _ & K3 & _).
  exact K3.
Qed.

(** X20: the loop of the capture callback always ends with less than one
    chunk in the buffer. For a positive chunk size (the installed one is
    2400), after a callback the buffer holds what is left of the old buffer
    followed by the input once every whole chunk of [samplesPerChunk]
    samples is taken from its front, and the voice indicator was updated
    once per chunk taken. *)
Theorem callback_leaves_less_than_a_chunk
    (inputData : list float) (r : recorder vadState) :
  let total := audioBuffer r ++ inputData in
  let chunks := (List.length total / samplesPerChunk)%nat in
  (List.length (audioBuffer (fst (onaudioprocess inputData r))) < samplesPerChunk)%nat /\
  audioBuffer (fst (onaudioprocess inputData r))
  = skipn (chunks * samplesPerChunk) total /\
  uiUpdates (snd (onaudioprocess inputData r)) = chunks.
Proof.
  cbv zeta. unfold AskAudioCaptureLoop.onaudioprocess. cbv zeta.
  cbn [audioBuffer withBuffer].
  set (total := audioBuffer r ++ inputData).
  destruct (drain_result (List.length total) (withBuffer total r) (Nat.le_refl _))
    as (k & K1 & K2 & K3 & K4).
  cbn [audioBuffer withBuffer] in K1, K2.
  assert (E : k = (List.length total / samplesPerChunk)%nat).
  { apply (Nat.div_unique _ _ _ (List.length total - k * samplesPerChunk)).
    - rewrite K2, length_skipn in K3. exact K3.
    - rewrite (Nat.mul_comm samplesPerChunk k). lia. }
  rewrite <- E. repeat split; assumption.
Qed.

(** X21: how the samples arrive does not matter. A sequence of callbacks
    on a buffer holding less than a chunk leaves the same recorder and has
    the same effects, in the same order, as one callback that delivers all
    their samples at once. *)
Theorem callbacks_compose (inputs : list (list float)) (r : recorder vadState) :
  (List.length (audioBuffer r) < samplesPerChunk)%nat ->
  deliver inputs r = onaudioprocess (List.concat inputs) r.
Proof.
  revert r. induction inputs as [|a rest IH]; intros r H.
  - cbn [AskAudioCaptureLoop.deliver List.concat].
    unfold AskAudioCaptureLoop.onaudioprocess. cbv zeta.
    rewrite app_nil_r, withBuffer_same. symmetry. now apply drain_short.
  - cbn [AskAudioCaptureLoop.deliver List.concat].
    rewrite onaudioprocess_app. cbv zeta.
    pose proof (onaudioprocess_short a r) as Short.
    destruct (onaudioprocess a r) as [r1 out1]. cbn [fst snd] in *.
    rewrite (IH r1 Short). now destruct (onaudioprocess _ r1).
Qed.

End Recorder.

Lemma callback_leaves_less_than_a_chunk_witness :
  let r := mkRecorder (repeat 0.5%float 1000) tt started in
  let inputData := repeat 0.5%float 4096 in
  let total := audioBuffer r ++ inputData in
  let chunks := (List.length total / installedChunkSize)%nat in
  (List.length (audioBuffer (fst (onaudioprocess unit rmsVad installedChunkSize inputData r)))
   < installedChunkSize)%nat /\
  audioBuffer (fst (onaudioprocess unit rmsVad installedChunkSize inputData r))
  = skipn (chunks * installedChunkSize) total /\
  uiUpdates (snd (onaudioprocess unit rmsVad installedChunkSize inputData r)) = chunks.
Proof.
  exact (callback_leaves_less_than_a_chunk unit rmsVad installedChunkSize
           installedChunkSize_pos (repeat 0.5%float 4096)
           (mkRecorder (repeat 0.5%float 1000) tt started)).
Defined.

Lemma callbacks_compose_witness :
  deliver unit rmsVad installedChunkSize
          [repeat 0.5%float 1000; repeat 0.5%float 3000]
          (mkRecorder [] tt started)
  = onaudioprocess unit rmsVad installedChunkSize
      (List.concat [repeat 0.5%float 1000; repeat 0.5%float 3000])
      (mkRecorder [] tt started).
Proof.
  exact (callbacks_compose unit rmsVad installedChunkSize installedChunkSize_pos
           [repeat 0.5%float 1000; repeat 0.5%float 3000]
           (mkRecorder [] tt started) installedChunkSize_pos).
Defined.

End CaptureLoopProperties.

(* --------------------------------------------------------------------- *)
(** ** What a turn leaves behind                                          *)
(* --------------------------------------------------------------------- *)

Module TurnProperties.
Import JsString AskService AskTurns.

Lemma savedMessages_app forRole a b :
  savedMessages forRole (a ++ b) = savedMessages forRole a ++ savedMessages forRole b.
Proof.
  induction a as [|x a IH]; [reflexivity |].
  destruct x; cbn [app savedMessages]; rewrite ?IH; try reflexivity.
  destruct (String.eqb _ _); now rewrite ?IH.
Qed.

Lemma conversationalCalls_app a b :
  conversationalCalls (a ++ b) = conversationalCalls a ++ conversationalCalls b.
Proof.
  induction a as [|x a IH]; [reflexivity |].
  destruct x; cbn [app conversationalCalls]; rewrite ?IH; reflexivity.
Qed.

Lemma spokenResponses_app a b :
  spokenResponses (a ++ b) = spokenResponses a ++ spokenResponses b.
Proof.
  induction a as [|x a IH]; [reflexivity |].
  destruct x; cbn [app spokenResponses]; rewrite ?IH; reflexivity.
Qed.

Lemma streamErrors_app a b : streamErrors (a ++ b) = streamErrors a ++ streamErrors b.
Proof.
  induction a as [|x a IH]; [reflexivity |].
  destruct x; cbn [app streamErrors]; rewrite ?IH; reflexivity.
Qed.

Lemma broadcasts_app a b : broadcasts a -> broadcasts b -> broadcasts (a ++ b).
Proof. intros A B. apply Forall_app. now split. Qed.

Lemma broadcasts_silent out :
  broadcasts out ->
  (forall forRole, savedMessages forRole out = []) /\ conversationalCalls out = [] /\
  spokenResponses out = [] /\ streamErrors out = [] /\ streamChatCalls out = [].
Proof.
  induction 1 as [|e out [s ->] _ IH]; [repeat split |].
  destruct IH as (A & B & C & D & E). repeat split; try assumption.
Qed.

Section Turn.

Variable parseToken : string -> string.
Variable getSystemPrompt : string -> string.
Variable conversationalPrompt : string -> string.

Local Abbreviation sendMessage := (sendMessage parseToken getSystemPrompt conversationalPrompt).
Local Abbreviation _processStream := (_processStream parseToken).

(** Reading the lines of a chunk changes the response only, publishes the
    state and does nothing else; it stops exactly at a line that ends the
    stream. *)
Lemma processLines_run lines : forall full s,
  let r := processLines parseToken lines full s in
  withResponse "" (snd (fst (fst r))) = withResponse "" s /\
  broadcasts (snd (fst r)) /\
  snd r = existsb isDoneLine lines.
Proof.
  induction lines as [|line rest IH]; intros full s; cbv zeta; cbn [processLines existsb].
  - repeat split. constructor.
  - unfold isDoneLine at 1. destruct (startsWith line "data: "); cbn [andb orb]; [| apply IH].
    destruct (String.eqb _ "[DONE]"); cbn [orb fst snd]; [repeat split; constructor |].
    destruct (truthy _); [| apply IH].
    specialize (IH (full ++ parseToken (substringFrom 6 line))%string
                   (withResponse (full ++ parseToken (substringFrom 6 line))%string s)).
    cbv zeta in IH.
    destruct (processLines _ _ _ _) as [[[f s''] out] done]. cbn [fst snd] in *.
    destruct IH as (A & B & C). repeat split; [exact A | | exact C].
    constructor; [now eexists | exact B].
Qed.

Lemma readChunks_run cs : forall full s,
  let r := readChunks parseToken cs full s in
  withResponse "" (snd (fst (fst r))) = withResponse "" s /\
  broadcasts (snd (fst r)) /\
  snd r = existsb announcesEnd cs.
Proof.
  induction cs as [|c rest IH]; intros full s; cbv zeta; cbn [readChunks existsb].
  - repeat split. constructor.
  - pose proof (processLines_run (nonBlankLines c) full s) as P. cbv zeta in P.
    unfold announcesEnd at 1.
    destruct (processLines _ _ _ _) as [[[f s'] out] done]. cbn [fst snd] in P.
    destruct P as (A & B & C). rewrite <- C.
    destruct done; cbn [orb fst snd]; [repeat split; assumption |].
    specialize (IH f s'). cbv zeta in IH.
    destruct (readChunks _ _ _ _) as [[[f' s''] out'] done']. cbn [fst snd] in *.
    destruct IH as (A' & B' & C'). repeat split; [congruence | | exact C'].
    now apply broadcasts_app.
Qed.

(** Chunks behind the one that ends the stream are never read. *)
Lemma readChunks_done cs more : forall full s,
  existsb announcesEnd cs = true ->
  readChunks parseToken (cs ++ more) full s = readChunks parseToken cs full s.
Proof.
  induction cs as [|c rest IH]; intros full s H; [discriminate |].
  cbn [app readChunks]. cbn [existsb] in H.
  pose proof (processLines_run (nonBlankLines c) full s) as P. cbv zeta in P.
  destruct (processLines _ _ _ _) as [[[f s'] out] done]. cbn [fst snd] in P.
  destruct P as (_ & _ & C). destruct done; [reflexivity |].
  unfold announcesEnd at 1 in H. rewrite <- C in H. cbn [orb] in H.
  now rewrite (IH f s' H).
Qed.

(** The state and the effects of one processed stream. *)
Lemma processStream_shape env w r s :
  exists full body reported,
    _processStream env w r s
    = (withResponse full (withStreaming false false s),
       BroadcastState (withStreaming false true s) :: body ++ reported
       ++ BroadcastState (withResponse full (withStreaming false false s))
       :: (if truthy full then [AddAiMessage "assistant" full] else [])) /\
    broadcasts body /\
    reported
    = (if existsb announcesEnd (chunks r) then []
       else match failure r with
            | Some e => if aborted env then []
                        else if w then [SendStreamError (message e)] else []
            | None => []
            end).
Proof.
  unfold AskService._processStream.
  pose proof (readChunks_run (chunks r) "" (withStreaming false true s)) as P.
  cbv zeta in P.
  destruct (readChunks _ _ _ _) as [[[full s1] out] done]. cbn [fst snd] in P.
  destruct P as (A & B & C). subst done.
  assert (E : withResponse full (withStreaming (isLoading s1) false s1)
              = withResponse full (withStreaming false false s)).
  { destruct s1, s. unfold withResponse, withStreaming in *. cbn in *. congruence. }
  rewrite E. eexists full, out, _. repeat split. exact B.
Qed.

(** What is reported when a read rejects is a stream error and nothing
    else. *)
Lemma report_is_quiet (reported : list effect) (c : bool) (f : option error) (a w : bool) :
  reported
  = (if c then []
     else match f with
          | Some e => if a then [] else if w then [SendStreamError (message e)] else []
          | None => []
          end) ->
  (forall forRole, savedMessages forRole reported = []) /\ conversationalCalls reported = [] /\
  spokenResponses reported = [].
Proof.
  intros ->. destruct c, f as [e|], a, w; repeat split.
Qed.

(** Replaces a processed stream by its state and effects. *)
Ltac stream_shape :=
  match goal with
  | |- context [AskService._processStream ?p ?env ?w ?r ?s] =>
      let full := fresh "full" in
      let body := fresh "body" in
      let reported := fresh "reported" in
      let E := fresh "E" in
      let B := fresh "B" in
      let R := fresh "R" in
      destruct (processStream_shape env w r s) as (full & body & reported & E & B & R);
      rewrite E; clear E;
      pose proof (broadcasts_silent body B);
      pose proof (report_is_quiet reported _ _ _ _ R)
  end.

(** Case analysis on whether the spoken response is empty. *)
Ltac spoken_text :=
  match goal with
  | |- context [truthy (_generateConversationalResponseInParallel ?a ?b ?c ?d ?e)] =>
      destruct (truthy (_generateConversationalResponseInParallel a b c d e)) eqn:?
  end.

(** The image of the effects under one of the observations. *)
Ltac observe :=
  repeat (rewrite ?savedMessages_app, ?conversationalCalls_app, ?spokenResponses_app;
          cbn [savedMessages conversationalCalls spokenResponses app fst snd state
               currentResponse withResponse withStreaming withConversational
               String.eqb Ascii.eqb Bool.eqb]);
  repeat match goal with
         | H : _ /\ _ |- _ => destruct H
         end;
  repeat match goal with
         | H : forall forRole, savedMessages forRole ?l = [] |- _ => rewrite !(H _)
         | H : conversationalCalls ?l = [] |- _ => rewrite !H
         | H : spokenResponses ?l = [] |- _ => rewrite !H
         end;
  cbn [app].

(** The condition of [_isMultimodalError], written out: the lower-cased
    message contains one of eight texts. *)
Lemma isMultimodalError_texts (e : error) :
  _isMultimodalError e
  = existsb (includes (toLowerCase (match message e with Some m => m | None => "" end)))
      ["vision"; "image"; "multimodal"; "unsupported"; "image_url"; "400"; "invalid";
       "not supported"].
Proof.
  unfold _isMultimodalError. cbn [existsb].
  destruct (message e) as [m|]; [| reflexivity].
  rewrite orb_false_r, <- !orb_assoc. reflexivity.
Qed.

Lemma streamChatCalls_reported (reported : list effect) (c : bool) (f : option error)
    (a w : bool) :
  reported
  = (if c then []
     else match f with
          | Some e => if a then [] else if w then [SendStreamError (message e)] else []
          | None => []
          end) ->
  streamChatCalls reported = [] /\
  streamErrors reported
  = (if c then []
     else match f with
          | Some e => if a then [] else if w then [message e] else []
          | None => []
          end).
Proof. intros ->. destruct c, f as [e|], a, w; split; reflexivity. Qed.

(** The stream calls and the reported stream errors among the effects. *)
Ltac observe_streams :=
  repeat (rewrite ?Orchestrator.streamChatCalls_app, ?streamErrors_app;
          cbn [streamChatCalls streamErrors app fst snd]);
  repeat match goal with
         | H : _ /\ _ |- _ => destruct H
         end;
  repeat match goal with
         | H : streamChatCalls ?l = [] |- _ => rewrite !H
         | H : streamErrors ?l = _ |- _ => rewrite !H
         end;
  cbn [app].

(** C2 (amended): in a turn that reaches the provider, what decides the
    retry is how the call that opens the stream ends. When that call
    rejects, an image was attached and the lower-cased message of the
    error contains one of vision, image, multimodal, unsupported,
    image_url, 400, invalid, not supported, the stream is called exactly
    once more, with the same system message and the same request as plain
    text, the image left out; a retry that rejects fails the turn with its
    error. Any other rejection of the call is a terminal failure without a
    retry. Whether a cancellation was signalled plays no part in this.
    When the call opens the stream there is no retry whatever happens to
    the reads: with the ask window there the turn succeeds, and a read that
    rejects is only reported to the window, unless the stream had ended or
    a cancellation was signalled. *)
Theorem retry_follows_a_rejected_call
    (env : turnEnv) (userPrompt : string) (history : list string) (sv : service) :
  reachesStream env = true ->
  let system :=
    mkChatMessage "system" (Plain (getSystemPrompt (_formatConversationForPrompt history))) in
  let request := ("User Request: " ++ trim userPrompt)%string in
  let image :=
    match screenshot env with
    | Some b => if truthy b then [ImageUrlPart ("data:image/jpeg;base64," ++ b)] else []
    | None => []
    end in
  let first := [system; mkChatMessage "user" (Parts (TextPart request :: image))] in
  let retry := [system; mkChatMessage "user" (Plain request)] in
  let r := sendMessage env userPrompt history sv in
  match streamChat env first with
  | inl e =>
      if truthyOpt (screenshot env)
         && existsb (includes (toLowerCase (match message e with Some m => m | None => "" end)))
              ["vision"; "image"; "multimodal"; "unsupported"; "image_url"; "400";
               "invalid"; "not supported"]
      then
        streamChatCalls (snd (fst r)) = [first; retry] /\
        match streamChat env retry with
        | inl e2 =>
            snd r = mkResult false (message e2) /\
            isLoading (state (fst (fst r))) = false /\
            isStreaming (state (fst (fst r))) = false /\
            showTextInput (state (fst (fst r))) = true
        | inr _ => windowAtFallback env = true -> snd r = mkResult true None
        end
      else
        streamChatCalls (snd (fst r)) = [first] /\
        snd r = mkResult false (message e) /\
        isLoading (state (fst (fst r))) = false /\
        isStreaming (state (fst (fst r))) = false /\
        showTextInput (state (fst (fst r))) = true
  | inr rd =>
      streamChatCalls (snd (fst r)) = [first] /\
      (windowAtStream env = true ->
       snd r = mkResult true None /\
       streamErrors (snd (fst r))
       = (if existsb announcesEnd (chunks rd) then []
          else match failure rd with
               | Some e =>
                   if aborted env then []
                   else if windowAtStreamError env then [message e] else []
               | None => []
               end))
  end.
Proof.
  intros Hreach. cbv zeta. unfold reachesStream in Hreach.
  unfold AskService.sendMessage, turnBody, streamTurn, mergeConversational,
    primaryMessages, textOnlyMessages, systemMessage, userRequest, imagePart, imageUrl.
  destruct (sessionError env); [discriminate |].
  destruct (saveUserError env); [discriminate |].
  destruct (llmModel env) as [mi|]; [| discriminate].
  rewrite Hreach. cbn [negb].
  destruct (streamChat env [_; mkChatMessage "user" (Parts _)]) as [e|rd].
  - rewrite (isMultimodalError_texts e).
    destruct (truthyOpt (screenshot env) && existsb _ _).
    + destruct (streamChat env [_; mkChatMessage "user" (Plain _)]) as [e'|rd'].
      * destruct (abortController sv), (AskService.isListening _ || _), (windowAtError env);
          repeat split.
      * destruct (windowAtFallback env); cbn [negb].
        -- stream_shape.
           pose proof (streamChatCalls_reported reported _ _ _ _ R).
           destruct (abortController sv), (AskService.isListening _ || _);
             split; observe_streams; destruct (truthy full);
               cbn [streamChatCalls streamErrors app]; rewrite ?app_nil_r; reflexivity.
        -- destruct (abortController sv), (AskService.isListening _ || _);
             split; reflexivity || discriminate.
    + destruct (abortController sv), (AskService.isListening _ || _), (windowAtError env);
        repeat split.
  - destruct (windowAtStream env); cbn [negb].
    + stream_shape.
      pose proof (streamChatCalls_reported reported _ _ _ _ R).
      destruct (abortController sv), (AskService.isListening _ || _),
        (windowAtConversational env);
        try spoken_text; repeat split;
        observe_streams; destruct (truthy full);
               cbn [streamChatCalls streamErrors app]; rewrite ?app_nil_r; reflexivity.
    + destruct (abortController sv), (AskService.isListening _ || _);
        split; reflexivity || discriminate.
Qed.

(** X22: what a turn hands to the repository. Whatever the collaborators
    answer, a turn calls [addAiMessage] for the assistant's reply at most
    once, exactly when the response it leaves in the state is non-empty,
    and with that response as the content; it calls it for the trimmed
    prompt once, unless no session could be obtained. *)
Theorem a_turn_saves_what_it_shows
    (env : turnEnv) (userPrompt : string) (history : list string) (sv : service) :
  let r := sendMessage env userPrompt history sv in
  let st := state (fst (fst r)) in
  savedMessages "assistant" (snd (fst r))
  = (if truthy (currentResponse st) then [currentResponse st] else []) /\
  savedMessages "user" (snd (fst r))
  = match sessionError env with
    | None => [trim userPrompt]
    | Some _ => []
    end.
Proof.
  cbv zeta. unfold AskService.sendMessage, turnBody, streamTurn, mergeConversational.
  destruct (sessionError env), (saveUserError env), (llmModel env) as [mi|];
    try destruct (truthy (apiKey mi)); cbn [negb];
    try (destruct (abortController sv), (windowAtError env); split; reflexivity).
  destruct (streamChat env _) as [e|rd].
  - destruct (truthyOpt (screenshot env) && _isMultimodalError e).
    + destruct (streamChat env _) as [e'|rd'].
      * destruct (abortController sv), (AskService.isListening _ || _), (windowAtError env);
          split; reflexivity.
      * destruct (windowAtFallback env); cbn [negb].
        -- stream_shape.
           destruct (abortController sv), (AskService.isListening _ || _);
             split; observe; destruct (truthy full); reflexivity.
        -- destruct (abortController sv), (AskService.isListening _ || _); split; reflexivity.
    + destruct (abortController sv), (AskService.isListening _ || _), (windowAtError env);
        split; reflexivity.
  - destruct (windowAtStream env); cbn [negb].
    + stream_shape.
      destruct (abortController sv), (AskService.isListening _ || _),
        (windowAtConversational env);
        try spoken_text; split; observe; destruct (truthy full); reflexivity.
    + destruct (abortController sv), (AskService.isListening _ || _); split; reflexivity.
Qed.

(** X23: the flags a turn leaves. Whatever the collaborators answer, after
    a turn no stream is marked as running, an abort controller is
    installed, the question is the prompt, and the listening flag and the
    transcription (hence the voice mode of the next turn) are untouched.
    The loading flag stays set in one case only: the ask window was gone
    when the stream opened; the reader was then cancelled and the input
    box stays hidden. A successful turn leaves the loading flag cleared and
    the input box hidden; a turn that fails otherwise shows the input box
    again. *)
Theorem flags_after_a_turn
    (env : turnEnv) (userPrompt : string) (history : list string) (sv : service) :
  let r := sendMessage env userPrompt history sv in
  let st := state (fst (fst r)) in
  isStreaming st = false /\ abortController (fst (fst r)) = true /\
  currentQuestion st = userPrompt /\
  AskService.isListening st = AskService.isListening (state sv) /\
  sttTranscription st = sttTranscription (state sv) /\
  (isLoading st = true ->
   snd r = mkResult false (Some "Ask window is not available.") /\
   In ReaderCancel (snd (fst r)) /\ showTextInput st = false) /\
  (success (snd r) = true -> isLoading st = false /\ showTextInput st = false) /\
  (success (snd r) = false -> isLoading st = false -> showTextInput st = true).
Proof.
  cbv zeta. unfold AskService.sendMessage, turnBody, streamTurn, mergeConversational.
  destruct (sessionError env), (saveUserError env), (llmModel env) as [mi|];
    try destruct (truthy (apiKey mi)); cbn [negb];
    try (repeat split; discriminate).
  destruct (streamChat env _) as [e|rd].
  - destruct (truthyOpt (screenshot env) && _isMultimodalError e).
    + destruct (streamChat env _) as [e'|rd'].
      * repeat split; discriminate.
      * destruct (windowAtFallback env); cbn [negb].
        -- stream_shape. repeat split; discriminate.
        -- repeat split; try discriminate.
           repeat (apply in_or_app; right). cbn. tauto.
    + repeat split; discriminate.
  - destruct (windowAtStream env); cbn [negb].
    + stream_shape.
      destruct (AskService.isListening _ || _); try spoken_text;
        repeat split; discriminate.
    + repeat split; try discriminate.
      repeat (apply in_or_app; right). cbn. tauto.
Qed.

(** X24: the frame [data: [DONE]] ends the stream. Once a chunk holds
    that line, nothing behind the chunk is read: further chunks, and a read
    that would reject, change neither the state nor the effects. *)
Theorem done_frame_ends_the_stream
    (env : turnEnv) (windowAlive : bool) (cs more : list string)
    (rejects : option error) (s : askState) :
  existsb announcesEnd cs = true ->
  _processStream env windowAlive (mkReader (cs ++ more) rejects) s
  = _processStream env windowAlive (mkReader cs None) s.
Proof.
  intros H. unfold AskService._processStream. cbn [chunks failure].
  rewrite (readChunks_done cs more _ _ H).
  pose proof (readChunks_run cs "" (withStreaming false true s)) as P. cbv zeta in P.
  destruct (readChunks _ _ _ _) as [[[full s1] out] done]. cbn [fst snd] in P.
  destruct P as (_ & _ & C). rewrite H in C. subst done. reflexivity.
Qed.

(** A read that rejects on a cancelled turn is handled like the end of the
    stream. *)
Lemma processStream_cancelled env env' w r s :
  aborted env = true ->
  _processStream env w r s = _processStream env' w (endingNormally r) s.
Proof.
  intros H. unfold AskService._processStream. cbn [chunks failure endingNormally].
  destruct (readChunks _ _ _ _) as [[[full s1] out] done]. rewrite H.
  destruct done, (failure r); reflexivity.
Qed.

(** X25: a cancelled turn ends like a completed one. When the abort signal
    is set, a read of the primary stream that rejects is not reported: the
    whole turn (state, effects and result) is the one of a stream that
    simply ended where the reads stopped, so the tokens received so far
    are kept, saved as the reply, and the turn succeeds. *)
Theorem cancelled_turn_ends_like_a_completed_one
    (env : turnEnv) (userPrompt : string) (history : list string) (sv : service) :
  aborted env = true ->
  sendMessage env userPrompt history sv
  = sendMessage (withReaders endingNormally env) userPrompt history sv.
Proof.
  intros H. unfold AskService.sendMessage, turnBody, streamTurn.
  cbn [sessionError saveUserError llmModel screenshot streamChat windowAtStream
       windowAtFallback windowAtError windowAtStreamError windowAtConversational
       withReaders].
  destruct (sessionError env), (saveUserError env), (llmModel env) as [mi|];
    try destruct (truthy (apiKey mi)); cbn [negb]; try reflexivity.
  destruct (streamChat env _) as [e|rd].
  - destruct (truthyOpt (screenshot env) && _isMultimodalError e); [| reflexivity].
    destruct (streamChat env _) as [e'|rd']; [reflexivity |].
    destruct (windowAtFallback env); cbn [negb]; [| reflexivity].
    now rewrite (processStream_cancelled env (withReaders endingNormally env) _ rd' _ H).
  - destruct (windowAtStream env); cbn [negb]; [| reflexivity].
    now rewrite (processStream_cancelled env (withReaders endingNormally env) _ rd _ H).
Qed.

(** X26: when the spoken response is generated and when it is delivered.
    A turn starts the spoken-style generation exactly when it reaches the
    provider in voice mode, whatever happens to the primary stream
    afterwards. It hands a spoken response to the ask window only when the
    first call of the primary stream opened (never on the retry without the
    image), the window was there and the text is not empty; the text is
    then the generated one, paired with the response of the state. *)
Theorem spoken_response_needs_the_first_stream
    (env : turnEnv) (userPrompt : string) (history : list string) (sv : service) :
  let r := sendMessage env userPrompt history sv in
  let spoken :=
    _generateConversationalResponseInParallel parseToken conversationalPrompt
      env userPrompt (screenshot env) in
  conversationalCalls (snd (fst r))
  = (if reachesStream env && voiceMode (state sv)
     then [conversationalMessages conversationalPrompt userPrompt (screenshot env)]
     else []) /\
  spokenResponses (snd (fst r))
  = match streamChat env (primaryMessages getSystemPrompt userPrompt history (screenshot env)) with
    | inr _ =>
        if reachesStream env && voiceMode (state sv) && windowAtStream env
           && truthy spoken && windowAtConversational env
        then [(spoken, currentResponse (state (fst (fst r))))]
        else []
    | inl _ => []
    end.
Proof.
  cbv zeta.
  unfold AskService.sendMessage, turnBody, streamTurn, mergeConversational,
    reachesStream, voiceMode.
  cbn [AskService.isListening sttTranscription].
  destruct (sessionError env), (saveUserError env), (llmModel env) as [mi|];
    try destruct (truthy (apiKey mi)); cbn [negb andb];
    try (destruct (abortController sv), (windowAtError env),
           (streamChat env (primaryMessages getSystemPrompt userPrompt history (screenshot env)));
         split; reflexivity).
  destruct (streamChat env (primaryMessages getSystemPrompt userPrompt history (screenshot env)))
    as [e|rd].
  - destruct (truthyOpt (screenshot env) && _isMultimodalError e).
    + destruct (streamChat env _) as [e'|rd'].
      * destruct (abortController sv), (AskService.isListening _ || _), (windowAtError env);
          split; reflexivity.
      * destruct (windowAtFallback env); cbn [negb].
        -- stream_shape.
           destruct (abortController sv), (AskService.isListening _ || _);
             split; observe; destruct (truthy full); reflexivity.
        -- destruct (abortController sv), (AskService.isListening _ || _); split; reflexivity.
    + destruct (abortController sv), (AskService.isListening _ || _), (windowAtError env);
        split; reflexivity.
  - destruct (windowAtStream env); cbn [negb andb].
    + stream_shape.
      destruct (abortController sv), (AskService.isListening _ || _),
        (windowAtConversational env);
        try spoken_text; split; observe; destruct (truthy full); reflexivity.
    + destruct (abortController sv), (AskService.isListening _ || _); split; reflexivity.
Qed.

Lemma skipn_app_all {A : Type} (a b : list A) (n : nat) :
  n = List.length a -> skipn n (a ++ b) = b.
Proof.
  intros ->. rewrite skipn_app, skipn_all, Nat.sub_diag. reflexivity.
Qed.

(** Only the last 30 entries of the history are formatted. *)
Lemma format_last_thirty (older recent : list string) :
  (30 <= List.length recent)%nat ->
  _formatConversationForPrompt (older ++ recent) = _formatConversationForPrompt recent.
Proof.
  intros H. unfold _formatConversationForPrompt.
  destruct recent as [|x recent]; [cbn in H; lia |].
  destruct (older ++ x :: recent) as [|y l] eqn:E;
    [destruct older; discriminate |].
  rewrite <- E. f_equal.
  rewrite length_app, skipn_app.
  replace (List.length older + List.length (x :: recent) - 30 - List.length older)%nat
    with (List.length (x :: recent) - 30)%nat by lia.
  rewrite skipn_all2 by lia. reflexivity.
Qed.

(** X27: a turn looks at the last 30 entries of the conversation history
    only: whatever comes before them changes nothing in the turn, neither
    in the messages sent to the provider nor anywhere else. *)
Theorem history_beyond_thirty_is_ignored
    (env : turnEnv) (userPrompt : string) (older recent : list string) (sv : service) :
  (30 <= List.length recent)%nat ->
  sendMessage env userPrompt (older ++ recent) sv = sendMessage env userPrompt recent sv.
Proof.
  intros H.
  unfold AskService.sendMessage, turnBody, streamTurn, primaryMessages, textOnlyMessages,
    systemMessage.
  now rewrite (format_last_thirty older recent H).
Qed.

(** X28: a turn that cannot reach the provider. When no session can be
    obtained, the prompt cannot be saved, or no model with a key is
    configured, neither stream is called, the turn fails and the state is
    back to idle with the input box shown and an empty response. With a
    session and the prompt saved, the failure is the configuration error,
    although the prompt has been saved by then. *)
Theorem unconfigured_turn_calls_no_provider
    (env : turnEnv) (userPrompt : string) (history : list string) (sv : service) :
  reachesStream env = false ->
  let r := sendMessage env userPrompt history sv in
  let st := state (fst (fst r)) in
  streamChatCalls (snd (fst r)) = [] /\ conversationalCalls (snd (fst r)) = [] /\
  success (snd r) = false /\
  isLoading st = false /\ showTextInput st = true /\ currentResponse st = "" /\
  (sessionError env = None -> saveUserError env = None ->
   errorText (snd r) = Some "AI model or API key not configured." /\
   savedMessages "user" (snd (fst r)) = [trim userPrompt]).
Proof.
  intros H. cbv zeta. unfold reachesStream in H.
  unfold AskService.sendMessage, turnBody.
  destruct (sessionError env), (saveUserError env), (llmModel env) as [mi|];
    try rewrite H; cbn [negb];
    destruct (abortController sv), (windowAtError env);
    repeat split; intros; discriminate || reflexivity.
Qed.

(** The spoken-style generation is started by every turn that reaches the
    provider in voice mode, and by no other. *)
Lemma turnBody_conversationalCalls env userPrompt history mode s :
  conversationalCalls
    (snd (fst (turnBody parseToken getSystemPrompt conversationalPrompt
                 env userPrompt history mode s)))
  = if reachesStream env && mode
    then [conversationalMessages conversationalPrompt userPrompt (screenshot env)]
    else [].
Proof.
  unfold turnBody, streamTurn, mergeConversational, reachesStream.
  destruct (sessionError env), (saveUserError env), (llmModel env) as [mi|];
    try destruct (truthy (apiKey mi)); cbn [negb andb]; try reflexivity.
  destruct (streamChat env _) as [e|rd].
  - destruct (truthyOpt (screenshot env) && _isMultimodalError e).
    + destruct (streamChat env _) as [e'|rd'].
      * destruct mode; reflexivity.
      * destruct (windowAtFallback env); cbn [negb].
        -- stream_shape. destruct mode; observe; destruct (truthy full); reflexivity.
        -- destruct mode; reflexivity.
    + destruct mode; reflexivity.
  - destruct (windowAtStream env); cbn [negb andb].
    + stream_shape.
      destruct mode, (windowAtConversational env);
        try spoken_text; observe; destruct (truthy full); reflexivity.
    + destruct mode; reflexivity.
Qed.

End Turn.

(** C2, the part that fails: with an image attached, a stream that opens
    and then breaks on a read with an error text naming the image input,
    on a turn that is not cancelled, is not retried (one stream call) and
    the turn succeeds; and a call rejected with the text [Bad Request] is
    not retried either, the condition text for a bad request being the
    status code 400. *)
Lemma read_error_is_not_retried :
  let first := primaryMessages (fun h => h) "what is this?" []
                 (screenshot brokenStreamProvider) in
  let r := sendMessage (fun d => d) (fun h => h) (fun q => q)
             brokenStreamProvider "what is this?" [] init in
  let r' := sendMessage (fun d => d) (fun h => h) (fun q => q)
              badRequestProvider "what is this?" [] init in
  (hasImage first = true /\
   (exists rd, streamChat brokenStreamProvider first = inr rd /\
               failure rd = Some (mkError (Some "image input unsupported"))) /\
   _isMultimodalError (mkError (Some "image input unsupported")) = true /\
   aborted brokenStreamProvider = false /\
   streamChatCalls (snd (fst r)) = [first] /\
   snd r = mkResult true None) /\
  (streamChat badRequestProvider first = inl (mkError (Some "Bad Request")) /\
   streamChatCalls (snd (fst r')) = [first] /\
   snd r' = mkResult false (Some "Bad Request")).
Proof.
  cbv zeta. split.
  - repeat split; try reflexivity.
    exists (mkReader ["data: Hel"] (Some (mkError (Some "image input unsupported")))).
    split; reflexivity.
  - repeat split; reflexivity.
Qed.

(** The amended claim on a provider that rejects image input: the turn
    calls the stream once more, without the image. *)
Lemma retry_follows_a_rejected_call_witness :
  let r := sendMessage (fun d => d) (fun h => h) (fun q => q)
             textOnlyProvider "what is this?" [] init in
  streamChatCalls (snd (fst r))
  = [ [ mkChatMessage "system" (Plain "No conversation history available.");
        mkChatMessage "user"
          (Parts [TextPart "User Request: what is this?";
                  ImageUrlPart "data:image/jpeg;base64,aGVsbG8="]) ];
      [ mkChatMessage "system" (Plain "No conversation history available.");
        mkChatMessage "user" (Plain "User Request: what is this?") ] ].
Proof.
  refine (proj1 (retry_follows_a_rejected_call (fun d => d) (fun h => h) (fun q => q)
                   textOnlyProvider "what is this?" [] init eq_refl)).
Defined.

Lemma done_frame_ends_the_stream_witness :
  _processStream (fun d => d) visionProvider true
    (mkReader (["data: Hello"; "data: [DONE]"] ++ ["data: ignored"])
              (Some (mkError (Some "connection reset"))))
    (state init)
  = _processStream (fun d => d) visionProvider true
      (mkReader ["data: Hello"; "data: [DONE]"] None) (state init).
Proof.
  apply (done_frame_ends_the_stream (fun d => d) visionProvider true
           ["data: Hello"; "data: [DONE]"] ["data: ignored"]
           (Some (mkError (Some "connection reset"))) (state init)).
  vm_compute. reflexivity.
Defined.

Lemma cancelled_turn_ends_like_a_completed_one_witness :
  sendMessage (fun d => d) (fun h => h) (fun q => q) cancelledProvider "what is this?" [] init
  = sendMessage (fun d => d) (fun h => h) (fun q => q)
      (withReaders endingNormally cancelledProvider) "what is this?" [] init.
Proof.
  apply (cancelled_turn_ends_like_a_completed_one (fun d => d) (fun h => h) (fun q => q)
           cancelledProvider "what is this?" [] init).
  reflexivity.
Defined.

Lemma history_beyond_thirty_is_ignored_witness :
  sendMessage (fun d => d) (fun h => h) (fun q => q) visionProvider "and then?"
    (["first"; "second"] ++ repeat "later" 30) init
  = sendMessage (fun d => d) (fun h => h) (fun q => q) visionProvider "and then?"
      (repeat "later" 30) init.
Proof.
  apply (history_beyond_thirty_is_ignored (fun d => d) (fun h => h) (fun q => q)
           visionProvider "and then?" ["first"; "second"] (repeat "later" 30) init).
  cbn. lia.
Defined.

Lemma unconfigured_turn_calls_no_provider_witness :
  let r := sendMessage (fun d => d) (fun h => h) (fun q => q)
             unconfigured "what is this?" [] init in
  streamChatCalls (snd (fst r)) = [] /\ conversationalCalls (snd (fst r)) = [] /\
  success (snd r) = false.
Proof.
  pose proof (unconfigured_turn_calls_no_provider (fun d => d) (fun h => h) (fun q => q)
                unconfigured "what is this?" [] init eq_refl) as (A & B & C & _).
  cbv zeta. repeat split; assumption.
Defined.

End TurnProperties.

(* --------------------------------------------------------------------- *)
(** ** Voice input: AskService and its STT service together               *)
(* --------------------------------------------------------------------- *)

Module VoiceProperties.
Import JsString AskVoice.

(** Everything one provider message emits, with what a completion
    carries. *)
Lemma handleMessage_shape (s : AskSttService.service) (m : AskSttService.message) :
  exists bu u f bc c be e,
    snd (AskSttService.handleMessage s m)
    = AskSttService.emitIf bu (AskSttService.TranscriptionUpdate u f)
      ++ AskSttService.emitIf bc (AskSttService.TranscriptionComplete c)
      ++ AskSttService.emitIf be (AskSttService.Error e) /\
    (bc = true ->
     AskSttService.currentTranscription (fst (AskSttService.handleMessage s m)) = c /\
     (bu = true -> u = c /\ f = true)).
Proof.
  destruct (AskSttService.modelInfo s) as [info|] eqn:Hi.
  - destruct (SttProperties.armOf_shape info s m) as (bu & u & f & bc & c & Hout & Hc).
    destruct (SttProperties.errorPart_shape
                (fst (fst (SttStates.armOf info s m))) (snd (SttStates.armOf info s m)) m)
      as (be & e & He).
    exists bu, u, f, bc, c, be, e.
    rewrite (SttProperties.handleMessage_arm s info m Hi). cbn [fst snd].
    rewrite Hout, He, <- app_assoc. split; [reflexivity |].
    intros Hb. destruct (Hc Hb) as (_ & A & B). now split.
  - exists false, "", false, false, "", false, "".
    rewrite (SttProperties.handleMessage_closed s m Hi).
    split; [reflexivity | discriminate].
Qed.

(** The shape above for a message that completes an utterance. *)
Lemma completing_message (s : AskSttService.service) (m : AskSttService.message)
    (text : string) :
  In (AskSttService.Emit (AskSttService.TranscriptionComplete text))
     (snd (AskSttService.handleMessage s m)) ->
  AskSttService.currentTranscription (fst (AskSttService.handleMessage s m)) = text /\
  exists bu be e,
    snd (AskSttService.handleMessage s m)
    = AskSttService.emitIf bu (AskSttService.TranscriptionUpdate text true)
      ++ [AskSttService.Emit (AskSttService.TranscriptionComplete text)]
      ++ AskSttService.emitIf be (AskSttService.Error e).
Proof.
  intros H.
  destruct (handleMessage_shape s m) as (bu & u & f & bc & c & be & e & Hout & Hc).
  rewrite Hout in H.
  assert (K : bc = true /\ c = text).
  { apply in_app_or in H. destruct H as [H | H];
      [| apply in_app_or in H; destruct H as [H | H]];
      apply SttProperties.in_emitIf in H; destruct H as [Hb H]; try discriminate.
    injection H as ->. now split. }
  destruct K as [-> ->]. destruct (Hc eq_refl) as [A B]. split; [exact A |].
  exists bu, be, e. rewrite Hout. destruct bu; [| reflexivity].
  destruct (B eq_refl) as [-> ->]. reflexivity.
Qed.

Lemma dispatch_completion (askWindow bu be : bool) (e text : string) (a : AskService.service) :
  truthy (trim text) = true ->
  fst (dispatchAll askWindow ErrorField
         (AskSttService.emitIf bu (AskSttService.TranscriptionUpdate text true)
          ++ [AskSttService.Emit (AskSttService.TranscriptionComplete text)]
          ++ AskSttService.emitIf be (AskSttService.Error e)) a)
  = submitted text a.
Proof.
  intros Ht.
  destruct bu, be;
    cbn [AskSttService.emitIf app dispatchAll dispatch onTranscriptionUpdate
         onTranscriptionComplete onError];
    unfold onTranscriptionComplete; rewrite Ht; reflexivity.
Qed.

Lemma onmessage_fst (askWindow : bool) (m : AskSttService.message) (v : voice) :
  fst (onmessage askWindow m v)
  = mkVoice (fst (dispatchAll askWindow ErrorField
                    (snd (AskSttService.handleMessage (sttService v) m))
                    (ask v)))
            (fst (AskSttService.handleMessage (sttService v) m)).
Proof.
  unfold onmessage. destruct (AskSttService.handleMessage _ _) as [stt1 out1].
  cbn [fst snd]. now destruct (dispatchAll _ _ _ _).
Qed.

(** What the ask window is told about an error: the message of an error
    event of the adapter, and a fixed text for the [error] field of a
    provider message. *)
Example error_texts_sent_to_the_window :
  snd (onerror true "socket closed" init)
  = [broadcast (withListening false (ask init)); ToAskWindow (SttError "socket closed")] /\
  snd (onerror true "" init)
  = [broadcast (withListening false (ask init));
     ToAskWindow (SttError "Speech recognition error")] /\
  (let v := fst (fst (startVoiceInput
                        (Some (AskSttService.mkModelInfo "whisper" "key" "model"))
                        (inr (AskSttService.mkSession false false)) true init)) in
   snd (onmessage true
          (AskSttService.mkMessage None None false false None None None None None
             (Some "quota exceeded")) v)
   = [broadcast (withListening false (ask v));
      ToAskWindow (SttError "Speech recognition error")]).
Proof. vm_compute. repeat split. Qed.

Section Turn.

Variable parseToken : string -> string.
Variable getSystemPrompt : string -> string.
Variable conversationalPrompt : string -> string.

(** [sendMessage] is its beginning followed by its continuation. *)
Lemma sendMessage_continues env userPrompt history a :
  AskService.sendMessage parseToken getSystemPrompt conversationalPrompt
    env userPrompt history a
  = continueTurn parseToken getSystemPrompt conversationalPrompt
      env userPrompt history (beginTurn userPrompt a).
Proof. reflexivity. Qed.

Lemma conversationalCalls_beginTurn userPrompt a :
  AskTurns.conversationalCalls (snd (beginTurn userPrompt a)) = [].
Proof. unfold beginTurn. cbn [snd]. now destruct (AskService.abortController a). Qed.

(** A turn starts the spoken-style generation exactly when it reaches the
    provider and its beginning saw the voice mode. *)
Lemma sendMessage_conversationalCalls env userPrompt history a :
  AskTurns.conversationalCalls
    (snd (fst (AskService.sendMessage parseToken getSystemPrompt conversationalPrompt
                 env userPrompt history a)))
  = if AskService.reachesStream env
       && AskTurns.voiceMode (AskService.state (fst (beginTurn userPrompt a)))
    then [AskService.conversationalMessages conversationalPrompt userPrompt
            (AskService.screenshot env)]
    else [].
Proof.
  rewrite sendMessage_continues. unfold continueTurn.
  pose proof (TurnProperties.turnBody_conversationalCalls parseToken getSystemPrompt
                conversationalPrompt env userPrompt history
                (AskTurns.voiceMode (AskService.state (fst (beginTurn userPrompt a))))
                (AskService.state (fst (beginTurn userPrompt a)))) as K.
  destruct (AskService.turnBody _ _ _ _ _ _ _ _) as [[s1 out] [res|e]];
    cbn [fst snd] in *;
    rewrite !TurnProperties.conversationalCalls_app, conversationalCalls_beginTurn, K;
    cbn [app]; [now rewrite ?app_nil_r |].
  destruct (AskService.windowAtError env); cbn; now rewrite app_nil_r.
Qed.

(** X29: a dictated question is submitted in voice mode. When a provider
    message completes an utterance with a text that is not blank, the
    callbacks leave [AskService] no longer listening, with that text as the
    transcription, and having begun a turn for the trimmed text: the state
    is the one [sendMessage] leaves at its first [await]. That turn starts
    the spoken-style generation whenever it reaches the provider. The STT
    service itself is not stopped: its listening flag is as before. *)
Theorem dictated_question_is_submitted_in_voice_mode
    (askWindow : bool) (v : voice) (m : AskSttService.message) (text : string) :
  In (AskSttService.Emit (AskSttService.TranscriptionComplete text))
     (snd (AskSttService.handleMessage (sttService v) m)) ->
  truthy (trim text) = true ->
  let v1 := fst (onmessage askWindow m v) in
  let heard := withListening false (withSttTranscription text (ask v)) in
  ask v1 = fst (beginTurn (trim text) heard) /\
  AskService.isListening (AskService.state (ask v1)) = false /\
  AskService.sttTranscription (AskService.state (ask v1)) = text /\
  AskService.currentQuestion (AskService.state (ask v1)) = trim text /\
  AskSttService.isListening (sttService v1) = AskSttService.isListening (sttService v) /\
  forall env,
    AskTurns.conversationalCalls
      (snd (fst (AskService.sendMessage parseToken getSystemPrompt conversationalPrompt
                   env (trim text) [] heard)))
    = if AskService.reachesStream env
      then [AskService.conversationalMessages conversationalPrompt (trim text)
              (AskService.screenshot env)]
      else [].
Proof.
  intros H Ht. cbv zeta. rewrite onmessage_fst. cbn [ask sttService].
  destruct (completing_message (sttService v) m text H) as (_ & bu & be & e & Hout).
  rewrite Hout, (dispatch_completion askWindow bu be e text (ask v) Ht).
  repeat split.
  - apply (SttProperties.handleMessage_session (sttService v) m).
  - intros env. rewrite sendMessage_conversationalCalls.
    assert (V : AskTurns.voiceMode
                  (AskService.state
                     (fst (beginTurn (trim text)
                             (withListening false (withSttTranscription text (ask v))))))
                = true).
    { unfold AskTurns.voiceMode. cbn.
      destruct text as [|c text']; [discriminate Ht | reflexivity]. }
    rewrite V. now rewrite andb_true_r.
Qed.

End Turn.

(** After a message that completes an utterance [AskService] is not
    listening, whatever the text. *)
Lemma dispatch_completion_stops (askWindow bu be : bool) (e text : string)
    (a : AskService.service) :
  AskService.isListening
    (AskService.state
       (fst (dispatchAll askWindow ErrorField
               (AskSttService.emitIf bu (AskSttService.TranscriptionUpdate text true)
                ++ [AskSttService.Emit (AskSttService.TranscriptionComplete text)]
                ++ AskSttService.emitIf be (AskSttService.Error e)) a)))
  = false.
Proof.
  destruct bu, be;
    cbn [AskSttService.emitIf app dispatchAll dispatch onTranscriptionUpdate
         onTranscriptionComplete onError];
    unfold onTranscriptionComplete; destruct (truthy (trim text)); reflexivity.
Qed.

(** [startVoiceInput] on a service that is not listening while its STT
    service still is. *)
Lemma startVoiceInput_while_stt_listens
    (info : AskSttService.ModelInfo) (sess : AskSttService.session)
    (askWindow : bool) (v : voice) :
  AskService.isListening (AskService.state (ask v)) = false ->
  AskSttService.isListening (sttService v) = true ->
  truthy (AskSttService.apiKey info) = true ->
  startVoiceInput (Some info) (inr sess) askWindow v
  = (mkVoice (withSttTranscription "" (withListening true (ask v)))
             (AskSttService.mkService (Some sess) true
                (AskSttService.currentTranscription (sttService v)) (Some info)
                (AskSttService.cbs (sttService v))),
     (if AskSttService.onStatusUpdate (AskSttService.cbs (sttService v))
      then toWindow askWindow (SttStatus "ready") else [])
     ++ [broadcast (withSttTranscription "" (withListening true (ask v)))],
     succeeded).
Proof.
  intros Ha Hs Hk. unfold startVoiceInput, AskSttService.initializeSession.
  rewrite Ha, Hk. cbn [AskSttService.isListening AskSttService.currentTranscription
                       AskSttService.modelInfo AskSttService.cbs].
  rewrite Hs.
  destruct (AskSttService.onStatusUpdate (AskSttService.cbs (sttService v)));
    cbn [AskSttService.emitIf dispatchAll dispatch onStatusUpdate negb
         AskSttService.startListening AskSttService.sttSession AskSttService.isListening
         app];
    now rewrite ?app_nil_r.
Qed.

(** X30: starting again after a completed utterance. When a provider
    message completes an utterance while the STT service is listening, a
    following [startVoiceInput] with a configured model succeeds and
    replaces the session by the new one without closing the old one; but,
    the STT service having stayed in its listening state, it does not
    clear the accumulator, which still holds the text of the previous
    utterance, and reports no listening status: all it does is report the
    session ready and publish the state, whose own transcription is
    empty. *)
Theorem restart_keeps_the_previous_utterance
    (askWindow askWindow' : bool) (v : voice) (m : AskSttService.message) (text : string)
    (info : AskSttService.ModelInfo) (sess : AskSttService.session) :
  AskSttService.isListening (sttService v) = true ->
  In (AskSttService.Emit (AskSttService.TranscriptionComplete text))
     (snd (AskSttService.handleMessage (sttService v) m)) ->
  truthy (AskSttService.apiKey info) = true ->
  let v1 := fst (onmessage askWindow m v) in
  let r := startVoiceInput (Some info) (inr sess) askWindow' v1 in
  let v2 := fst (fst r) in
  snd r = succeeded /\
  AskSttService.sttSession (sttService v2) = Some sess /\
  AskSttService.isListening (sttService v2) = true /\
  AskSttService.currentTranscription (sttService v2) = text /\
  AskService.isListening (AskService.state (ask v2)) = true /\
  AskService.sttTranscription (AskService.state (ask v2)) = "" /\
  snd (fst r)
  = (if AskSttService.onStatusUpdate (AskSttService.cbs (sttService v))
     then toWindow askWindow' (SttStatus "ready") else [])
    ++ [broadcast (ask v2)].
Proof.
  intros Hs H Hk. cbv zeta.
  destruct (completing_message (sttService v) m text H) as (Hacc & bu & be & e & Hout).
  destruct (SttProperties.handleMessage_session (sttService v) m) as (_ & Hl & _ & Hc).
  assert (Ha : AskService.isListening
                 (AskService.state (ask (fst (onmessage askWindow m v)))) = false).
  { rewrite onmessage_fst. cbn [ask]. rewrite Hout. apply dispatch_completion_stops. }
  assert (Hs' : AskSttService.isListening (sttService (fst (onmessage askWindow m v)))
                = true).
  { rewrite onmessage_fst. cbn [sttService]. now rewrite Hl. }
  rewrite (startVoiceInput_while_stt_listens info sess askWindow' _ Ha Hs' Hk).
  cbn [fst snd ask sttService AskSttService.sttSession AskSttService.isListening
       AskSttService.currentTranscription].
  rewrite onmessage_fst. cbn [ask sttService]. rewrite Hacc, Hc.
  repeat split.
Qed.

Lemma dictated_question_is_submitted_in_voice_mode_witness :
  let v := fst (run dictation init) in
  let v1 := fst (onmessage true SttStates.geminiTurnComplete v) in
  AskService.currentQuestion (AskService.state (ask v1)) = "what is this?" /\
  AskSttService.isListening (sttService v1) = AskSttService.isListening (sttService v).
Proof.
  pose proof (dictated_question_is_submitted_in_voice_mode
                (fun d => d) (fun h => h) (fun q => q)
                true (fst (run dictation init)) SttStates.geminiTurnComplete
                "what is this?")
    as K.
  cbv zeta in K |- *.
  destruct K as (_ & _ & _ & A & B & _); [vm_compute; now left | reflexivity |].
  split; [exact A | exact B].
Defined.

Lemma restart_keeps_the_previous_utterance_witness :
  let v1 := fst (onmessage true SttStates.geminiTurnComplete (fst (run dictation init))) in
  let r := startVoiceInput (Some geminiInfo) (inr (AskSttService.mkSession false false))
             true v1 in
  snd r = succeeded /\
  AskSttService.currentTranscription (sttService (fst (fst r))) = "what is this?".
Proof.
  pose proof (restart_keeps_the_previous_utterance true true
                (fst (run dictation init)) SttStates.geminiTurnComplete "what is this?"
                geminiInfo (AskSttService.mkSession false false))
    as K.
  cbv zeta in K |- *.
  destruct K as (A & _ & _ & B & _);
    [reflexivity | vm_compute; now left | reflexivity |].
  split; [exact A | exact B].
Defined.

End VoiceProperties.
